(** * Run orchestration of the reply agent: a shallow embedding

    This development embeds [runReplyAgent]
    (src/auto-reply/reply/agent-runner.ts), the typing signaler
    [createTypingSignaler] and [resolveTypingMode]
    (auto-reply/reply/typing-mode.ts, whose text closes
    src/config/types.ts), the error formatter, the error classifiers, the
    bootstrap context files and the image pass over the session history of
    src/agents/pi-embedded-helpers.ts, and the functions of
    src/agents/cli-runner.ts that decide how prompt, session and system
    prompt reach a CLI backend; it states the properties of the run
    orchestration engine and of these helpers over them.

    Conventions of the embedding.
    - A JavaScript string is a [string]; its characters stand for the code
      units of the original.  Glyphs outside ASCII in literal texts are
      written as in the source; no property below depends on their length.
    - A JavaScript number that counts tokens or milliseconds is a [Z]
      (sums are those of JavaScript below 2^53, where its numbers are
      exact).
    - [undefined]/[null] are [None].
    - The session store (a plain object used as a dictionary) is a
      [gmap string SessionEntry]; [Set<string>] of dedup keys is a [gset].
    - Calls to collaborators that only have an effect outside this function
      (typing controller, caller callbacks, queue, logger, file system) are
      recorded in the [World], newest first.
    - The agent turn is given by the events the environment produces, in
      order: the callbacks the agent invokes and the moments at which block
      deliveries in flight settle.  Tool results are handed to the caller
      when their event comes; [shouldEmitToolResult], which only answers
      the agent, is left out. *)

From Stdlib Require Import ZArith Ascii String List Bool Lia.
From stdpp Require Import base option gmap strings list fin_maps fin_sets pretty.

Set Warnings "-clear-no-such-hyp".

Local Open Scope string_scope.
Local Open Scope Z_scope.

(** ** JavaScript string helpers *)

Module JsString.

Definition code (c : ascii) : nat := nat_of_ascii c.

(** Characters removed by [String.prototype.trim]: white space and line
    terminators (here the ones below code unit 256). *)
Definition isWhiteSpace (c : ascii) : bool :=
  let n := code c in
  ((9 <=? n) && (n <=? 13) || (n =? 32) || (n =? 160))%nat.

(** Line terminators, which [.] of a regular expression does not match. *)
Definition isLineTerminator (c : ascii) : bool :=
  let n := code c in ((n =? 10) || (n =? 13))%nat.

Definition isUpperAscii (c : ascii) : bool :=
  let n := code c in ((65 <=? n) && (n <=? 90))%nat.

Definition lowerAscii (c : ascii) : ascii :=
  if isUpperAscii c then ascii_of_nat (code c + 32) else c.

(** Character comparison of a regular expression with the [i] flag, for
    a pattern made of ASCII characters. *)
Definition ciEqb (a b : ascii) : bool :=
  Ascii.eqb (lowerAscii a) (lowerAscii b).

Fixpoint trimStart (s : string) : string :=
  match s with
  | String c t => if isWhiteSpace c then trimStart t else s
  | EmptyString => EmptyString
  end.

Fixpoint rev_acc (s acc : string) : string :=
  match s with
  | String c t => rev_acc t (String c acc)
  | EmptyString => acc
  end.

Definition rev (s : string) : string := rev_acc s EmptyString.

Definition trimEnd (s : string) : string := rev (trimStart (rev s)).

Definition trim (s : string) : string := trimEnd (trimStart s).

Fixpoint startsWithBy (eq : ascii -> ascii -> bool) (p s : string) : bool :=
  match p, s with
  | EmptyString, _ => true
  | String a p', String b s' => eq a b && startsWithBy eq p' s'
  | String _ _, EmptyString => false
  end.

Fixpoint includesBy (eq : ascii -> ascii -> bool) (p s : string) : bool :=
  startsWithBy eq p s ||
  match s with
  | String _ t => includesBy eq p t
  | EmptyString => false
  end.

(** [s.includes(p)] *)
Definition includes (p s : string) : bool := includesBy Ascii.eqb p s.

(** [/p/i.test(s)] for a literal ASCII pattern [p]. *)
Definition testCI (p s : string) : bool := includesBy ciEqb p s.

Fixpoint drop (n : nat) (s : string) : string :=
  match n, s with
  | O, _ => s
  | S n', String _ t => drop n' t
  | S _, EmptyString => EmptyString
  end.

Fixpoint take (n : nat) (s : string) : string :=
  match n, s with
  | O, _ => EmptyString
  | S n', String c t => String c (take n' t)
  | S _, EmptyString => EmptyString
  end.

(** [.*p] matched at the start of [s], with the [i] flag. *)
Fixpoint dotStarThen (p s : string) : bool :=
  startsWithBy ciEqb p s ||
  match s with
  | String c t => if isLineTerminator c then false else dotStarThen p t
  | EmptyString => false
  end.

(** [/a.*b/i.test(s)] for literal ASCII [a] and [b]. *)
Fixpoint testDotStarCI (a b s : string) : bool :=
  (startsWithBy ciEqb a s && dotStarThen b (drop (String.length a) s)) ||
  match s with
  | String _ t => testDotStarCI a b t
  | EmptyString => false
  end.

(** JavaScript truthiness of a string. *)
Definition truthy (s : string) : bool :=
  match s with EmptyString => false | _ => true end.

Definition repeat (c : ascii) (n : nat) : string :=
  Nat.iter n (String c) EmptyString.

Definition joinLines (l : list string) : string :=
  match l with
  | [] => EmptyString
  | x :: r => fold_left (fun acc y => acc +:+ String "010"%char y) r x
  end.

End JsString.

(** Truthiness of an optional string: defined and not empty. *)
Definition truthyStr (o : option string) : option string :=
  match o with
  | Some s => if JsString.truthy s then Some s else None
  | None => None
  end.

Definition isSomeB {A} (o : option A) : bool :=
  match o with Some _ => true | None => false end.

(** [(xs?.length ?? 0) > 0] *)
Definition hasItems {A} (o : option (list A)) : bool :=
  match o with Some (_ :: _) => true | _ => false end.

(** ** Data model *)

(** The persisted record of one conversation (config/sessions.ts declares
    it; the fields are those the engine reads and writes). *)
Record SessionEntry := mkSessionEntry {
  sessionId : string;
  updatedAt : Z;
  modelProvider : option string;
  model : option string;
  inputTokens : option Z;
  outputTokens : option Z;
  totalTokens : option Z;
  contextTokens : option Z;
  verboseLevel : option string;
  compactionCount : option Z;
  groupActivationNeedsSystemIntro : option bool
}.

Abbreviation Store := (gmap string SessionEntry).

Record ReplyPayload := mkReplyPayload {
  text : option string;
  mediaUrl : option string;
  mediaUrls : option (list string);
  replyToId : option string;
  audioAsVoice : option bool;
  isError : bool
}.

(** What a streaming callback receives from the agent. *)
Record StreamPayload := mkStreamPayload {
  spText : option string;
  spMediaUrls : option (list string)
}.

Record Usage := mkUsage {
  input : option Z;
  output : option Z;
  cacheRead : option Z;
  cacheWrite : option Z;
  total : option Z
}.

Record AgentMeta := mkAgentMeta {
  amUsage : option Usage;
  amModel : option string;
  amProvider : option string
}.

Record RunResult := mkRunResult {
  payloads : option (list ReplyPayload);
  agentMeta : option AgentMeta;
  messagingToolSentTexts : option (list string)
}.

Inductive QueueMode :=
| steer | followup | collect | steer_backlog | steer_plus_backlog | queue
| interrupt.

#[global] Instance QueueMode_eq_dec : EqDecision QueueMode.
Proof. solve_decision. Defined.

Record FollowupRun := mkFollowupRun {
  prompt : string;
  runSessionId : string;
  runProvider : string;
  runModel : string;
  reasoningLevel : option string
}.

Inductive TypingMode := never | instant | thinking | message.

Inductive VerboseLevel := verboseOff | verboseOn.

(** [GetReplyOptions]: which caller callbacks are registered. *)
Record GetReplyOptions := mkOpts {
  isHeartbeatOpt : bool;
  onPartialReply : bool;
  onReasoningStream : bool;
  onBlockReply : bool;
  onToolResult : bool
}.

Record Params := mkParams {
  commandBody : string;
  followupRun : FollowupRun;
  queueKey : string;
  resolvedQueueMode : QueueMode;
  shouldSteer : bool;
  shouldFollowup : bool;
  isActive : bool;
  isStreaming : bool;
  opts : option GetReplyOptions;
  sessionKey : option string;
  storePath : option string;
  defaultModel : string;
  agentCfgContextTokens : option Z;
  resolvedVerboseLevel : VerboseLevel;
  isNewSession : bool;
  blockStreamingEnabled : bool;
  messageSid : option string;
  shouldInjectGroupIntro : bool;
  typingMode : TypingMode
}.

(** The dedup key.  The source builds
    [JSON.stringify({text, mediaList, replyToId})]; that serialisation is
    injective on the triple, which stands for it here. *)
Definition PayloadKey : Type := string * list string * option string.

(** Calls on the typing controller. *)
Inductive TypingCall :=
| StartTypingLoop
| StartTypingOnText (t : option string)
| RefreshTypingTtl
| Cleanup
| MarkRunComplete.

(** Invocations of the caller's callbacks. *)
Inductive Delivery :=
| DPartial (p : StreamPayload)
| DReasoning (p : StreamPayload)
| DBlock (p : ReplyPayload)
| DToolResult (p : StreamPayload).

(** Lines written to the log.  Where the source appends the text of a
    caught exception to a line ([String(err)]), the line is given by the
    text before it: what the exception says is not part of the model. *)
Inductive LogLine :=
| LogVerbose (s : string)
| LogError (s : string)
| LogVerboseCaught (s : string)
| LogErrorCaught (s : string).

(** Everything outside the function that it reads or changes. *)
Record World := mkWorld {
  sessionEntry : option SessionEntry;   (* the object passed as [sessionEntry] *)
  sessionStore : option Store;          (* the object passed as [sessionStore] *)
  persisted : list (string * Store);    (* completed [saveSessionStore] calls *)
  files : gset string;                  (* transcript files on disk *)
  backlog : list (string * FollowupRun);(* [enqueueFollowupRun] calls *)
  injected : list (string * string);    (* [queueEmbeddedPiMessage] calls *)
  typingLog : list TypingCall;
  outbox : list Delivery;
  settledBlocks : list ReplyPayload;    (* block deliveries that resolved *)
  drains : list string;                 (* [scheduleFollowupDrain] calls *)
  turns : nat;                          (* agent turns started *)
  logs : list LogLine;
  nowCalls : nat;
  saveCalls : nat
}.

(** What the run returns: [undefined], one payload, or an array. *)
Inductive ReplyReturn :=
| RUndefined
| ROne (p : ReplyPayload)
| RMany (l : list ReplyPayload).

(** Events of one agent turn, in the order the environment produces them. *)
Inductive AgentEvent :=
| EvPartial (p : StreamPayload)
| EvReasoning (p : StreamPayload)
| EvTool (phase : option string)
| EvCompaction (phase : option string) (willRetry : bool)
| EvBlock (p : StreamPayload)
| EvToolResult (p : StreamPayload)
| EvBlockSettled (k : PayloadKey) (ok : bool).

Inductive RunOutcome :=
| RunOk (r : RunResult) (provider model : option string)
| RunFailed (message : string).

(** The choices of the environment during one call. *)
Record Env := mkEnv {
  clock : nat -> Z;               (* the n-th reading of [Date.now()] *)
  saveOk : nat -> bool;           (* does the n-th [saveSessionStore] succeed *)
  steerOk : bool;                 (* result of [queueEmbeddedPiMessage] *)
  script : list AgentEvent;
  outcome : RunOutcome;
  lateSettle : PayloadKey -> bool (* fate of deliveries still in flight at the end *)
}.

Record StripResult := mkStrip {
  shouldSkip : bool;
  strippedText : string;
  didStrip : bool
}.

Record AudioTagResult := mkAudioTag {
  cleaned : string;
  tagAudioAsVoice : bool
}.

(** Collaborators of [runReplyAgent] whose code lies outside the files at
    hand.  They are taken as parameters; nothing is assumed about them
    beyond their types.  [applyReplyToMode] is a closure with private state
    in the source: here it receives the payloads it was applied to before. *)
Class Collaborators := {
  SILENT_REPLY_TOKEN : string;
  DEFAULT_CONTEXT_TOKENS : Z;
  stripHeartbeatToken : string -> StripResult;
  applyReplyTagsToPayload : ReplyPayload -> option string -> ReplyPayload;
  isRenderablePayload : ReplyPayload -> bool;
  extractAudioTag : option string -> AudioTagResult;
  applyReplyToMode : list ReplyPayload -> ReplyPayload -> ReplyPayload;
  applyReplyThreading :
    list ReplyPayload -> list ReplyPayload -> option string -> list ReplyPayload;
  filterMessagingToolDuplicates :
    list ReplyPayload -> list string -> list ReplyPayload;
  hasNonzeroUsage : option Usage -> bool;
  lookupContextTokens : string -> option Z;
  resolveSessionTranscriptPath : string -> string;
  (* [incrementCompactionCount({sessionEntry, sessionStore, sessionKey,
     storePath})] at clock reading [now]: the entry object and the store
     as it leaves them, whether it saves the store, and the count. *)
  incrementCompactionCount :
    option SessionEntry -> option Store -> option string -> option string ->
    Z -> option SessionEntry * option Store * bool * option Z
}.

(** ** World updates *)

Definition setSession (e : option SessionEntry) (s : option Store) (w : World)
  : World :=
  mkWorld e s (persisted w) (files w) (backlog w) (injected w) (typingLog w)
    (outbox w) (settledBlocks w) (drains w) (turns w) (logs w) (nowCalls w)
    (saveCalls w).

Definition setFiles (f : gset string) (w : World) : World :=
  mkWorld (sessionEntry w) (sessionStore w) (persisted w) f (backlog w)
    (injected w) (typingLog w) (outbox w) (settledBlocks w) (drains w)
    (turns w) (logs w) (nowCalls w) (saveCalls w).

Definition pushBacklog (k : string) (r : FollowupRun) (w : World) : World :=
  mkWorld (sessionEntry w) (sessionStore w) (persisted w) (files w)
    ((k, r) :: backlog w) (injected w) (typingLog w) (outbox w)
    (settledBlocks w) (drains w) (turns w) (logs w) (nowCalls w) (saveCalls w).

Definition pushInjected (sid msg : string) (w : World) : World :=
  mkWorld (sessionEntry w) (sessionStore w) (persisted w) (files w)
    (backlog w) ((sid, msg) :: injected w) (typingLog w) (outbox w)
    (settledBlocks w) (drains w) (turns w) (logs w) (nowCalls w) (saveCalls w).

(** The typing calls [cs] happen in order. *)
Definition typingCalls (cs : list TypingCall) (w : World) : World :=
  mkWorld (sessionEntry w) (sessionStore w) (persisted w) (files w)
    (backlog w) (injected w) (rev cs ++ typingLog w) (outbox w)
    (settledBlocks w) (drains w) (turns w) (logs w) (nowCalls w) (saveCalls w).

Definition deliver (d : Delivery) (w : World) : World :=
  mkWorld (sessionEntry w) (sessionStore w) (persisted w) (files w)
    (backlog w) (injected w) (typingLog w) (d :: outbox w)
    (settledBlocks w) (drains w) (turns w) (logs w) (nowCalls w) (saveCalls w).

Definition settleBlock (p : ReplyPayload) (w : World) : World :=
  mkWorld (sessionEntry w) (sessionStore w) (persisted w) (files w)
    (backlog w) (injected w) (typingLog w) (outbox w)
    (p :: settledBlocks w) (drains w) (turns w) (logs w) (nowCalls w)
    (saveCalls w).

Definition scheduleFollowupDrain (k : string) (w : World) : World :=
  mkWorld (sessionEntry w) (sessionStore w) (persisted w) (files w)
    (backlog w) (injected w) (typingLog w) (outbox w)
    (settledBlocks w) (k :: drains w) (turns w) (logs w) (nowCalls w)
    (saveCalls w).

Definition startTurn (w : World) : World :=
  mkWorld (sessionEntry w) (sessionStore w) (persisted w) (files w)
    (backlog w) (injected w) (typingLog w) (outbox w)
    (settledBlocks w) (drains w) (S (turns w)) (logs w) (nowCalls w)
    (saveCalls w).

Definition logLine (l : LogLine) (w : World) : World :=
  mkWorld (sessionEntry w) (sessionStore w) (persisted w) (files w)
    (backlog w) (injected w) (typingLog w) (outbox w)
    (settledBlocks w) (drains w) (turns w) (l :: logs w) (nowCalls w)
    (saveCalls w).

(** [Date.now()] *)
Definition dateNow (env : Env) (w : World) : World * Z :=
  (mkWorld (sessionEntry w) (sessionStore w) (persisted w) (files w)
     (backlog w) (injected w) (typingLog w) (outbox w)
     (settledBlocks w) (drains w) (turns w) (logs w) (S (nowCalls w))
     (saveCalls w),
   clock env (nowCalls w)).

(** [await saveSessionStore(path, store)]: [false] when it throws. *)
Definition saveSessionStore (env : Env) (path : string) (s : Store) (w : World)
  : World * bool :=
  let ok := saveOk env (saveCalls w) in
  (mkWorld (sessionEntry w) (sessionStore w)
     (if ok then (path, s) :: persisted w else persisted w) (files w)
     (backlog w) (injected w) (typingLog w) (outbox w)
     (settledBlocks w) (drains w) (turns w) (logs w) (nowCalls w)
     (S (saveCalls w)),
   ok).

(** ** Session entry updates *)

Definition withUpdatedAt (t : Z) (e : SessionEntry) : SessionEntry :=
  mkSessionEntry (sessionId e) t (modelProvider e) (model e) (inputTokens e)
    (outputTokens e) (totalTokens e) (contextTokens e) (verboseLevel e)
    (compactionCount e) (groupActivationNeedsSystemIntro e).

Definition withIntroDone (t : Z) (e : SessionEntry) : SessionEntry :=
  mkSessionEntry (sessionId e) t (modelProvider e) (model e) (inputTokens e)
    (outputTokens e) (totalTokens e) (contextTokens e) (verboseLevel e)
    (compactionCount e) (Some false).

(** The entry written after a run with nonzero usage. *)
Definition withUsage (inp out tot : Z) (provider mdl : string) (ctx t : Z)
  (e : SessionEntry) : SessionEntry :=
  mkSessionEntry (sessionId e) t (Some provider) (Some mdl) (Some inp)
    (Some out) (Some tot) (Some ctx) (verboseLevel e) (compactionCount e)
    (groupActivationNeedsSystemIntro e).

(** The entry written after a run without usage. *)
Definition withModel (provider mdl : string) (ctx : Z) (e : SessionEntry)
  : SessionEntry :=
  mkSessionEntry (sessionId e) (updatedAt e) (Some provider) (Some mdl)
    (inputTokens e) (outputTokens e) (totalTokens e) (Some ctx)
    (verboseLevel e) (compactionCount e) (groupActivationNeedsSystemIntro e).

(** ** The typing signaler ([createTypingSignaler]) *)

Module Typing.

Definition eqMode (a b : TypingMode) : bool :=
  match a, b with
  | never, never | instant, instant | thinking, thinking
  | message, message => true
  | _, _ => false
  end.

Record TypingSignaler := mkSignaler {
  mode : TypingMode;
  shouldStartImmediately : bool;
  shouldStartOnText : bool;
  shouldStartOnReasoning : bool;
  disabled : bool
}.

Definition createTypingSignaler (m : TypingMode) (isHeartbeat : bool)
  : TypingSignaler :=
  mkSignaler m
    (eqMode m instant)
    (eqMode m message || eqMode m instant)
    (eqMode m thinking)
    (isHeartbeat || eqMode m never).

(** Each signal is given by the controller calls it makes, in order. *)
Definition signalRunStart (s : TypingSignaler) : list TypingCall :=
  if disabled s || negb (shouldStartImmediately s) then []
  else [StartTypingLoop].

Definition signalTextDelta (s : TypingSignaler) (t : option string)
  : list TypingCall :=
  if disabled s then []
  else if shouldStartOnText s then [StartTypingOnText t]
  else if shouldStartOnReasoning s then [RefreshTypingTtl]
  else [].

Definition signalReasoningDelta (s : TypingSignaler) : list TypingCall :=
  if disabled s || negb (shouldStartOnReasoning s) then []
  else [StartTypingLoop; RefreshTypingTtl].

Definition signalToolStart (s : TypingSignaler) : list TypingCall :=
  if disabled s then [] else [StartTypingLoop].

(** The events a signaler receives during a run. *)
Inductive Signal :=
| SigRunStart
| SigTextDelta (t : option string)
| SigReasoningDelta
| SigToolStart.

Definition signal (s : TypingSignaler) (e : Signal) : list TypingCall :=
  match e with
  | SigRunStart => signalRunStart s
  | SigTextDelta t => signalTextDelta s t
  | SigReasoningDelta => signalReasoningDelta s
  | SigToolStart => signalToolStart s
  end.

(** All controller calls of a sequence of signals, in order. *)
Definition signals (s : TypingSignaler) (es : list Signal) : list TypingCall :=
  concat (map (signal s) es).

Definition isStartCall (c : TypingCall) : bool :=
  match c with
  | StartTypingLoop | StartTypingOnText _ => true
  | _ => false
  end.

End Typing.

(** ** State local to one call of [runReplyAgent] *)

Record Locals := mkLocals {
  streamedPayloadKeys : gset PayloadKey;
  pendingStreamedPayloadKeys : gset PayloadKey;
  pendingBlockTasks : list (PayloadKey * ReplyPayload);
  didStreamBlockReply : bool;
  didLogHeartbeatStrip : bool;
  autoCompactionCompleted : bool;
  replyToHistory : list ReplyPayload  (* inputs [applyReplyToMode] has seen *)
}.

Definition initLocals : Locals := mkLocals ∅ ∅ [] false false false [].

Definition setDidLog (L : Locals) : Locals :=
  mkLocals (streamedPayloadKeys L) (pendingStreamedPayloadKeys L)
    (pendingBlockTasks L) (didStreamBlockReply L) true
    (autoCompactionCompleted L) (replyToHistory L).

Definition setCompacted (L : Locals) : Locals :=
  mkLocals (streamedPayloadKeys L) (pendingStreamedPayloadKeys L)
    (pendingBlockTasks L) (didStreamBlockReply L) (didLogHeartbeatStrip L)
    true (replyToHistory L).

Definition noteFiltered (p : ReplyPayload) (L : Locals) : Locals :=
  mkLocals (streamedPayloadKeys L) (pendingStreamedPayloadKeys L)
    (pendingBlockTasks L) (didStreamBlockReply L) (didLogHeartbeatStrip L)
    (autoCompactionCompleted L) (replyToHistory L ++ [p]).

(** [pendingStreamedPayloadKeys.add(k)] and the task put in flight. *)
Definition addPending (k : PayloadKey) (p : ReplyPayload) (L : Locals) : Locals :=
  mkLocals (streamedPayloadKeys L) ({[k]} ∪ pendingStreamedPayloadKeys L)
    (pendingBlockTasks L ++ [(k, p)]) (didStreamBlockReply L)
    (didLogHeartbeatStrip L) (autoCompactionCompleted L) (replyToHistory L).

Definition keyIs (k : PayloadKey) (t : PayloadKey * ReplyPayload) : bool :=
  bool_decide (t.1 = k).

(** The [.then]/[.finally] of a block task whose delivery resolved
    ([ok]) or rejected. *)
Definition finishPending (k : PayloadKey) (ok : bool) (L : Locals) : Locals :=
  mkLocals
    (if ok then {[k]} ∪ streamedPayloadKeys L else streamedPayloadKeys L)
    (pendingStreamedPayloadKeys L ∖ {[k]})
    (filter (fun t => t.1 ≠ k) (pendingBlockTasks L))
    (if ok then true else didStreamBlockReply L)
    (didLogHeartbeatStrip L) (autoCompactionCompleted L) (replyToHistory L).

Definition textPayload (s : string) : ReplyPayload :=
  mkReplyPayload (Some s) None None None None false.

Definition withText (t : option string) (p : ReplyPayload) : ReplyPayload :=
  mkReplyPayload t (mediaUrl p) (mediaUrls p) (replyToId p) (audioAsVoice p)
    (isError p).

Definition withAudio (t : option string) (a : bool) (p : ReplyPayload)
  : ReplyPayload :=
  mkReplyPayload t (mediaUrl p) (mediaUrls p) (replyToId p) (Some a)
    (isError p).

Definition HEARTBEAT_OK : string := "HEARTBEAT_OK".

(** [text?.includes("HEARTBEAT_OK")] *)
Definition mentionsHeartbeat (t : option string) : bool :=
  match t with
  | Some s => JsString.includes HEARTBEAT_OK s
  | None => false
  end.

(** [Boolean(payload.mediaUrl) || (payload.mediaUrls?.length ?? 0) > 0] *)
Definition hasMedia (p : ReplyPayload) : bool :=
  isSomeB (truthyStr (mediaUrl p)) || hasItems (mediaUrls p).

Definition buildPayloadKey (p : ReplyPayload) : PayloadKey :=
  let t := match text p with Some s => JsString.trim s | None => "" end in
  let mediaList :=
    match mediaUrls p with
    | Some (u :: r) => u :: r
    | _ => match truthyStr (mediaUrl p) with Some u => [u] | None => [] end
    end in
  (t, mediaList, replyToId p).

Definition isBunFetchSocketError (m : string) : bool :=
  JsString.truthy m &&
  JsString.testCI "socket connection was closed unexpectedly" m.

Definition formatBunFetchSocketError (m : string) : string :=
  let trimmed := JsString.trim m in
  JsString.joinLines
    [ "⚠️ LLM connection failed. This could be due to server issues, network problems, or context length exceeded (e.g., with local LLMs like LM Studio). Original error:";
      "```";
      if JsString.truthy trimmed then trimmed else "Unknown error";
      "```" ].

Definition optFlag (f : GetReplyOptions -> bool) (P : Params) : bool :=
  match opts P with Some o => f o | None => false end.

(** [opts?.isHeartbeat === true] *)
Definition isHeartbeat (P : Params) : bool := optFlag isHeartbeatOpt P.

Definition typingSignals (P : Params) : Typing.TypingSignaler :=
  Typing.createTypingSignaler (typingMode P) (isHeartbeat P).

Definition allowPartialStream (P : Params) : bool :=
  negb (bool_decide (reasoningLevel (followupRun P) = Some "stream")
        && optFlag onReasoningStream P).

(** ** Streaming callbacks wired into the agent turn *)

Section Callbacks.
Context `{C : Collaborators}.
Variable P : Params.

Definition RunState : Type := Locals * World.

(** The verbose log line written the first time a token is stripped. *)
Definition noteStrip (r : StripResult) (st : RunState) : RunState :=
  if didStrip r && negb (didLogHeartbeatStrip st.1)
  then (setDidLog st.1,
        logLine (LogVerbose "Stripped stray HEARTBEAT_OK token from reply") st.2)
  else st.

(** The heartbeat guard shared by the partial-reply, block-reply and
    tool-result callbacks: [None] when the event is dropped, else the
    text to go on with. *)
Definition stripStreamed (p : StreamPayload) (st : RunState)
  : RunState * option (option string) :=
  if negb (isHeartbeat P) && mentionsHeartbeat (spText p) then
    let stripped := stripHeartbeatToken (default "" (spText p)) in
    let st1 := noteStrip stripped st in
    if shouldSkip stripped && negb (hasItems (spMediaUrls p))
    then (st1, None)
    else (st1, Some (Some (strippedText stripped)))
  else (st, Some (spText p)).

Definition onPartialReplyCb (p : StreamPayload) (st : RunState) : RunState :=
  match stripStreamed p st with
  | (st1, None) => st1
  | (st1, Some t) =>
      (st1.1,
       deliver (DPartial (mkStreamPayload t (spMediaUrls p)))
         (typingCalls (Typing.signalTextDelta (typingSignals P) t) st1.2))
  end.

Definition onReasoningStreamCb (p : StreamPayload) (st : RunState) : RunState :=
  let w1 := typingCalls (Typing.signalReasoningDelta (typingSignals P)) st.2 in
  (st.1,
   if optFlag onReasoningStream P
   then deliver (DReasoning (mkStreamPayload (spText p) (spMediaUrls p))) w1
   else w1).

Definition onToolEvent (phase : option string) (st : RunState) : RunState :=
  if bool_decide (default "" phase = "start")
  then (st.1, typingCalls (Typing.signalToolStart (typingSignals P)) st.2)
  else st.

Definition onCompactionEvent (phase : option string) (willRetry : bool)
  (st : RunState) : RunState :=
  if bool_decide (default "" phase = "end") && negb willRetry
  then (setCompacted st.1, st.2)
  else st.

Definition onToolResultCb (p : StreamPayload) (st : RunState) : RunState :=
  match stripStreamed p st with
  | (st1, None) => st1
  | (st1, Some t) =>
      (st1.1,
       deliver (DToolResult (mkStreamPayload t (spMediaUrls p)))
         (typingCalls (Typing.signalTextDelta (typingSignals P) t) st1.2))
  end.

(** The payload of a block after reply tagging. *)
Definition tagBlock (t : option string) (p : StreamPayload) : ReplyPayload :=
  applyReplyTagsToPayload
    (mkReplyPayload t (head (default [] (spMediaUrls p))) (spMediaUrls p)
       None None false)
    (messageSid P).

(** [audioTagResult.cleaned || undefined] *)
Definition cleanedOf (tagged : ReplyPayload) : option string :=
  truthyStr (Some (cleaned (extractAudioTag (text tagged)))).

Definition isSilent (c : option string) : bool :=
  match c with
  | Some s => bool_decide (JsString.trim s = SILENT_REPLY_TOKEN)
  | None => false
  end.

(** The payload handed to [applyReplyToMode]: the tagged payload with the
    cleaned text and the voice flag. *)
Definition unfilteredBlock (t : option string) (p : StreamPayload)
  : ReplyPayload :=
  let tagged := tagBlock t p in
  withAudio (cleanedOf tagged) (tagAudioAsVoice (extractAudioTag (text tagged)))
    tagged.

Definition blockPayloadOf (t : option string) (p : StreamPayload) (L : Locals)
  : ReplyPayload :=
  applyReplyToMode (replyToHistory L) (unfilteredBlock t p).

(** The part of [onBlockReply] after the heartbeat guard. *)
Definition streamBlock (t : option string) (p : StreamPayload) (st : RunState)
  : RunState :=
  let tagged := tagBlock t p in
  if negb (isRenderablePayload tagged) then st else
  let c := cleanedOf tagged in
  if negb (isSomeB c) && negb (hasMedia tagged) then st else
  if isSilent c && negb (hasMedia tagged) then st else
  let blockPayload := blockPayloadOf t p st.1 in
  let L1 := noteFiltered (unfilteredBlock t p) st.1 in
  let k := buildPayloadKey blockPayload in
  if bool_decide (k ∈ streamedPayloadKeys L1)
     || bool_decide (k ∈ pendingStreamedPayloadKeys L1)
  then (L1, st.2)
  else
    (addPending k blockPayload L1,
     deliver (DBlock blockPayload)
       (typingCalls (Typing.signalTextDelta (typingSignals P) (text tagged))
          st.2)).

Definition onBlockReplyCb (p : StreamPayload) (st : RunState) : RunState :=
  match stripStreamed p st with
  | (st1, None) => st1
  | (st1, Some t) => streamBlock t p st1
  end.

(** The delivery of the block in flight under key [k] settles: the caller's
    [onBlockReply] promise resolved ([ok]) or rejected.  When no delivery
    is in flight under [k], nothing happens. *)
Definition settle (k : PayloadKey) (ok : bool) (st : RunState) : RunState :=
  match find (keyIs k) (pendingBlockTasks st.1) with
  | None => st
  | Some (_, payload) =>
      (finishPending k ok st.1,
       if ok then settleBlock payload st.2
       else logLine (LogVerboseCaught "block reply delivery failed: ") st.2)
  end.

(** One event of the turn.  A callback that was not registered with the
    agent is never called. *)
Definition onEvent (st : RunState) (e : AgentEvent) : RunState :=
  match e with
  | EvPartial p =>
      if optFlag onPartialReply P && allowPartialStream P
      then onPartialReplyCb p st else st
  | EvReasoning p =>
      if Typing.shouldStartOnReasoning (typingSignals P)
         || optFlag onReasoningStream P
      then onReasoningStreamCb p st else st
  | EvTool phase => onToolEvent phase st
  | EvCompaction phase willRetry => onCompactionEvent phase willRetry st
  | EvBlock p =>
      if blockStreamingEnabled P && optFlag onBlockReply P
      then onBlockReplyCb p st else st
  | EvToolResult p =>
      if optFlag onToolResult P then onToolResultCb p st else st
  | EvBlockSettled k ok => settle k ok st
  end.

Definition runEvents (es : list AgentEvent) (st : RunState) : RunState :=
  fold_left onEvent es st.

(** [await Promise.allSettled(pendingBlockTasks)] *)
Definition drainBlocks (fate : PayloadKey -> bool) (st : RunState) : RunState :=
  fold_left (fun s t => settle t.1 (fate t.1) s) (pendingBlockTasks st.1) st.

End Callbacks.

(** ** The run *)

(** How a call ends: it returns, or an exception leaves it. *)
Inductive Completion :=
| Returned (r : ReplyReturn)
| Raised (what : string).

Definition SESSION_RESET_APOLOGY : string :=
  "⚠️ Session history was corrupted. I've reset the conversation - please try again!".

Definition CONTEXT_OVERFLOW_NOTICE : string :=
  "⚠️ Context overflow - conversation too long. Starting fresh might help!".

Definition agentFailedNotice (message : string) : string :=
  "⚠️ Agent failed before reply: " +:+ message +:+
  ". Check gateway logs for details.".

(** [/context.*overflow|too large|context window/i.test(message)] *)
Definition isContextOverflow (m : string) : bool :=
  JsString.testDotStarCI "context" "overflow" m
  || JsString.testCI "too large" m
  || JsString.testCI "context window" m.

(** [/function call turn comes immediately after/i.test(message)] *)
Definition isSessionCorruption (m : string) : bool :=
  JsString.testCI "function call turn comes immediately after" m.

Section Run.
Context `{C : Collaborators}.
Variable P : Params.
Variable env : Env.

(** [sessionEntry.updatedAt = Date.now(); sessionStore[sessionKey] =
    sessionEntry; if (storePath) await saveSessionStore(...)], guarded by
    [sessionEntry && sessionStore && sessionKey].  The entry is one
    object, mutated in place and shared with the store.  The flag is
    [false] when the save throws. *)
Definition touchSession (f : Z -> SessionEntry -> SessionEntry) (w : World)
  : World * bool :=
  match sessionEntry w, sessionStore w, truthyStr (sessionKey P) with
  | Some e, Some s, Some k =>
      let '(w1, t) := dateNow env w in
      let e' := f t e in
      let s' := <[k := e']> s in
      let w2 := setSession (Some e') (Some s') w1 in
      match truthyStr (storePath P) with
      | Some path => saveSessionStore env path s' w2
      | None => (w2, true)
      end
  | _, _, _ => (w, true)
  end.

Definition finalizeWithFollowup (v : ReplyReturn) (w : World)
  : World * Completion :=
  (scheduleFollowupDrain (queueKey P) w, Returned v).

(** The [catch] around the agent turn. *)
Definition handleFailure (message : string) (w : World) : World * Completion :=
  match isSessionCorruption message, truthyStr (sessionKey P), sessionStore w,
        truthyStr (storePath P) with
  | true, Some k, Some s, Some path =>
      let w1 :=
        logLine (LogError
          ("Session history corrupted (Gemini function call ordering). Resetting session: "
           +:+ k)) w in
      let w2 :=
        match truthyStr (sessionId <$> sessionEntry w1) with
        | Some sid =>
            setFiles (files w1 ∖ {[resolveSessionTranscriptPath sid]}) w1
        | None => w1
        end in
      let s' := delete k s in
      let w3 := setSession (sessionEntry w2) (Some s') w2 in
      let '(w4, ok) := saveSessionStore env path s' w3 in
      let w5 :=
        if ok then w4
        else logLine
               (LogErrorCaught ("Failed to reset corrupted session " +:+ k +:+ ": "))
               w4 in
      finalizeWithFollowup (ROne (textPayload SESSION_RESET_APOLOGY)) w5
  | _, _, _, _ =>
      let w1 :=
        logLine (LogError ("Embedded agent failed before reply: " +:+ message)) w in
      finalizeWithFollowup
        (ROne (textPayload
           (if isContextOverflow message then CONTEXT_OVERFLOW_NOTICE
            else agentFailedNotice message))) w1
  end.

(** The text of a final payload after the socket-error rewrite. *)
Definition finalText (p : ReplyPayload) : option string :=
  match truthyStr (text p) with
  | Some s =>
      if isError p && isBunFetchSocketError s
      then Some (formatBunFetchSocketError s) else text p
  | None => text p
  end.

(** One step of the [flatMap] that sanitises the final payloads. *)
Definition sanitizePayload (acc : RunState * list ReplyPayload)
  (p : ReplyPayload) : RunState * list ReplyPayload :=
  let '(st, out) := acc in
  let t := finalText p in
  match truthyStr t with
  | Some s =>
      if JsString.includes HEARTBEAT_OK s then
        let stripped := stripHeartbeatToken s in
        let st1 := noteStrip stripped st in
        if shouldSkip stripped && negb (hasMedia p) then (st1, out)
        else (st1, (out ++ [withText (Some (strippedText stripped)) p])%list)
      else (st, (out ++ [withText t p])%list)
  | None => (st, (out ++ [withText t p])%list)
  end.

Definition sanitizePayloads (l : list ReplyPayload) (st : RunState)
  : RunState * list ReplyPayload :=
  if isHeartbeat P then (st, l) else fold_left sanitizePayload l (st, []).

Definition cleanAudio (p : ReplyPayload) : ReplyPayload :=
  let a := extractAudioTag (text p) in
  withAudio (truthyStr (Some (cleaned a))) (tagAudioAsVoice a) p.

Definition replyTaggedPayloads (hist : list ReplyPayload)
  (sanitized : list ReplyPayload) : list ReplyPayload :=
  List.filter isRenderablePayload
    (map cleanAudio (applyReplyThreading hist sanitized (messageSid P))).

(** The final payloads that remain after the two duplicate filters. *)
Definition filteredPayloads (L : Locals) (r : RunResult)
  (replyTagged : list ReplyPayload) : list ReplyPayload :=
  let shouldDropFinalPayloads :=
    blockStreamingEnabled P && didStreamBlockReply L in
  let deduped :=
    filterMessagingToolDuplicates replyTagged
      (default [] (messagingToolSentTexts r)) in
  if shouldDropFinalPayloads then []
  else if blockStreamingEnabled P
  then List.filter
         (fun p => negb (bool_decide (buildPayloadKey p ∈ streamedPayloadKeys L)))
         deduped
  else deduped.

Definition shouldSignalTyping (l : list ReplyPayload) : bool :=
  existsb
    (fun p =>
       match truthyStr (JsString.trim <$> text p) with
       | Some t =>
           if bool_decide (t ≠ SILENT_REPLY_TOKEN) then true else hasMedia p
       | None => hasMedia p
       end) l.

Definition modelUsed (r : RunResult) (fallbackModel : option string) : string :=
  default (default (defaultModel P) fallbackModel) (agentMeta r ≫= amModel).

Definition providerUsed (r : RunResult) (fallbackProvider : option string)
  : string :=
  default (default (runProvider (followupRun P)) fallbackProvider)
    (agentMeta r ≫= amProvider).

Definition contextTokensUsed (mdl : string) (w : World) : Z :=
  default
    (default
       (default DEFAULT_CONTEXT_TOKENS (sessionEntry w ≫= contextTokens))
       (lookupContextTokens mdl))
    (agentCfgContextTokens P).

(** [promptTokens > 0 ? promptTokens : (usage.total ?? input)].  The sum is
    taken in [Z]: it is the sum JavaScript computes as long as the counts
    are integers whose sum stays below 2^53, where its addition is exact. *)
Definition totalOf (u : Usage) : Z :=
  let inp := default 0 (input u) in
  let promptTokens :=
    inp + default 0 (cacheRead u) + default 0 (cacheWrite u) in
  if 0 <? promptTokens then promptTokens else default inp (total u).

Definition writeEntry (k : string) (e : SessionEntry) (s : Store) (w : World)
  : World * bool :=
  let s' := <[k := e]> s in
  let w1 := setSession (sessionEntry w) (Some s') w in
  match truthyStr (storePath P) with
  | Some path => saveSessionStore env path s' w1
  | None => (w1, true)
  end.

(** The session update after a run ([if (sessionStore && sessionKey)]).
    The second component names the exception that leaves the function,
    if any: a failed save, or reading a field of an absent usage. *)
Definition updateSessionUsage (r : RunResult)
  (fallbackProvider fallbackModel : option string) (w : World)
  : World * option string :=
  match sessionStore w, truthyStr (sessionKey P) with
  | Some s, Some k =>
      let usage := agentMeta r ≫= amUsage in
      let mdl := modelUsed r fallbackModel in
      let prov := providerUsed r fallbackProvider in
      let ctx := contextTokensUsed mdl w in
      let entry :=
        match sessionEntry w with Some e => Some e | None => s !! k end in
      if hasNonzeroUsage usage then
        match entry with
        | Some e =>
            match usage with
            | Some u =>
                let '(w1, t) := dateNow env w in
                let next :=
                  withUsage (default 0 (input u)) (default 0 (output u))
                    (totalOf u) prov mdl ctx t e in
                let '(w2, ok) := writeEntry k next s w1 in
                (w2, if ok then None else Some "saveSessionStore")
            | None => (w, Some "TypeError")
            end
        | None => (w, None)
        end
      else if JsString.truthy mdl || negb (ctx =? 0) then
        match entry with
        | Some e =>
            let '(w2, ok) := writeEntry k (withModel prov mdl ctx e) s w in
            (w2, if ok then None else Some "saveSessionStore")
        | None => (w, None)
        end
      else (w, None)
  | _, _ => (w, None)
  end.

Definition COMPACTION_NOTICE (count : option Z) : string :=
  "🧹 Auto-compaction complete" +:+
  match count with
  | Some n => " (count " +:+ pretty n +:+ ")"
  | None => ""
  end +:+ ".".

Definition NEW_SESSION_NOTICE : string :=
  "🧭 New session: " +:+ runSessionId (followupRun P).

(** The compaction notice and the new-session hint put before the
    payloads.  The flag is [false] when a save throws. *)
Definition decorate (L : Locals) (l : list ReplyPayload) (w : World)
  : World * list ReplyPayload * bool :=
  let '(w1, l1, ok) :=
    if autoCompactionCompleted L then
      let '(w0, t) := dateNow env w in
      let '(e', s', saves, count) :=
        incrementCompactionCount (sessionEntry w0) (sessionStore w0)
          (sessionKey P) (storePath P) t in
      let wa := setSession e' s' w0 in
      let '(wb, ok) :=
        match saves, s', truthyStr (storePath P) with
        | true, Some st, Some path => saveSessionStore env path st wa
        | _, _, _ => (wa, true)
        end in
      (wb,
       match resolvedVerboseLevel P with
       | verboseOn => textPayload (COMPACTION_NOTICE count) :: l
       | verboseOff => l
       end, ok)
    else (w, l, true) in
  (w1,
   match resolvedVerboseLevel P with
   | verboseOn =>
       if isNewSession P then textPayload NEW_SESSION_NOTICE :: l1 else l1
   | verboseOff => l1
   end, ok).

(** [finalPayloads.length === 1 ? finalPayloads[0] : finalPayloads] *)
Definition asReturn (l : list ReplyPayload) : ReplyReturn :=
  match l with
  | [p] => ROne p
  | _ => RMany l
  end.

(** How the first part of the turn after the agent returned ends: the save
    of the group intro flag failed, the agent returned no payload, or the
    sanitised final payloads are at hand. *)
Inductive Reconciled :=
| IntroSaveFailed (w : World)
| NothingToSend (w : World)
| Ready (L : Locals) (w : World) (sanitized : list ReplyPayload).

(** The group intro flag is cleared once the turn has run. *)
Definition injectGroupIntro (w : World) : World * bool :=
  match shouldInjectGroupIntro P,
        sessionEntry w ≫= groupActivationNeedsSystemIntro with
  | true, Some true => touchSession withIntroDone w
  | _, _ => (w, true)
  end.

Definition reconcile (r : RunResult) (st : RunState) : Reconciled :=
  let '(L, w) := st in
  let '(w1, ok1) := injectGroupIntro w in
  if negb ok1 then IntroSaveFailed w1 else
  let payloadArray := default [] (payloads r) in
  let '(L2, w2) := drainBlocks (lateSettle env) (L, w1) in
  match payloadArray with
  | [] => NothingToSend w2
  | _ :: _ =>
      let '((L3, w3), sanitized) := sanitizePayloads payloadArray (L2, w2) in
      Ready L3 w3 sanitized
  end.

(** The last part of the turn, once final payloads remain to be sent. *)
Definition conclude (r : RunResult)
  (fallbackProvider fallbackModel : option string) (L : Locals)
  (filtered : list ReplyPayload) (w : World) : World * Completion :=
  let w4 :=
    if shouldSignalTyping filtered
    then typingCalls (Typing.signalRunStart (typingSignals P)) w
    else w in
  match updateSessionUsage r fallbackProvider fallbackModel w4 with
  | (w5, Some exn) => (w5, Raised exn)
  | (w5, None) =>
      let '(w6, finalPayloads, ok) := decorate L filtered w5 in
      if ok then finalizeWithFollowup (asReturn finalPayloads) w6
      else (w6, Raised "saveSessionStore")
  end.

(** The turn after the agent returned [r]. *)
Definition finishRun (r : RunResult)
  (fallbackProvider fallbackModel : option string) (st : RunState)
  : World * Completion :=
  match reconcile r st with
  | IntroSaveFailed w1 => (w1, Raised "saveSessionStore")
  | NothingToSend w2 => finalizeWithFollowup RUndefined w2
  | Ready L3 w3 sanitized =>
      let replyTagged := replyTaggedPayloads (replyToHistory L3) sanitized in
      match filteredPayloads L3 r replyTagged with
      | [] => finalizeWithFollowup RUndefined w3
      | (_ :: _) as filtered =>
          conclude r fallbackProvider fallbackModel L3 filtered w3
      end
  end.

(** The [try { ... } finally { typing.markRunComplete() }] block. *)
Definition runTurn (w : World) : World * Completion :=
  let st := runEvents P (script env) (initLocals, startTurn w) in
  let '(w1, c) :=
    match outcome env with
    | RunOk r provider mdl => finishRun r provider mdl st
    | RunFailed msg => handleFailure msg st.2
    end in
  (typingCalls [MarkRunComplete] w1, c).

Definition runReplyAgent (w : World) : World * Completion :=
  let trySteer := shouldSteer P && isStreaming P in
  let w0 :=
    if trySteer
    then pushInjected (runSessionId (followupRun P)) (prompt (followupRun P)) w
    else w in
  if trySteer && steerOk env && negb (shouldFollowup P) then
    match touchSession withUpdatedAt w0 with
    | (w1, true) => (typingCalls [Cleanup] w1, Returned RUndefined)
    | (w1, false) => (w1, Raised "saveSessionStore")
    end
  else if isActive P
          && (shouldFollowup P
              || bool_decide (resolvedQueueMode P = steer)) then
    match touchSession withUpdatedAt
            (pushBacklog (queueKey P) (followupRun P) w0) with
    | (w1, true) => (typingCalls [Cleanup] w1, Returned RUndefined)
    | (w1, false) => (w1, Raised "saveSessionStore")
    end
  else runTurn w0.

End Run.

(** ** The assistant-error formatter (src/agents/pi-embedded-helpers.ts) *)

Module PiEmbeddedHelpers.

Record AssistantMessage := mkAssistantMessage {
  stopReason : string;
  errorMessage : option string
}.

(** [String.prototype.toLowerCase] on the code units below 256. *)
Definition lowerChar (c : ascii) : ascii :=
  let n := JsString.code c in
  if ((65 <=? n) && (n <=? 90)
      || (192 <=? n) && (n <=? 222) && negb (n =? 215))%nat
  then ascii_of_nat (n + 32) else c.

Fixpoint toLowerCase (s : string) : string :=
  match s with
  | String c t => String (lowerChar c) (toLowerCase t)
  | EmptyString => EmptyString
  end.

Definition isContextOverflowError (errorMessage : option string) : bool :=
  match truthyStr errorMessage with
  | None => false
  | Some m =>
      let lower := toLowerCase m in
      JsString.includes "request_too_large" lower
      || JsString.includes "request exceeds the maximum size" lower
      || JsString.includes "context length exceeded" lower
      || JsString.includes "maximum context length" lower
      || (JsString.includes "413" lower
          && JsString.includes "too large" lower)
  end.

Definition quote : ascii := "034"%char.
Definition q (s : string) : string :=
  String quote s +:+ String quote EmptyString.

(** The longest prefix without a double quote, and what follows it. *)
Fixpoint spanNonQuote (s : string) : string * string :=
  match s with
  | String c t =>
      if Ascii.eqb c quote then (EmptyString, s)
      else let '(a, b) := spanNonQuote t in (String c a, b)
  | EmptyString => (EmptyString, EmptyString)
  end.

(** The message pattern matched at the start of [s]: the key [message],
    a colon, and a quoted non-empty run of characters other than the
    double quote, which is the group returned. *)
Definition messageAt (s : string) : option string :=
  let lit := q "message" +:+ ":" +:+ String quote EmptyString in
  if JsString.startsWithBy Ascii.eqb lit s then
    let '(run, rest) := spanNonQuote (JsString.drop (String.length lit) s) in
    if JsString.truthy run
       && JsString.startsWithBy Ascii.eqb (String quote EmptyString) rest
    then Some run else None
  else None.

(** [.*?] followed by the message pattern, at the start of [s]. *)
Fixpoint lazyThenMessage (s : string) : option string :=
  match messageAt s with
  | Some g => Some g
  | None =>
      match s with
      | String c t =>
          if JsString.isLineTerminator c then None else lazyThenMessage t
      | EmptyString => None
      end
  end.

(** Group 1 of the regular expression that looks for the quoted key
    [type] with the quoted value [invalid_request_error], then lazily
    for the message pattern. *)
Fixpoint invalidRequestMessage (s : string) : option string :=
  let lit := q "type" +:+ ":" +:+ q "invalid_request_error" in
  match
    (if JsString.startsWithBy Ascii.eqb lit s
     then lazyThenMessage (JsString.drop (String.length lit) s)
     else None)
  with
  | Some g => Some g
  | None =>
      match s with
      | String _ t => invalidRequestMessage t
      | EmptyString => None
      end
  end.

Definition ELLIPSIS : string := "…".

Definition formatAssistantErrorText (msg : AssistantMessage) : option string :=
  if negb (bool_decide (stopReason msg = "error")) then None else
  let raw := JsString.trim (default "" (errorMessage msg)) in
  if negb (JsString.truthy raw)
  then Some "LLM request failed with an unknown error." else
  if isContextOverflowError (Some raw) then
    Some ("Context overflow: the conversation history is too large. " +:+
          "Use /new or /reset to start a fresh session.")
  else
    match invalidRequestMessage raw with
    | Some g => Some ("LLM request rejected: " +:+ g)
    | None =>
        (* Keep it short for WhatsApp. *)
        Some (if (600 <? String.length raw)%nat
              then JsString.take 600 raw +:+ ELLIPSIS else raw)
    end.

End PiEmbeddedHelpers.

(** ** Sample collaborators

    The properties below hold for every instance of [Collaborators].
    To run the model on concrete inputs, this module supplies one. *)

Module Sample.

(** Modelled from the spec: [stripHeartbeatToken] (auto-reply/heartbeat.ts)
    is not among the files at hand.  The token is taken out wherever it
    stands, the rest is trimmed, and an empty rest is to be skipped. *)
Fixpoint removeToken (skip : nat) (s : string) : string :=
  match s with
  | EmptyString => EmptyString
  | String c t =>
      match skip with
      | S n => removeToken n t
      | O =>
          if JsString.startsWithBy Ascii.eqb HEARTBEAT_OK s
          then removeToken (String.length HEARTBEAT_OK - 1) t
          else String c (removeToken 0 t)
      end
  end.

Definition stripToken (raw : string) : StripResult :=
  let t := JsString.trim (removeToken 0 raw) in
  mkStrip (negb (JsString.truthy t)) t (JsString.includes HEARTBEAT_OK raw).

(** Modelled from the spec: [isRenderablePayload]
    (auto-reply/reply/reply-payloads.ts) is not among the files at hand.
    A payload is renderable iff it has non-empty text or at least one
    media reference. *)
Definition renderable (p : ReplyPayload) : bool :=
  isSomeB (truthyStr (text p)) || hasMedia p.

(** Modelled from the spec: [filterMessagingToolDuplicates] is not among
    the files at hand.  Final payloads whose text the agent's own tool
    already sent are dropped. *)
Definition dropToolDuplicates (l : list ReplyPayload)
  (sent : list string) : list ReplyPayload :=
  List.filter
    (fun p => negb (bool_decide (default "" (text p) ∈ sent))) l.

(** Modelled from the spec: [hasNonzeroUsage] (agents/usage.ts) is not
    among the files at hand.  Usage is nonzero when some counter is
    positive. *)
Definition nonzeroUsage (u : option Usage) : bool :=
  match u with
  | None => false
  | Some u =>
      existsb (fun v => 0 <? default 0 v)
        [input u; output u; cacheRead u; cacheWrite u; total u]
  end.

(** The remaining collaborators, in their simplest form: no reply tags, no
    audio tags, reply-to mode [all], no context-window table, and no
    compaction bookkeeping. *)
#[local] Instance collaborators : Collaborators := {|
  SILENT_REPLY_TOKEN := "NO_REPLY";
  DEFAULT_CONTEXT_TOKENS := 200000;
  stripHeartbeatToken := stripToken;
  applyReplyTagsToPayload := fun p _ => p;
  isRenderablePayload := renderable;
  extractAudioTag := fun t => mkAudioTag (default "" t) false;
  applyReplyToMode := fun _ p => p;
  applyReplyThreading := fun _ l _ => l;
  filterMessagingToolDuplicates := dropToolDuplicates;
  hasNonzeroUsage := nonzeroUsage;
  lookupContextTokens := fun _ => None;
  resolveSessionTranscriptPath :=
    fun sid => "sessions/" +:+ sid +:+ ".jsonl";
  incrementCompactionCount := fun e s _ _ _ => (e, s, false, None)
|}.

Definition entry0 : SessionEntry :=
  mkSessionEntry "sid-1" 5 None None None None None None None None None.

Definition world0 : World :=
  mkWorld (Some entry0) (Some {["main" := entry0]}) [] {["sessions/sid-1.jsonl"]}
    [] [] [] [] [] [] 0 [] 0 0.

Definition run0 : FollowupRun :=
  mkFollowupRun "hello" "sid-1" "anthropic" "claude" None.

Definition allCallbacks : GetReplyOptions := mkOpts false true true true true.

Definition params0 : Params :=
  mkParams "hello" run0 "main" followup false false false false
    (Some allCallbacks) (Some "main") (Some "store.json") "claude" None
    verboseOff false true None false thinking.

Definition envOf (es : list AgentEvent) (o : RunOutcome) : Env :=
  mkEnv (fun n => 1000 + Z.of_nat n) (fun _ => true) true es o (fun _ => true).

Definition resultOf (ps : list ReplyPayload) (u : option Usage) : RunResult :=
  mkRunResult (Some ps) (Some (mkAgentMeta u None None)) None.

End Sample.

(** * Further embedding *)

(** ** Typing mode resolution ([resolveTypingMode]) *)

Record TypingModeContext := mkTypingModeContext {
  configured : option TypingMode;
  isGroupChat : bool;
  wasMentioned : bool;
  ctxIsHeartbeat : bool
}.

Definition DEFAULT_GROUP_TYPING_MODE : TypingMode := message.

Definition resolveTypingMode (c : TypingModeContext) : TypingMode :=
  if ctxIsHeartbeat c then never
  else match configured c with
       | Some m => m
       | None =>
           if negb (isGroupChat c) || wasMentioned c then instant
           else DEFAULT_GROUP_TYPING_MODE
       end.

(** ** Bootstrap context files and error classifiers
       (src/agents/pi-embedded-helpers.ts) *)

Module PiEmbeddedContext.
Import PiEmbeddedHelpers.

Definition MAX_BOOTSTRAP_CHARS : nat := 4000.
Definition BOOTSTRAP_HEAD_CHARS : nat := 2800.
Definition BOOTSTRAP_TAIL_CHARS : nat := 800.

(** [s.slice(-n)] for a positive [n] *)
Definition sliceLast (n : nat) (s : string) : string :=
  JsString.drop (String.length s - n) s.

Definition truncationMarker (fileName : string) : string :=
  "[...truncated, read " +:+ fileName +:+ " for full content...]".

Definition trimBootstrapContent (content fileName : string) : string :=
  let trimmed := JsString.trimEnd content in
  if (String.length trimmed <=? MAX_BOOTSTRAP_CHARS)%nat then trimmed
  else
    let head := JsString.take BOOTSTRAP_HEAD_CHARS trimmed in
    let tail := sliceLast BOOTSTRAP_TAIL_CHARS trimmed in
    JsString.joinLines
      [head; EmptyString; truncationMarker fileName; EmptyString; tail].

(** [WorkspaceBootstrapFile] (agents/workspace.ts declares it; the fields
    are those read here). *)
Record WorkspaceBootstrapFile := mkBootstrapFile {
  bfName : string;
  bfPath : string;
  bfContent : option string;
  bfMissing : bool
}.

Record EmbeddedContextFile := mkContextFile {
  cfPath : string;
  cfContent : string
}.

(** What one pass of the loop pushes for [file]. *)
Definition contextFilesOf (file : WorkspaceBootstrapFile)
  : list EmbeddedContextFile :=
  if bfMissing file then
    [mkContextFile (bfName file) ("[MISSING] Expected at: " +:+ bfPath file)]
  else
    let trimmed :=
      trimBootstrapContent (default EmptyString (bfContent file)) (bfName file) in
    if negb (JsString.truthy trimmed) then []
    else [mkContextFile (bfName file) trimmed].

Definition buildBootstrapContextFiles (files : list WorkspaceBootstrapFile)
  : list EmbeddedContextFile :=
  fold_left (fun result file => (result ++ contextFilesOf file)%list) files [].

(** A regular expression, given by its match at the start of a string,
    tested at every position of [s]. *)
Fixpoint anywhere (matchesAt : string -> bool) (s : string) : bool :=
  matchesAt s ||
  match s with
  | String _ t => anywhere matchesAt t
  | EmptyString => false
  end.

Definition lit (p : string) (s : string) : bool :=
  JsString.startsWithBy Ascii.eqb p s.

(** The character class of the underscore and the space. *)
Definition isSep (c : ascii) : bool :=
  Ascii.eqb c "_"%char || Ascii.eqb c " "%char.

(** [rate[_ ]limit] matched at the start of [s]. *)
Definition rateLimitAt (s : string) : bool :=
  lit "rate" s &&
  match JsString.drop 4 s with
  | String c t => isSep c && lit "limit" t
  | EmptyString => false
  end.

Definition isRateLimitErrorMessage (raw : string) : bool :=
  let value := toLowerCase raw in
  (anywhere rateLimitAt value
   || JsString.includes "too many requests" value
   || JsString.includes "429" value)
  || JsString.includes "exceeded your current quota" value.

Definition isRateLimitAssistantError (msg : option AssistantMessage) : bool :=
  match msg with
  | None => false
  | Some m =>
      if negb (bool_decide (stopReason m = "error")) then false else
      let raw := toLowerCase (default EmptyString (errorMessage m)) in
      if negb (JsString.truthy raw) then false
      else isRateLimitErrorMessage raw
  end.

(** An optional separator, then [k]. *)
Definition optSep (k : string -> bool) (s : string) : bool :=
  match s with
  | String c t => isSep c && k t || k s
  | EmptyString => k s
  end.

(** [invalid[_ ]?api[_ ]?key] matched at the start of [s]. *)
Definition invalidApiKeyAt (s : string) : bool :=
  lit "invalid" s &&
  optSep (fun s1 => lit "api" s1 && optSep (lit "key") (JsString.drop 3 s1))
    (JsString.drop 7 s).

(** The class [\w] of a regular expression. *)
Definition isWordChar (c : ascii) : bool :=
  let n := JsString.code c in
  ((48 <=? n) && (n <=? 57) || (65 <=? n) && (n <=? 90)
   || (97 <=? n) && (n <=? 122) || (n =? 95))%nat.

Definition isWordAt (o : option ascii) : bool :=
  match o with Some c => isWordChar c | None => false end.

Definition headOf (s : string) : option ascii :=
  match s with String c _ => Some c | EmptyString => None end.

(** A literal [p] of word characters between two word boundaries,
    somewhere in [s]; [prev] is the character before [s]. *)
Fixpoint wordIn (p : string) (prev : option ascii) (s : string) : bool :=
  negb (isWordAt prev) && lit p s
  && negb (isWordAt (headOf (JsString.drop (String.length p) s)))
  ||
  match s with
  | String c t => wordIn p (Some c) t
  | EmptyString => false
  end.

Definition isAuthErrorMessage (raw : string) : bool :=
  let value := toLowerCase raw in
  if negb (JsString.truthy value) then false else
  anywhere invalidApiKeyAt value
  || JsString.includes "incorrect api key" value
  || JsString.includes "invalid token" value
  || JsString.includes "authentication" value
  || JsString.includes "unauthorized" value
  || JsString.includes "forbidden" value
  || JsString.includes "access denied" value
  || wordIn "401" None value
  || wordIn "403" None value.

Definition isAuthAssistantError (msg : option AssistantMessage) : bool :=
  match msg with
  | None => false
  | Some m =>
      if negb (bool_decide (stopReason m = "error")) then false
      else isAuthErrorMessage (default EmptyString (errorMessage m))
  end.

End PiEmbeddedContext.

(** ** The fallback thinking level
       ([pickFallbackThinkingLevel], src/agents/pi-embedded-helpers.ts) *)

Module ThinkingFallback.
Import PiEmbeddedContext.

(** The longest prefix of characters in the class [f], and what follows. *)
Fixpoint spanBy (f : ascii -> bool) (s : string) : string * string :=
  match s with
  | String c t =>
      if f c then let '(a, b) := spanBy f t in (String c a, b)
      else (EmptyString, s)
  | EmptyString => (EmptyString, EmptyString)
  end.

(** The class of the characters other than the line feed and the dot. *)
Definition isValueChar (c : ascii) : bool :=
  negb (Ascii.eqb c "010"%char) && negb (Ascii.eqb c "."%char).

(** The group: one or more characters of that class, as many as there
    are. *)
Definition valuesAt (s : string) : option string :=
  let '(g, _) := spanBy isValueChar s in
  if JsString.truthy g then Some g else None.

(** White space, as much as the group after it allows, then the group. *)
Fixpoint afterSpaces (s : string) : option string :=
  match s with
  | String c t =>
      if JsString.isWhiteSpace c then
        match afterSpaces t with
        | Some g => Some g
        | None => valuesAt s
        end
      else valuesAt s
  | EmptyString => valuesAt s
  end.

(** Group 1 of the first match of the literal [label], without regard to
    case, followed by white space and the group. *)
Fixpoint firstValues (label : string) (s : string) : option string :=
  match
    (if JsString.startsWithBy JsString.ciEqb label s
     then afterSpaces (JsString.drop (String.length label) s)
     else None)
  with
  | Some g => Some g
  | None =>
      match s with
      | String _ t => firstValues label t
      | EmptyString => None
      end
  end.

Definition isQuote (c : ascii) : bool :=
  Ascii.eqb c "'"%char || Ascii.eqb c "034"%char.

(** A quoted entry matched at the start of [s]: its group and the length
    of the match. *)
Definition quotedAt (s : string) : option (string * nat) :=
  match s with
  | String c t =>
      if isQuote c then
        let '(g, rest) := spanBy (fun d => negb (isQuote d)) t in
        if JsString.truthy g && isSomeB (headOf rest)
        then Some (g, (String.length g + 2)%nat) else None
      else None
  | EmptyString => None
  end.

(** The groups of all matches, from left to right, none overlapping the
    one before; [skip] characters belong to the match before. *)
Fixpoint quotedFrom (skip : nat) (s : string) : list string :=
  match s with
  | EmptyString => []
  | String _ t =>
      match skip with
      | S n => quotedFrom n t
      | O =>
          match quotedAt s with
          | Some (g, len) => g :: quotedFrom (len - 1) t
          | None => quotedFrom 0 t
          end
      end
  end.

(** The separator, a comma or the word [and], matched at the start of
    [s]: its length.  [prev] is the character before [s]. *)
Definition separatorAt (prev : option ascii) (s : string) : option nat :=
  if lit "," s then Some 1%nat
  else if negb (isWordAt prev)
          && JsString.startsWithBy JsString.ciEqb "and" s
          && negb (isWordAt (headOf (JsString.drop 3 s)))
  then Some 3%nat
  else None.

(** [split] by that separator; [cur] holds the piece at hand, last
    character first. *)
Fixpoint splitFrom (skip : nat) (prev : option ascii) (cur : string)
  (s : string) : list string :=
  match s with
  | EmptyString => [JsString.rev cur]
  | String c t =>
      match skip with
      | S n => splitFrom n (Some c) cur t
      | O =>
          match separatorAt prev s with
          | Some len =>
              JsString.rev cur :: splitFrom (len - 1) (Some c) EmptyString t
          | None => splitFrom 0 (Some c) (String c cur) t
          end
      end
  end.

Definition isLetter (c : ascii) : bool :=
  let n := JsString.code c in
  ((65 <=? n) && (n <=? 90) || (97 <=? n) && (n <=? 122))%nat.

Fixpoint dropNonLetters (s : string) : string :=
  match s with
  | String c t => if isLetter c then s else dropNonLetters t
  | EmptyString => EmptyString
  end.

(** The characters that are no letters removed from both ends. *)
Definition stripNonLetters (s : string) : string :=
  JsString.rev (dropNonLetters (JsString.rev (dropNonLetters s))).

Definition extractSupportedValues (raw : string) : list string :=
  let found :=
    match firstValues "supported values are:" raw with
    | Some g => Some g
    | None => firstValues "supported values:" raw
    end in
  match found with
  | None => []
  | Some fragment =>
      let quoted := map JsString.trim (quotedFrom 0 fragment) in
      match quoted with
      | _ :: _ => List.filter JsString.truthy quoted
      | [] =>
          List.filter JsString.truthy
            (map (fun entry => JsString.trim (stripNonLetters entry))
               (splitFrom 0 None EmptyString fragment))
      end
  end.

Section Pick.
(** [ThinkLevel] and [normalizeThinkLevel] (auto-reply/thinking.ts) are not
    among the files at hand. *)
Variable ThinkLevel : Type.
Variable normalizeThinkLevel : string -> option ThinkLevel.

(** The loop over the supported values; [attempted] is [Set.has]. *)
Fixpoint firstUntried (attempted : ThinkLevel -> bool) (supported : list string)
  : option ThinkLevel :=
  match supported with
  | [] => None
  | entry :: rest =>
      match normalizeThinkLevel entry with
      | None => firstUntried attempted rest
      | Some normalized =>
          if attempted normalized then firstUntried attempted rest
          else Some normalized
      end
  end.

Definition pickFallbackThinkingLevel (message : option string)
  (attempted : ThinkLevel -> bool) : option ThinkLevel :=
  match truthyStr (JsString.trim <$> message) with
  | None => None
  | Some raw =>
      match extractSupportedValues raw with
      | [] => None
      | supported => firstUntried attempted supported
      end
  end.

End Pick.

Arguments firstUntried {ThinkLevel} normalizeThinkLevel attempted supported.
Arguments pickFallbackThinkingLevel {ThinkLevel} normalizeThinkLevel message
  attempted.

End ThinkingFallback.

(** ** Images in the session history
       ([sanitizeSessionMessagesImages], src/agents/pi-embedded-helpers.ts) *)

Module SessionImages.

Section Messages.
(** A content block, a content that is no array, the fields of a message
    object besides [role] and [content], and a message that is no object:
    the function passes them on as they are. *)
Variables Block Scalar Fields Opaque : Type.

Inductive Content :=
| ContentBlocks (blocks : list Block)
| ContentScalar (c : Scalar).

(** [role] is [None] when the field is absent or not a string. *)
Inductive AgentMessage :=
| NotAnObject (v : Opaque)
| MessageObject (role : option string) (content : Content) (rest : Fields).

Definition roleOf (msg : AgentMessage) : option string :=
  match msg with
  | NotAnObject _ => None
  | MessageObject role _ _ => role
  end.

(** [sanitizeContentBlocksImages] (agents/tool-images.ts) is not among
    the files at hand; it is taken to return. *)
Variable sanitizeContentBlocksImages : list Block -> string -> list Block.

(** What one pass of the loop pushes for [msg]. *)
Definition sanitizeMessage (label : string) (msg : AgentMessage)
  : AgentMessage :=
  match msg with
  | NotAnObject _ => msg
  | MessageObject role content rest =>
      if bool_decide (role = Some "toolResult") then
        let blocks :=
          match content with
          | ContentBlocks l => l
          | ContentScalar _ => []
          end in
        MessageObject role
          (ContentBlocks (sanitizeContentBlocksImages blocks label)) rest
      else if bool_decide (role = Some "user") then
        match content with
        | ContentBlocks l =>
            MessageObject role
              (ContentBlocks (sanitizeContentBlocksImages l label)) rest
        | ContentScalar _ => msg
        end
      else msg
  end.

Definition sanitizeSessionMessagesImages (messages : list AgentMessage)
  (label : string) : list AgentMessage :=
  fold_left (fun out msg => (out ++ [sanitizeMessage label msg])%list)
    messages [].

(** The messages whose content the function hands to the block
    sanitiser. *)
Definition hasSanitizedContent (msg : AgentMessage) : bool :=
  match msg with
  | NotAnObject _ => false
  | MessageObject role content _ =>
      bool_decide (role = Some "toolResult")
      || bool_decide (role = Some "user")
         && match content with ContentBlocks _ => true | _ => false end
  end.

Definition restOf (msg : AgentMessage) : option Fields :=
  match msg with
  | NotAnObject _ => None
  | MessageObject _ _ rest => Some rest
  end.

End Messages.

Arguments ContentBlocks {Block Scalar} blocks.
Arguments ContentScalar {Block Scalar} c.
Arguments NotAnObject {Block Scalar Fields Opaque} v.
Arguments MessageObject {Block Scalar Fields Opaque} role content rest.
Arguments roleOf {Block Scalar Fields Opaque} msg.
Arguments restOf {Block Scalar Fields Opaque} msg.
Arguments hasSanitizedContent {Block Scalar Fields Opaque} msg.
Arguments sanitizeMessage {Block Scalar Fields Opaque}
  sanitizeContentBlocksImages label msg.
Arguments sanitizeSessionMessagesImages {Block Scalar Fields Opaque}
  sanitizeContentBlocksImages messages label.

End SessionImages.

(** ** Command line of a CLI backend (src/agents/cli-runner.ts) *)

Module CliRunner.

Inductive InputMode := inputArg | inputStdin.
Inductive SessionMode := sessionAlways | sessionExisting | sessionNone.
Inductive PromptWhen := whenFirst | whenAlways | whenNever.
Inductive ImageMode := imageRepeat | imageList.

(** [CliBackendConfig] (config/types.ts): the fields read below. *)
Record CliBackendConfig := mkBackend {
  cbInput : option InputMode;
  cbMaxPromptArgChars : option Z;
  cbModelArg : option string;
  cbSessionArg : option string;
  cbSessionArgs : option (list string);
  cbSessionMode : option SessionMode;
  cbSystemPromptArg : option string;
  cbSystemPromptWhen : option PromptWhen;
  cbImageArg : option string;
  cbImageMode : option ImageMode
}.

(** Truthiness of an optional number. *)
Definition truthyNum (o : option Z) : option Z :=
  match o with
  | Some n => if n =? 0 then None else Some n
  | None => None
  end.

Record PromptInput := mkPromptInput {
  argsPrompt : option string;
  stdin : option string
}.

Definition resolvePromptInput (backend : CliBackendConfig) (prompt : string)
  : PromptInput :=
  match default inputArg (cbInput backend) with
  | inputStdin => mkPromptInput None (Some prompt)
  | inputArg =>
      match truthyNum (cbMaxPromptArgChars backend) with
      | Some n =>
          if n <? Z.of_nat (String.length prompt)
          then mkPromptInput None (Some prompt)
          else mkPromptInput (Some prompt) None
      | None => mkPromptInput (Some prompt) None
      end
  end.

Record SessionToSend := mkSessionToSend {
  stsSessionId : option string;
  stsIsNew : bool
}.

(** [uuid] is the value [crypto.randomUUID()] gives when it is called. *)
Definition resolveSessionIdToSend (uuid : string) (backend : CliBackendConfig)
  (cliSessionId : option string) : SessionToSend :=
  let mode := default sessionAlways (cbSessionMode backend) in
  let existing := JsString.trim <$> cliSessionId in
  let blank := negb (isSomeB (truthyStr existing)) in
  match mode with
  | sessionNone => mkSessionToSend None blank
  | sessionExisting => mkSessionToSend existing blank
  | sessionAlways =>
      if isSomeB (truthyStr existing) then mkSessionToSend existing false
      else mkSessionToSend (Some uuid) true
  end.

Definition resolveSystemPromptUsage (backend : CliBackendConfig)
  (isNewSession : bool) (systemPrompt : option string) : option string :=
  match truthyStr (JsString.trim <$> systemPrompt) with
  | None => None
  | Some sp =>
      let when := default whenFirst (cbSystemPromptWhen backend) in
      match when with
      | whenNever => None
      | _ =>
          if match when with whenFirst => negb isNewSession | _ => false end
          then None
          else if negb (isSomeB (truthyStr
                         (JsString.trim <$> cbSystemPromptArg backend)))
          then None
          else Some sp
      end
  end.

(** [l.join(sep)] *)
Definition joinWith (sep : string) (l : list string) : string :=
  match l with
  | [] => EmptyString
  | x :: r => fold_left (fun acc y => acc +:+ sep +:+ y) r x
  end.

Record CliArgsParams := mkCliArgsParams {
  backend : CliBackendConfig;
  baseArgs : list string;
  modelId : string;
  sessionId : option string;
  systemPrompt : option string;
  imagePaths : option (list string);
  promptArg : option string;
  useResume : bool
}.

Section Args.
(** [fillSessionId entry id] stands for [entry.replaceAll] of the
    placeholder [{sessionId}] by [id], a built-in the embedding leaves
    uninterpreted. *)
Variable fillSessionId : string -> string -> string.

Definition modelPart (p : CliArgsParams) : list string :=
  match negb (useResume p), truthyStr (cbModelArg (backend p)),
        JsString.truthy (modelId p) with
  | true, Some flag, true => [flag; modelId p]
  | _, _, _ => []
  end.

Definition systemPromptPart (p : CliArgsParams) : list string :=
  match negb (useResume p), truthyStr (systemPrompt p),
        truthyStr (cbSystemPromptArg (backend p)) with
  | true, Some sp, Some flag => [flag; sp]
  | _, _, _ => []
  end.

Definition sessionPart (p : CliArgsParams) : list string :=
  match negb (useResume p), truthyStr (sessionId p) with
  | true, Some sid =>
      match cbSessionArgs (backend p) with
      | Some (e :: es) => map (fun entry => fillSessionId entry sid) (e :: es)
      | _ =>
          match truthyStr (cbSessionArg (backend p)) with
          | Some flag => [flag; sid]
          | None => []
          end
      end
  | _, _ => []
  end.

Definition imagePart (p : CliArgsParams) : list string :=
  match imagePaths p with
  | Some (path :: rest) =>
      match truthyStr (cbImageArg (backend p)) with
      | Some flag =>
          match default imageRepeat (cbImageMode (backend p)) with
          | imageList => [flag; joinWith "," (path :: rest)]
          | imageRepeat =>
              concat (map (fun imagePath => [flag; imagePath]) (path :: rest))
          end
      | None => []
      end
  | _ => []
  end.

Definition promptPart (p : CliArgsParams) : list string :=
  match promptArg p with Some a => [a] | None => [] end.

Definition buildCliArgs (p : CliArgsParams) : list string :=
  (((((baseArgs p ++ modelPart p) ++ systemPromptPart p) ++ sessionPart p)
     ++ imagePart p) ++ promptPart p)%list.

End Args.

End CliRunner.

(** * Vocabulary of the properties *)

(** The part of the run state that block dedup is about. *)
Definition dedupView (st : RunState)
  : gset PayloadKey * gset PayloadKey * list (PayloadKey * ReplyPayload)
    * bool * list ReplyPayload :=
  (streamedPayloadKeys st.1, pendingStreamedPayloadKeys st.1,
   pendingBlockTasks st.1, didStreamBlockReply st.1, settledBlocks st.2).

(** What the caller and the typing controller have seen. *)
Definition signalView (st : RunState) : list Delivery * list TypingCall :=
  (outbox st.2, typingLog st.2).

(** The part of the world no streaming callback writes. *)
Definition sessionView (w : World)
  : option SessionEntry * option Store * list (string * Store) * gset string
    * list (string * FollowupRun) * list string * nat * nat * nat :=
  (sessionEntry w, sessionStore w, persisted w, files w, backlog w, drains w,
   turns w, nowCalls w, saveCalls w).

(** The text a streamed payload goes on with after the heartbeat guard,
    when the guard lets it pass. *)
Definition guardedText `{C : Collaborators} (P : Params) (p : StreamPayload)
  : option string :=
  if negb (isHeartbeat P) && mentionsHeartbeat (spText p)
  then Some (strippedText (stripHeartbeatToken (default "" (spText p))))
  else spText p.

Definition keysOf (l : list ReplyPayload) : list PayloadKey :=
  buildPayloadKey <$> l.

(** The final payloads a completed call hands back. *)
Definition returned (c : Completion) : list ReplyPayload :=
  match c with
  | Returned (ROne p) => [p]
  | Returned (RMany l) => l
  | Returned RUndefined | Raised _ => []
  end.

(** The part of the world the session bookkeeping never writes. *)
Definition outerView (w : World)
  : gset string * list (string * FollowupRun) * list (string * string)
    * list TypingCall * list Delivery * list ReplyPayload * list string
    * nat * list LogLine :=
  (files w, backlog w, injected w, typingLog w, outbox w, settledBlocks w,
   drains w, turns w, logs w).

(** The world a reconciliation ends in. *)
Definition reconciledWorld (x : Reconciled) : World :=
  match x with
  | IntroSaveFailed w | NothingToSend w | Ready _ w _ => w
  end.

(** The locals and the sanitised payloads of a reconciliation that is
    ready to send. *)
Definition readyLocals (x : Reconciled) : Locals :=
  match x with Ready L _ _ => L | _ => initLocals end.

Definition readySanitized (x : Reconciled) : list ReplyPayload :=
  match x with Ready _ _ s => s | _ => [] end.

(** ** The dedup invariant of one turn *)

(** [base] is the log of settled deliveries when the turn began. *)
Definition DedupInvOn (enabled : bool) (base : list ReplyPayload)
  (v : gset PayloadKey * gset PayloadKey * list (PayloadKey * ReplyPayload)
       * bool * list ReplyPayload) : Prop :=
  let '(streamed, pending, tasks, did, settled) := v in
  exists new : list ReplyPayload,
    settled = (new ++ base)%list
    /\ NoDup (keysOf new)
    /\ (forall k, k ∈ keysOf new <-> k ∈ streamed)
    /\ (forall k p, (k, p) ∈ tasks ->
          buildPayloadKey p = k /\ (k ∉ streamed) /\ (k ∈ pending))
    /\ (forall k, k ∈ pending -> k ∈ (tasks.*1))
    /\ NoDup (tasks.*1)
    /\ (did = true <-> streamed ≠ ∅)
    /\ (tasks ≠ [] \/ streamed ≠ ∅ -> enabled = true).

(** Every key is settled at most once in the turn; the settled keys are
    the streamed ones; the tasks in flight carry distinct keys, none of
    them streamed; [didStreamBlockReply] says whether a key is streamed;
    and blocks move only when block streaming is enabled. *)
Definition DedupInv (P : Params) (base : list ReplyPayload) (st : RunState)
  : Prop :=
  DedupInvOn (blockStreamingEnabled P) base (dedupView st).

(** ** The calls of the block callback *)

(** The payload of a call of the block callback. *)
Definition blockOf (d : Delivery) : option ReplyPayload :=
  match d with DBlock p => Some p | _ => None end.

(** The blocks handed to the block callback, newest first. *)
Definition blocksOf (l : list Delivery) : list ReplyPayload := omap blockOf l.

(** The environment rejects no block delivery: neither during the turn nor
    among the deliveries still in flight when the agent returns. *)
Definition neverRejects (env : Env) : Prop :=
  (forall k, lateSettle env k = true)
  /\ Forall (fun e => forall k, e <> EvBlockSettled k false) (script env).

(** The calls of the block callback of one turn against its settled
    deliveries; [baseOut] and [base] are the outbox and the settled
    deliveries when the turn began.  Every delivery that resolved or is in
    flight was handed to the callback; and as long as no delivery was
    rejected ([strict]), every block handed to the callback resolved or is
    in flight, and no key was handed over twice. *)
Definition SentInv (strict : bool) (baseOut : list Delivery)
  (base : list ReplyPayload) (st : RunState) : Prop :=
  exists sent new,
    outbox st.2 = (sent ++ baseOut)%list
    /\ settledBlocks st.2 = (new ++ base)%list
    /\ (forall p, p ∈ new -> DBlock p ∈ sent)
    /\ (forall k p, (k, p) ∈ pendingBlockTasks st.1 -> DBlock p ∈ sent)
    /\ (strict = true ->
        (forall p, DBlock p ∈ sent ->
           p ∈ new \/ exists k, (k, p) ∈ pendingBlockTasks st.1)
        /\ NoDup (keysOf (blocksOf sent))).

(** The final payloads of a turn after sanitising, threading and the
    messaging-tool filter: the list the block filter is applied to. *)
Definition toolFilteredPayloads `{C : Collaborators} (P : Params) (env : Env)
  (r : RunResult) (st : RunState) : list ReplyPayload :=
  match reconcile P env r st with
  | Ready L3 _ sanitized =>
      filterMessagingToolDuplicates
        (replyTaggedPayloads P (replyToHistory L3) sanitized)
        (default [] (messagingToolSentTexts r))
  | _ => []
  end.

(** ** Vocabulary of the further properties *)

(** The session store without the entry of the conversation at hand. *)
Definition storeWithout (k : option string) (w : World) : option Store :=
  match k with
  | Some key => delete key <$> sessionStore w
  | None => sessionStore w
  end.

(** The group intro flag is cleared, on the entry object and on the entry
    stored under [k]. *)
Definition introDone (k : string) (w : World) : Prop :=
  groupActivationNeedsSystemIntro <$> sessionEntry w = Some (Some false)
  /\ groupActivationNeedsSystemIntro <$> (sessionStore w ≫= (.!! k))
     = Some (Some false).

(** The callback a delivery goes to was handed to the agent. *)
Definition mayDeliver (P : Params) (d : Delivery) : bool :=
  match d with
  | DPartial _ => optFlag onPartialReply P && allowPartialStream P
  | DReasoning _ => optFlag onReasoningStream P
  | DBlock _ => blockStreamingEnabled P && optFlag onBlockReply P
  | DToolResult _ => optFlag onToolResult P
  end.

(** Every delivery in [w'] was in [w] already or went to such a callback. *)
Definition deliveredBy (P : Params) (w w' : World) : Prop :=
  forall d, d ∈ outbox w' -> d ∈ outbox w \/ mayDeliver P d = true.

(** * Sample runs *)

Module SteerRun.
Import Sample.

(** A steer request against a streaming run, entry and store at hand. *)
Definition params : Params :=
  mkParams "and one more thing" run0 "main" steer true false true true
    (Some allCallbacks) (Some "main") (Some "store.json") "claude" None
    verboseOff false true None false thinking.

Definition env : Env := envOf [] (RunFailed "unused").

Definition after : World * Completion :=
  runReplyAgent (C := collaborators) params env world0.

End SteerRun.

Module ResetRun.
Import Sample.

Definition message : string :=
  "400 Please ensure that function call turn comes immediately after a user turn".

Definition env : Env := envOf [] (RunFailed message).

Definition after : World * Completion :=
  runTurn (C := collaborators) params0 env world0.

End ResetRun.

Module StreamRun.
Import Sample.

Definition start : RunState := (initLocals, world0).

Definition silentBlock : StreamPayload := mkStreamPayload (Some " NO_REPLY ") None.

Definition tokenOnly : StreamPayload := mkStreamPayload (Some "HEARTBEAT_OK") None.

Definition afterSilentBlock : RunState :=
  onEvent (C := collaborators) params0 start (EvBlock silentBlock).

(** The token at the end of a text. *)
Definition tokenInText : StreamPayload :=
  mkStreamPayload (Some "All quiet. HEARTBEAT_OK") None.

(** One event on its streaming path, from the start. *)
Definition onPath (e : AgentEvent) : RunState :=
  onEvent (C := collaborators) params0 start e.

(** The agent's final answer is the token alone. *)
Definition tokenFinalEnv : Env :=
  envOf [] (RunOk (resultOf [textPayload "HEARTBEAT_OK"] None) None None).

Definition afterTokenFinal : World * Completion :=
  runReplyAgent (C := collaborators) params0 tokenFinalEnv world0.

End StreamRun.

Module BlockRun.
Import Sample.

Definition blockA : StreamPayload := mkStreamPayload (Some "a") None.

Definition keyA : PayloadKey := ("a", [], None).

Definition finalB : ReplyPayload := textPayload "b".

Definition usage : Usage := mkUsage (Some 100) (Some 50) None None None.

(** One block is streamed and its delivery resolves; the agent then
    returns a final payload with another text. *)
Definition env : Env :=
  envOf [EvBlock blockA; EvBlockSettled keyA true]
    (RunOk (resultOf [finalB] (Some usage)) None None).

Definition after : World * Completion :=
  runReplyAgent (C := collaborators) params0 env world0.

Definition reconciled : Reconciled :=
  reconcile (C := collaborators) params0 env (resultOf [finalB] (Some usage))
    (runEvents (C := collaborators) params0 (script env)
       (initLocals, startTurn world0)).

(** The same block is offered three times: while the first delivery is in
    flight, and, with other white space around it, after it resolved; the
    final payload repeats it once more. *)
Definition repeatedEnv : Env :=
  envOf [EvBlock blockA; EvBlock blockA; EvBlockSettled keyA true;
         EvBlock (mkStreamPayload (Some " a ") None)]
    (RunOk (resultOf [textPayload "a"] (Some usage)) None None).

Definition afterRepeated : World * Completion :=
  runReplyAgent (C := collaborators) params0 repeatedEnv world0.

End BlockRun.

Module RejectedRun.
Import Sample.

(** A block is handed to the callback and its delivery is rejected; the
    final payload repeats the block. *)
Definition env : Env :=
  envOf [EvBlock BlockRun.blockA; EvBlockSettled BlockRun.keyA false]
    (RunOk (resultOf [textPayload "a"] None) None None).

Definition after : World * Completion :=
  runTurn (C := collaborators) params0 env world0.

End RejectedRun.

Module DupFinalRun.
Import Sample.

(** The agent answers with the same text twice, once with blanks around
    it; nothing is streamed. *)
Definition result : RunResult :=
  resultOf [textPayload "a"; textPayload " a "] None.

Definition env : Env := envOf [] (RunOk result None None).

Definition after : World * Completion :=
  runReplyAgent (C := collaborators) params0 env world0.

End DupFinalRun.

Module UsageRun.
Import Sample.

Definition usage : Usage := mkUsage (Some 100) (Some 50) None None None.

Definition reply : ReplyPayload := textPayload "hi".

Definition result : RunResult := resultOf [reply] (Some usage).

(** The agent answers with one payload and reports the usage. *)
Definition env : Env := envOf [] (RunOk result None None).

Definition after : World * Completion :=
  runReplyAgent (C := collaborators) params0 env world0.

Definition turnState : RunState :=
  runEvents (C := collaborators) params0 (script env)
    (initLocals, startTurn world0).

Definition reconciled : Reconciled :=
  reconcile (C := collaborators) params0 env result turnState.

(** The agent reports the same usage but returns no payload. *)
Definition emptyResult : RunResult := resultOf [] (Some usage).

Definition emptyEnv : Env := envOf [] (RunOk emptyResult None None).

Definition afterEmpty : World * Completion :=
  runReplyAgent (C := collaborators) params0 emptyEnv world0.

(** The reply went out as a streamed block; the final payload repeats it. *)
Definition streamedEnv : Env :=
  envOf [EvBlock (mkStreamPayload (Some "hi") None);
         EvBlockSettled ("hi", [], None) true]
    (RunOk result None None).

Definition afterStreamed : World * Completion :=
  runReplyAgent (C := collaborators) params0 streamedEnv world0.

Definition stored (r : World * Completion) : option SessionEntry :=
  sessionStore r.1 ≫= (.!! "main").

End UsageRun.

Module FailureRun.
Import Sample.

(** A provider error of 700 characters. *)
Definition message : string := JsString.repeat "x"%char 700.

Definition env : Env := envOf [] (RunFailed message).

Definition after : World * Completion :=
  runReplyAgent (C := collaborators) params0 env world0.

Definition assistantError : PiEmbeddedHelpers.AssistantMessage :=
  PiEmbeddedHelpers.mkAssistantMessage "error" (Some message).

End FailureRun.

Module EnqueueRun.
Import Sample.

(** A followup request that arrives while a run is active. *)
Definition params : Params :=
  mkParams "later" run0 "main" followup false true true false
    (Some allCallbacks) (Some "main") (Some "store.json") "claude" None
    verboseOff false true None false thinking.

Definition env : Env := envOf [] (RunFailed "unused").

Definition after : World * Completion :=
  runReplyAgent (C := collaborators) params env world0.

End EnqueueRun.

Module KeylessRun.
Import Sample.

(** The corruption error of [ResetRun], for a call without session key. *)
Definition params : Params :=
  mkParams "hello" run0 "main" followup false false false false
    (Some allCallbacks) None (Some "store.json") "claude" None
    verboseOff false true None false thinking.

Definition after : World * Completion :=
  runTurn (C := collaborators) params ResetRun.env world0.

End KeylessRun.

Module UsageEdge.
Import Sample.





End UsageEdge.

Module HeartbeatRun.
Import Sample.

Definition params : Params :=
  mkParams "heartbeat" run0 "main" followup false false false false
    (Some (mkOpts true true true true true)) (Some "main") (Some "store.json")
    "claude" None verboseOff false true None false instant.

(** The agent streams text, reasons, starts a tool and answers. *)
Definition env : Env :=
  envOf [EvPartial (mkStreamPayload (Some "working") None);
         EvReasoning (mkStreamPayload (Some "hm") None);
         EvTool (Some "start")]
    (RunOk (resultOf [textPayload "done"] None) None None).

Definition after : World * Completion :=
  runTurn (C := collaborators) params env world0.

End HeartbeatRun.

Module PartialRun.
Import Sample.

Definition partial : StreamPayload := mkStreamPayload (Some "hi") None.

Definition env : Env := envOf [EvPartial partial] (RunOk UsageRun.result None None).

Definition after : World * Completion :=
  runTurn (C := collaborators) params0 env world0.

(** Two final payloads that need no sanitising. *)
Definition cleanPayloads : list ReplyPayload :=
  [textPayload "hello";
   mkReplyPayload None (Some "https://example.org/a.png") None None None false].

End PartialRun.

Module TwoSessions.
Import Sample.

Definition other : SessionEntry :=
  mkSessionEntry "sid-2" 7 None None (Some 1) (Some 2) (Some 3) None None None
    None.

(** The store holds a second conversation. *)
Definition world : World :=
  mkWorld (Some entry0) (Some {["main" := entry0; "other" := other]}) []
    {["sessions/sid-1.jsonl"]} [] [] [] [] [] [] 0 [] 0 0.

Definition after : World * Completion :=
  runReplyAgent (C := collaborators) params0 UsageRun.env world.

(** A store without the conversation, and no entry passed. *)
Definition strangerWorld : World :=
  mkWorld None (Some {["other" := other]}) [] ∅ [] [] [] [] [] [] 0 [] 0 0.

(** A result without usage. *)
Definition quietResult : RunResult := resultOf [UsageRun.reply] None.

End TwoSessions.

Module IntroRun.
Import Sample.

Definition entry : SessionEntry :=
  mkSessionEntry "sid-1" 5 None None None None None None None None (Some true).

Definition world : World :=
  mkWorld (Some entry) (Some {["main" := entry]}) [] {["sessions/sid-1.jsonl"]}
    [] [] [] [] [] [] 0 [] 0 0.

Definition params : Params :=
  mkParams "hello" run0 "main" followup false false false false
    (Some allCallbacks) (Some "main") (Some "store.json") "claude" None
    verboseOff false true None true thinking.

Definition after : World * Completion :=
  runTurn (C := collaborators) params UsageRun.env world.

End IntroRun.

Module FallbackSample.

(** [ThinkLevel] as src/agents/model-selection.ts declares it, and a
    normal form that knows the five names as they are. *)
Inductive ThinkLevel :=
| thinkOff | thinkMinimal | thinkLow | thinkMedium | thinkHigh.

Definition normalize (s : string) : option ThinkLevel :=
  if String.eqb s "off" then Some thinkOff
  else if String.eqb s "minimal" then Some thinkMinimal
  else if String.eqb s "low" then Some thinkLow
  else if String.eqb s "medium" then Some thinkMedium
  else if String.eqb s "high" then Some thinkHigh
  else None.

Definition rejection : string :=
  "Invalid value for thinking. Supported values are: 'low', 'medium' and 'high'.".

Definition triedLow (l : ThinkLevel) : bool :=
  match l with thinkLow => true | _ => false end.

End FallbackSample.

(** * Properties *)

(** ** String helpers on samples *)

Example trim_sample :
  JsString.trim (String "009"%char "  a b " +:+ String "010"%char " ") = "a b".
Proof. reflexivity. Qed.

Example testCI_sample :
  JsString.testCI "too large" "Request TOO Large!" = true.
Proof. reflexivity. Qed.

Example dotstar_sample :
  JsString.testDotStarCI "context" "overflow" "Context window overflow" = true
  /\ JsString.testDotStarCI "context" "overflow"
       ("context" +:+ String "010"%char "overflow") = false.
Proof. split; reflexivity. Qed.

Lemma includesBy_app (eq : ascii -> ascii -> bool) (p a b : string) :
  (forall c, eq c c = true) ->
  JsString.includesBy eq p (a +:+ p +:+ b) = true.
Proof.
  intros Hrefl.
  assert (Hpre : forall x y, JsString.startsWithBy eq x (x +:+ y) = true).
  { induction x as [|c x IH]; intros y; simpl; [reflexivity|].
    rewrite Hrefl, IH. reflexivity. }
  induction a as [|c a IH]; simpl.
  - specialize (Hpre p b). destruct (p +:+ b); simpl; rewrite Hpre; reflexivity.
  - rewrite IH. apply orb_true_r.
Qed.

Lemma length_append (a b : string) :
  String.length (a +:+ b) = (String.length a + String.length b)%nat.
Proof. induction a as [|c a IH]; simpl; [reflexivity|]. rewrite IH. reflexivity. Qed.

Lemma length_take (n : nat) (s : string) :
  (String.length (JsString.take n s) <= n)%nat.
Proof.
  revert s. induction n as [|n IH]; intros [|c s]; simpl; try lia.
  specialize (IH s). lia.
Qed.

(** ** The typing signaler *)

Section TypingFacts.
Import Typing.

Lemma thinking_signaler (hb : bool) :
  createTypingSignaler thinking hb = mkSignaler thinking false false true hb.
Proof. unfold createTypingSignaler. simpl. rewrite orb_false_r. reflexivity. Qed.

Lemma disabled_signaler_silent (m : TypingMode) (e : Signal) :
  signal (createTypingSignaler m true) e = [].
Proof. destruct e, m; reflexivity. Qed.

Lemma never_signaler_silent (hb : bool) (e : Signal) :
  signal (createTypingSignaler never hb) e = [].
Proof. destruct e, hb; reflexivity. Qed.

(** C9, as the signaler has it.  In [thinking] mode, outside a heartbeat
    run: every reasoning delta calls [startTypingLoop] and then refreshes
    the TTL; text deltas only refresh the TTL, once each, and make no start
    call; the start of the run makes no call; a tool start calls
    [startTypingLoop] and does not refresh the TTL. *)
Theorem thinking_mode_signals :
  let s := createTypingSignaler thinking false in
  signal s SigReasoningDelta = [StartTypingLoop; RefreshTypingTtl]
  /\ (forall texts,
        signals s (map SigTextDelta texts)
          = List.repeat RefreshTypingTtl (length texts))
  /\ signal s SigRunStart = []
  /\ signal s SigToolStart = [StartTypingLoop].
Proof.
  cbn zeta. repeat split; try reflexivity.
  intros texts. induction texts as [|t texts IH]; [reflexivity|].
  unfold signals in *. simpl. rewrite IH. reflexivity.
Qed.

(** C9 as stated fails: after the first reasoning delta, a tool start
    makes a start call again, and refreshes nothing. *)
Lemma thinking_tool_start_restarts :
  let s := createTypingSignaler thinking false in
  signals s [SigReasoningDelta; SigToolStart]
    = [StartTypingLoop; RefreshTypingTtl; StartTypingLoop]
  /\ existsb isStartCall (signal s SigToolStart) = true
  /\ ~ In RefreshTypingTtl (signal s SigToolStart).
Proof.
  cbn zeta. split; [reflexivity|]. split; [reflexivity|].
  simpl. intros [H|[]]. discriminate H.
Qed.

End TypingFacts.

(** ** Admission: steering into a live run *)

Section SteerFacts.
Context `{C : Collaborators}.
Variable P : Params.
Variable env : Env.

Lemma withUpdatedAt_only (t : Z) (e : SessionEntry) :
  updatedAt (withUpdatedAt t e) = t
  /\ sessionId (withUpdatedAt t e) = sessionId e
  /\ modelProvider (withUpdatedAt t e) = modelProvider e
  /\ model (withUpdatedAt t e) = model e
  /\ inputTokens (withUpdatedAt t e) = inputTokens e
  /\ outputTokens (withUpdatedAt t e) = outputTokens e
  /\ totalTokens (withUpdatedAt t e) = totalTokens e
  /\ contextTokens (withUpdatedAt t e) = contextTokens e
  /\ verboseLevel (withUpdatedAt t e) = verboseLevel e
  /\ compactionCount (withUpdatedAt t e) = compactionCount e
  /\ groupActivationNeedsSystemIntro (withUpdatedAt t e)
     = groupActivationNeedsSystemIntro e.
Proof. repeat split. Qed.

(** What [touchSession] leaves alone, and what it writes. *)
Lemma touchSession_frame (f : Z -> SessionEntry -> SessionEntry) (w : World) :
  let w' := (touchSession P env f w).1 in
  backlog w' = backlog w /\ turns w' = turns w /\ outbox w' = outbox w
  /\ drains w' = drains w /\ files w' = files w /\ injected w' = injected w
  /\ typingLog w' = typingLog w /\ settledBlocks w' = settledBlocks w
  /\ logs w' = logs w.
Proof.
  unfold touchSession.
  destruct (sessionEntry w), (sessionStore w), (truthyStr (sessionKey P));
    simpl; try (repeat split; reflexivity).
  destruct (truthyStr (storePath P)); simpl; repeat split; reflexivity.
Qed.

Lemma touchSession_session (f : Z -> SessionEntry -> SessionEntry) (w : World) :
  let w' := (touchSession P env f w).1 in
  match sessionEntry w, sessionStore w, truthyStr (sessionKey P) with
  | Some e, Some s, Some k =>
      let e' := f (clock env (nowCalls w)) e in
      sessionEntry w' = Some e' /\ sessionStore w' = Some (<[k := e']> s)
  | _, _, _ =>
      sessionEntry w' = sessionEntry w /\ sessionStore w' = sessionStore w
  end.
Proof.
  unfold touchSession.
  destruct (sessionEntry w) eqn:He, (sessionStore w) eqn:Hs,
    (truthyStr (sessionKey P)); simpl; rewrite ?He, ?Hs;
    try (split; reflexivity).
  destruct (truthyStr (storePath P)); simpl; split; reflexivity.
Qed.

Lemma touchSession_persisted (f : Z -> SessionEntry -> SessionEntry)
  (w : World) :
  persisted (touchSession P env f w).1
  = match sessionEntry w, sessionStore w, truthyStr (sessionKey P),
          truthyStr (storePath P) with
    | Some e, Some s, Some k, Some path =>
        if saveOk env (saveCalls w)
        then (path, <[k := f (clock env (nowCalls w)) e]> s) :: persisted w
        else persisted w
    | _, _, _, _ => persisted w
    end.
Proof.
  unfold touchSession.
  destruct (sessionEntry w), (sessionStore w), (truthyStr (sessionKey P));
    simpl; try reflexivity;
    destruct (truthyStr (storePath P)); simpl; try reflexivity;
    destruct (saveOk env (saveCalls w)); reflexivity.
Qed.

(** C3, as the code has it.  When a steer request is injected into the
    streaming run and no followup is asked for, nothing is put on the
    backlog, no agent turn starts, nothing is delivered and no drain is
    scheduled; the call returns [undefined] (or the failure of the store
    save leaves it).  The session is touched: when entry, store and key are
    all given, the entry's [updatedAt] is set to the clock reading and the
    entry is written back under the key, every other field as it was, and
    the store is saved when a store path is given. *)
Theorem steer_injection_effects (w : World) :
  shouldSteer P = true -> isStreaming P = true ->
  steerOk env = true -> shouldFollowup P = false ->
  let r := runReplyAgent P env w in
  backlog r.1 = backlog w /\ turns r.1 = turns w
  /\ outbox r.1 = outbox w /\ drains r.1 = drains w
  /\ injected r.1
     = (runSessionId (followupRun P), prompt (followupRun P)) :: injected w
  /\ (r.2 = Returned RUndefined \/ r.2 = Raised "saveSessionStore")
  /\ match sessionEntry w, sessionStore w, truthyStr (sessionKey P) with
     | Some e, Some s, Some k =>
         let e' := withUpdatedAt (clock env (nowCalls w)) e in
         sessionEntry r.1 = Some e' /\ sessionStore r.1 = Some (<[k := e']> s)
     | _, _, _ =>
         sessionEntry r.1 = sessionEntry w /\ sessionStore r.1 = sessionStore w
     end
  /\ persisted r.1
     = match sessionEntry w, sessionStore w, truthyStr (sessionKey P),
             truthyStr (storePath P) with
       | Some e, Some s, Some k, Some path =>
           if saveOk env (saveCalls w)
           then (path, <[k := withUpdatedAt (clock env (nowCalls w)) e]> s)
                :: persisted w
           else persisted w
       | _, _, _, _ => persisted w
       end.
Proof.
  intros Hs Hst Hok Hf. unfold runReplyAgent. rewrite Hs, Hst, Hok, Hf. simpl.
  set (w0 := pushInjected _ _ w).
  pose proof (touchSession_frame withUpdatedAt w0) as Hfr.
  pose proof (touchSession_session withUpdatedAt w0) as Hse.
  pose proof (touchSession_persisted withUpdatedAt w0) as Hpe.
  cbn zeta in Hfr, Hse.
  destruct (touchSession P env withUpdatedAt w0) as [w1 [|]] eqn:Ht; simpl in *;
    destruct Hfr as (Hb & Htu & Ho & Hd & _ & Hi & _);
    (repeat split; try assumption; try (left; reflexivity);
     try (right; reflexivity)); try exact Hse; exact Hpe.
Qed.

End SteerFacts.

Lemma steer_injection_effects_witness :
  (shouldSteer SteerRun.params = true /\ isStreaming SteerRun.params = true
   /\ steerOk SteerRun.env = true /\ shouldFollowup SteerRun.params = false)
  /\ backlog SteerRun.after.1 = backlog Sample.world0
  /\ turns SteerRun.after.1 = turns Sample.world0.
Proof.
  split; [repeat split; reflexivity|].
  pose proof (steer_injection_effects (C := Sample.collaborators)
                SteerRun.params SteerRun.env Sample.world0
                eq_refl eq_refl eq_refl eq_refl) as H.
  cbn zeta in H. destruct H as (Hb & Ht & _). split; [exact Hb | exact Ht].
Defined.

(** C3 as stated fails: the injected request leaves the stored entry of
    the conversation with a new [updatedAt] (5 before, the clock reading
    1000 after) and the store is saved again, so the Session record is not
    left untouched. *)
Lemma steer_injection_touches_session :
  shouldSteer SteerRun.params = true /\ isStreaming SteerRun.params = true
  /\ steerOk SteerRun.env = true /\ shouldFollowup SteerRun.params = false
  /\ SteerRun.after.2 = Returned RUndefined
  /\ updatedAt <$> (sessionStore Sample.world0 ≫= (.!! "main")) = Some 5
  /\ updatedAt <$> (sessionStore SteerRun.after.1 ≫= (.!! "main")) = Some 1000
  /\ (persisted Sample.world0 = []
      /\ fst <$> persisted SteerRun.after.1 = ["store.json"])
  /\ sessionStore SteerRun.after.1 <> sessionStore Sample.world0.
Proof.
  repeat split; try reflexivity.
  intros Heq.
  apply (f_equal (fun s => updatedAt <$> (s ≫= (.!! "main")))) in Heq.
  vm_compute in Heq. discriminate Heq.
Qed.

(** ** Streaming callbacks: what each may change *)

Lemma keysOf_cons (p : ReplyPayload) (l : list ReplyPayload) :
  keysOf (p :: l) = buildPayloadKey p :: keysOf l.
Proof. reflexivity. Qed.

#[local] Arguments keysOf : simpl never.

Section CallbackFacts.
Context `{C : Collaborators}.
Variable P : Params.

Lemma noteStrip_views (r : StripResult) (st : RunState) :
  dedupView (noteStrip r st) = dedupView st
  /\ signalView (noteStrip r st) = signalView st
  /\ sessionView (noteStrip r st).2 = sessionView st.2
  /\ replyToHistory (noteStrip r st).1 = replyToHistory st.1
  /\ autoCompactionCompleted (noteStrip r st).1 = autoCompactionCompleted st.1.
Proof.
  unfold noteStrip.
  destruct (didStrip r && negb (didLogHeartbeatStrip st.1)); repeat split.
Qed.

Lemma stripStreamed_views (p : StreamPayload) (st : RunState) :
  let st1 := (stripStreamed P p st).1 in
  dedupView st1 = dedupView st
  /\ signalView st1 = signalView st
  /\ sessionView st1.2 = sessionView st.2
  /\ replyToHistory st1.1 = replyToHistory st.1
  /\ autoCompactionCompleted st1.1 = autoCompactionCompleted st.1.
Proof.
  unfold stripStreamed.
  destruct (negb (isHeartbeat P) && mentionsHeartbeat (spText p));
    [|repeat split].
  destruct (shouldSkip _ && negb (hasItems (spMediaUrls p))); simpl;
    apply noteStrip_views.
Qed.

Lemma stripStreamed_result (p : StreamPayload) (st : RunState) :
  (stripStreamed P p st).2 = None
  \/ (stripStreamed P p st).2 = Some (guardedText P p).
Proof.
  unfold stripStreamed, guardedText.
  destruct (negb (isHeartbeat P) && mentionsHeartbeat (spText p));
    [|right; reflexivity].
  destruct (shouldSkip _ && negb (hasItems (spMediaUrls p))); simpl;
    [left|right]; reflexivity.
Qed.


(** A silent block is dropped before any dedup bookkeeping. *)
Lemma streamBlock_silent (t : option string) (p : StreamPayload)
  (st : RunState) :
  JsString.trim (cleaned (extractAudioTag (text (tagBlock P t p))))
    = SILENT_REPLY_TOKEN ->
  hasMedia (tagBlock P t p) = false ->
  streamBlock P t p st = st.
Proof.
  intros Hsil Hmed. unfold streamBlock. rewrite Hmed. simpl.
  destruct (negb (isRenderablePayload _)); [reflexivity|].
  rewrite !andb_true_r.
  unfold cleanedOf, truthyStr.
  destruct (JsString.truthy (cleaned _)) eqn:Htr; simpl; [|reflexivity].
  rewrite bool_decide_eq_true_2 by exact Hsil. reflexivity.
Qed.

End CallbackFacts.

(** ** The dedup invariant of one turn *)

Lemma fst_filter_key (k : PayloadKey) (l : list (PayloadKey * ReplyPayload)) :
  (filter (fun t => t.1 ≠ k) l).*1 = filter (fun k' => k' ≠ k) (l.*1).
Proof.
  induction l as [|[k' p] l IH]; [reflexivity|].
  rewrite fmap_cons. simpl. rewrite !filter_cons. simpl.
  destruct (decide (k' ≠ k)); [rewrite fmap_cons; simpl; f_equal|]; exact IH.
Qed.

Section DedupFacts.
Context `{C : Collaborators}.
Variable P : Params.
Variable base : list ReplyPayload.

Lemma DedupInv_view (st st' : RunState) :
  dedupView st' = dedupView st -> DedupInv P base st -> DedupInv P base st'.
Proof. unfold DedupInv. intros ->. trivial. Qed.

Lemma DedupInv_init (w : World) :
  settledBlocks w = base -> DedupInv P base (initLocals, w).
Proof.
  intros Hw. unfold DedupInv, dedupView, DedupInvOn. simpl. exists [].
  rewrite Hw.
  repeat split; try constructor; try (intros; set_solver).
Qed.

Lemma find_keyIs (k : PayloadKey) (l : list (PayloadKey * ReplyPayload))
  (k' : PayloadKey) (p : ReplyPayload) :
  find (keyIs k) l = Some (k', p) -> k' = k /\ (k, p) ∈ l.
Proof.
  intros Hf. apply find_some in Hf as [Hin Hk].
  unfold keyIs in Hk. apply bool_decide_eq_true in Hk. simpl in Hk. subst k'.
  split; [reflexivity|]. apply list_elem_of_In. exact Hin.
Qed.

Lemma settle_inv (k : PayloadKey) (ok : bool) (st : RunState) :
  DedupInv P base st -> DedupInv P base (settle k ok st).
Proof.
  intros Hinv. unfold settle.
  destruct (find (keyIs k) (pendingBlockTasks st.1)) as [[k' payload]|] eqn:Hf;
    [|exact Hinv].
  apply find_keyIs in Hf as [-> Hin].
  unfold DedupInv, dedupView, DedupInvOn in *.
  destruct st as [L w]. simpl in *.
  destruct Hinv as (new & Hnew & Hnd & Hset & Htask & Hpend & Hndt & Hdid & Hen).
  destruct (Htask _ _ Hin) as (Hkey & Hns & Hp).
  assert (Hnk : k ∉ keysOf new) by (rewrite Hset; exact Hns).
  assert (Htask' : forall k0 p0,
             (k0, p0) ∈ filter (fun t => t.1 ≠ k) (pendingBlockTasks L) ->
             (k0, p0) ∈ pendingBlockTasks L /\ k0 ≠ k).
  { intros k0 p0 H0. apply list_elem_of_filter in H0 as [H1 H2].
    split; assumption. }
  assert (Hpend' : forall k0,
             k0 ∈ pendingStreamedPayloadKeys L ∖ {[k]} ->
             k0 ∈ (filter (fun t => t.1 ≠ k) (pendingBlockTasks L)).*1).
  { intros k0 H0. apply elem_of_difference in H0 as [H1 H2].
    rewrite fst_filter_key. apply list_elem_of_filter.
    split; [set_solver|]. apply Hpend. exact H1. }
  assert (Hndt' : NoDup (filter (fun t => t.1 ≠ k) (pendingBlockTasks L)).*1).
  { rewrite fst_filter_key. apply NoDup_filter. exact Hndt. }
  assert (Hen' : blockStreamingEnabled P = true).
  { apply Hen. left. intros Hnil. rewrite Hnil in Hin. inversion Hin. }
  destruct ok; simpl.
  - exists (payload :: new). rewrite Hnew, keysOf_cons, Hkey.
    split; [reflexivity|]. split; [constructor; assumption|].
    split; [|split; [|split; [exact Hpend'|split; [exact Hndt'|split]]]].
    + intros k0. rewrite elem_of_cons, elem_of_union, elem_of_singleton, Hset.
      reflexivity.
    + intros k0 p0 H0. apply Htask' in H0 as [H1 H2].
      destruct (Htask _ _ H1) as (H3 & H4 & H5).
      split; [exact H3|]. split; set_solver.
    + split; [intros _; set_solver | reflexivity].
    + intros _. exact Hen'.
  - exists new.
    split; [exact Hnew|]. split; [exact Hnd|]. split; [exact Hset|].
    split; [|split; [exact Hpend'|split; [exact Hndt'|split]]].
    + intros k0 p0 H0. apply Htask' in H0 as [H1 H2].
      destruct (Htask _ _ H1) as (H3 & H4 & H5).
      split; [exact H3|]. split; [exact H4|]. set_solver.
    + exact Hdid.
    + intros _. exact Hen'.
Qed.

Lemma streamBlock_inv (t : option string) (p : StreamPayload) (st : RunState) :
  blockStreamingEnabled P = true ->
  DedupInv P base st -> DedupInv P base (streamBlock P t p st).
Proof.
  intros Hen Hinv. unfold streamBlock.
  destruct (negb (isRenderablePayload _)); [exact Hinv|].
  destruct (negb (isSomeB _) && negb (hasMedia _)); [exact Hinv|].
  destruct (isSilent _ && negb (hasMedia _)); [exact Hinv|].
  cbn zeta.
  set (bp := blockPayloadOf P t p st.1).
  set (k := buildPayloadKey bp).
  destruct (bool_decide (k ∈ streamedPayloadKeys _)) eqn:Hs; simpl;
    [exact Hinv|].
  destruct (bool_decide (k ∈ pendingStreamedPayloadKeys _)) eqn:Hp; simpl;
    [exact Hinv|].
  apply bool_decide_eq_false in Hs, Hp. simpl in Hs, Hp.
  unfold DedupInv, dedupView, DedupInvOn in *.
  destruct st as [L w]. simpl in *.
  destruct Hinv as (new & Hnew & Hnd & Hset & Htask & Hpend & Hndt & Hdid & _).
  assert (Hfresh : k ∉ (pendingBlockTasks L).*1).
  { intros Hin. apply list_elem_of_fmap in Hin as [[k' p'] [Hk Hin]].
    simpl in Hk. subst k'. destruct (Htask _ _ Hin) as (_ & _ & H3).
    contradiction. }
  exists new.
  split; [exact Hnew|]. split; [exact Hnd|]. split; [exact Hset|].
  split; [|split; [|split; [|split; [exact Hdid|intros _; exact Hen]]]].
  - intros k0 p0 H0. apply elem_of_app in H0 as [H0|H0].
    + destruct (Htask _ _ H0) as (H3 & H4 & H5).
      split; [exact H3|]. split; [exact H4|]. set_solver.
    + apply list_elem_of_singleton in H0. injection H0 as -> ->.
      split; [reflexivity|]. split; [exact Hs|]. set_solver.
  - intros k0 H0. rewrite fmap_app. apply elem_of_app.
    apply elem_of_union in H0 as [H0|H0]; [right|left; apply Hpend; exact H0].
    apply elem_of_singleton in H0 as ->. simpl. apply list_elem_of_here.
  - rewrite fmap_app. apply NoDup_app. split; [exact Hndt|]. split.
    + intros k0 H0 H1. simpl in H1. apply list_elem_of_singleton in H1.
      subst k0. contradiction.
    + simpl. apply NoDup_singleton.
Qed.

Lemma onEvent_inv (e : AgentEvent) (st : RunState) :
  DedupInv P base st -> DedupInv P base (onEvent P st e).
Proof.
  intros Hinv. destruct e as [p|p|ph|ph wr|p|p|k ok]; simpl.
  - destruct (optFlag onPartialReply P && allowPartialStream P); [|exact Hinv].
    unfold onPartialReplyCb.
    pose proof (stripStreamed_views P p st) as (Hv & _).
    destruct (stripStreamed P p st) as [st1 [t|]]; simpl in *;
      eapply DedupInv_view; try exact Hinv; rewrite <- Hv; reflexivity.
  - destruct (_ || _); [|exact Hinv]. unfold onReasoningStreamCb.
    eapply DedupInv_view; [|exact Hinv].
    destruct (optFlag onReasoningStream P); reflexivity.
  - unfold onToolEvent. destruct (bool_decide _); [|exact Hinv].
    eapply DedupInv_view; [|exact Hinv]. reflexivity.
  - unfold onCompactionEvent. destruct (_ && _); [|exact Hinv].
    eapply DedupInv_view; [|exact Hinv]. reflexivity.
  - destruct (blockStreamingEnabled P) eqn:Hen; simpl; [|exact Hinv].
    destruct (optFlag onBlockReply P); [|exact Hinv].
    unfold onBlockReplyCb.
    pose proof (stripStreamed_views P p st) as (Hv & _).
    destruct (stripStreamed P p st) as [st1 [t|]]; simpl in *.
    + apply streamBlock_inv; [exact Hen|].
      eapply DedupInv_view; [|exact Hinv]. exact Hv.
    + eapply DedupInv_view; [|exact Hinv]. exact Hv.
  - destruct (optFlag onToolResult P); [|exact Hinv].
    unfold onToolResultCb.
    pose proof (stripStreamed_views P p st) as (Hv & _).
    destruct (stripStreamed P p st) as [st1 [t|]]; simpl in *;
      eapply DedupInv_view; try exact Hinv; rewrite <- Hv; reflexivity.
  - apply settle_inv. exact Hinv.
Qed.

Lemma runEvents_inv (es : list AgentEvent) (st : RunState) :
  DedupInv P base st -> DedupInv P base (runEvents P es st).
Proof.
  revert st. induction es as [|e es IH]; intros st Hinv; [exact Hinv|].
  simpl. apply IH. apply onEvent_inv. exact Hinv.
Qed.

Lemma settleAll_inv (fate : PayloadKey -> bool)
  (l : list (PayloadKey * ReplyPayload)) (st : RunState) :
  DedupInv P base st ->
  DedupInv P base (fold_left (fun s t => settle t.1 (fate t.1) s) l st).
Proof.
  revert st. induction l as [|t l IH]; intros st Hinv; [exact Hinv|].
  simpl. apply IH. apply settle_inv. exact Hinv.
Qed.

Lemma drainBlocks_inv (fate : PayloadKey -> bool) (st : RunState) :
  DedupInv P base st -> DedupInv P base (drainBlocks fate st).
Proof. apply settleAll_inv. Qed.

(** What the invariant says about the streamed flag and the final
    payloads. *)
Lemma DedupInv_streamed (st : RunState) :
  DedupInv P base st ->
  (didStreamBlockReply st.1 = false -> streamedPayloadKeys st.1 = ∅)
  /\ (settledBlocks st.2 ≠ base ->
        blockStreamingEnabled P && didStreamBlockReply st.1 = true)
  /\ exists new, settledBlocks st.2 = (new ++ base)%list
                 /\ NoDup (keysOf new)
                 /\ (forall k, k ∈ keysOf new <-> k ∈ streamedPayloadKeys st.1).
Proof.
  unfold DedupInv, dedupView, DedupInvOn.
  intros (new & Hnew & Hnd & Hset & _ & _ & _ & Hdid & Hen).
  split; [|split].
  - intros Hf. destruct (decide (streamedPayloadKeys st.1 = ∅)) as [He|Hne];
      [exact He|]. apply Hdid in Hne. congruence.
  - intros Hne.
    assert (Hs : streamedPayloadKeys st.1 ≠ ∅).
    { destruct new as [|p new]; [rewrite Hnew in Hne; contradiction|].
      intros He. specialize (Hset (buildPayloadKey p)).
      rewrite He, keysOf_cons in Hset.
      destruct Hset as [Hset _]. specialize (Hset (list_elem_of_here _ _)).
      set_solver. }
    rewrite (Hen (or_intror Hs)). simpl. apply Hdid. exact Hs.
  - exists new. repeat split; try assumption; apply Hset.
Qed.

End DedupFacts.

(** ** The turn: what the streaming phase leaves alone *)

Section TurnFacts.
Context `{C : Collaborators}.
Variable P : Params.

Lemma settle_session (k : PayloadKey) (ok : bool) (st : RunState) :
  sessionView (settle k ok st).2 = sessionView st.2.
Proof.
  unfold settle. destruct (find _ _) as [[k' p]|]; [|reflexivity].
  destruct ok; reflexivity.
Qed.

Lemma streamBlock_session (t : option string) (p : StreamPayload)
  (st : RunState) :
  sessionView (streamBlock P t p st).2 = sessionView st.2.
Proof.
  unfold streamBlock.
  repeat (match goal with
          | |- context [if ?b then _ else _] => destruct b
          end; try reflexivity).
Qed.

Lemma onEvent_session (e : AgentEvent) (st : RunState) :
  sessionView (onEvent P st e).2 = sessionView st.2.
Proof.
  destruct e as [p|p|ph|ph wr|p|p|k ok]; simpl.
  - destruct (_ && _); [|reflexivity]. unfold onPartialReplyCb.
    pose proof (stripStreamed_views P p st) as (_ & _ & Hv & _).
    destruct (stripStreamed P p st) as [st1 [t|]]; simpl in *; exact Hv.
  - destruct (_ || _); [|reflexivity]. unfold onReasoningStreamCb.
    destruct (optFlag onReasoningStream P); reflexivity.
  - unfold onToolEvent. destruct (bool_decide _); reflexivity.
  - unfold onCompactionEvent. destruct (_ && _); reflexivity.
  - destruct (_ && _); [|reflexivity]. unfold onBlockReplyCb.
    pose proof (stripStreamed_views P p st) as (_ & _ & Hv & _).
    destruct (stripStreamed P p st) as [st1 [t|]]; simpl in *; [|exact Hv].
    rewrite streamBlock_session. exact Hv.
  - destruct (optFlag onToolResult P); [|reflexivity]. unfold onToolResultCb.
    pose proof (stripStreamed_views P p st) as (_ & _ & Hv & _).
    destruct (stripStreamed P p st) as [st1 [t|]]; simpl in *; exact Hv.
  - apply settle_session.
Qed.

Lemma runEvents_session (es : list AgentEvent) (st : RunState) :
  sessionView (runEvents P es st).2 = sessionView st.2.
Proof.
  revert st. induction es as [|e es IH]; intros st; [reflexivity|].
  change (runEvents P (e :: es) st) with (runEvents P es (onEvent P st e)).
  rewrite IH. apply onEvent_session.
Qed.

Lemma settleAll_session (fate : PayloadKey -> bool)
  (l : list (PayloadKey * ReplyPayload)) (st : RunState) :
  sessionView (fold_left (fun s t => settle t.1 (fate t.1) s) l st).2
  = sessionView st.2.
Proof.
  revert st. induction l as [|t l IH]; intros st; [reflexivity|].
  simpl. rewrite IH. apply settle_session.
Qed.

Lemma drainBlocks_session (fate : PayloadKey -> bool) (st : RunState) :
  sessionView (drainBlocks fate st).2 = sessionView st.2.
Proof. apply settleAll_session. Qed.

End TurnFacts.

(** ** Failure of the turn *)

Section FailureFacts.
Context `{C : Collaborators}.
Variable P : Params.
Variable env : Env.

Lemma handleFailure_reset (m k path : string) (s : Store) (w : World) :
  isSessionCorruption m = true ->
  truthyStr (sessionKey P) = Some k ->
  sessionStore w = Some s ->
  truthyStr (storePath P) = Some path ->
  let r := handleFailure P env m w in
  r.2 = Returned (ROne (textPayload SESSION_RESET_APOLOGY))
  /\ sessionStore r.1 = Some (delete k s)
  /\ files r.1
     = match truthyStr (sessionId <$> sessionEntry w) with
       | Some sid => files w ∖ {[resolveSessionTranscriptPath sid]}
       | None => files w
       end
  /\ persisted r.1
     = ((if saveOk env (saveCalls w) then [(path, delete k s)] else [])
        ++ persisted w)%list
  /\ drains r.1 = queueKey P :: drains w
  /\ typingLog r.1 = typingLog w /\ outbox r.1 = outbox w.
Proof.
  intros Hc Hk Hs Hp. unfold handleFailure. rewrite Hc, Hk, Hs, Hp. simpl.
  destruct (truthyStr (sessionId <$> sessionEntry w)); simpl;
    destruct (saveOk env (saveCalls w)); simpl; repeat split; reflexivity.
Qed.

(** Any other failure: a notice that carries the whole message. *)
Lemma handleFailure_notice (m : string) (w : World) :
  isSessionCorruption m = false ->
  let r := handleFailure P env m w in
  r.2 = Returned (ROne (textPayload
          (if isContextOverflow m then CONTEXT_OVERFLOW_NOTICE
           else agentFailedNotice m)))
  /\ sessionView r.1 = sessionView (scheduleFollowupDrain (queueKey P) w).
Proof.
  intros Hc. unfold handleFailure. rewrite Hc. split; reflexivity.
Qed.

Lemma agentFailedNotice_carries (m : string) :
  JsString.includes m (agentFailedNotice m) = true
  /\ (String.length m < String.length (agentFailedNotice m))%nat.
Proof.
  split.
  - unfold agentFailedNotice, JsString.includes. apply includesBy_app.
    intros c. apply Ascii.eqb_refl.
  - unfold agentFailedNotice. rewrite !length_append. simpl. lia.
Qed.

End FailureFacts.

Section ResetFacts.
Context `{C : Collaborators}.
Variable P : Params.
Variable env : Env.

(** C6.  A turn that fails with the malformed-history signature, with a
    session key, a store and a store path at hand, returns the single
    apology payload; the entry of the key is removed from the store; the
    transcript file of the session, when the entry names one, is gone; the
    store without the entry is what gets saved; and the follow-up drain is
    scheduled.  No exception leaves the call, also when the save fails. *)
Theorem corrupted_session_reset (w : World) (m k path : string) (s : Store) :
  outcome env = RunFailed m ->
  isSessionCorruption m = true ->
  truthyStr (sessionKey P) = Some k ->
  sessionStore w = Some s ->
  truthyStr (storePath P) = Some path ->
  let r := runTurn P env w in
  r.2 = Returned (ROne (textPayload SESSION_RESET_APOLOGY))
  /\ sessionStore r.1 = Some (delete k s)
  /\ (forall s', sessionStore r.1 = Some s' -> s' !! k = None)
  /\ (forall sid, truthyStr (sessionId <$> sessionEntry w) = Some sid ->
        resolveSessionTranscriptPath sid ∉ files r.1)
  /\ files r.1 ⊆ files w
  /\ (saveOk env (saveCalls w) = true ->
        persisted r.1 = (path, delete k s) :: persisted w)
  /\ drains r.1 = queueKey P :: drains w.
Proof.
  intros Ho Hc Hk Hs Hp. unfold runTurn. rewrite Ho.
  set (st := runEvents P (script env) (initLocals, startTurn w)).
  pose proof (runEvents_session P (script env) (initLocals, startTurn w)) as Hv.
  fold st in Hv. unfold sessionView in Hv. simpl in Hv.
  injection Hv; intros Hsa Hno Htu Hdr Hba Hfi Hpe Hst Hse.
  assert (Hs' : sessionStore st.2 = Some s) by (rewrite Hst; exact Hs).
  pose proof (handleFailure_reset P env m k path s st.2 Hc Hk Hs' Hp) as H.
  cbn zeta in H.
  destruct (handleFailure P env m st.2) as [w1 c]. simpl in *.
  destruct H as (Hr & Hstore & Hfiles & Hpers & Hdrains & _).
  repeat split.
  - exact Hr.
  - exact Hstore.
  - intros s' Heq. rewrite Hstore in Heq. injection Heq as <-.
    apply lookup_delete_eq.
  - intros sid Hsid. rewrite Hfiles, Hse, Hsid, elem_of_difference.
    intros [_ Hn]. apply Hn, elem_of_singleton. reflexivity.
  - rewrite Hfiles, Hfi.
    destruct (truthyStr (sessionId <$> sessionEntry st.2));
      [apply subseteq_difference_l|]; reflexivity.
  - intros Hok. rewrite Hpers, Hsa, Hok, Hpe. reflexivity.
  - rewrite Hdrains, Hdr. reflexivity.
Qed.

End ResetFacts.

Lemma corrupted_session_reset_witness :
  (outcome ResetRun.env = RunFailed ResetRun.message
   /\ isSessionCorruption ResetRun.message = true
   /\ truthyStr (sessionKey Sample.params0) = Some "main"
   /\ sessionStore Sample.world0 = Some {["main" := Sample.entry0]}
   /\ truthyStr (storePath Sample.params0) = Some "store.json")
  /\ ResetRun.after.2 = Returned (ROne (textPayload SESSION_RESET_APOLOGY))
  /\ "sessions/sid-1.jsonl" ∉ files ResetRun.after.1.
Proof.
  split; [repeat split; reflexivity|].
  pose proof (corrupted_session_reset (C := Sample.collaborators)
                Sample.params0 ResetRun.env Sample.world0 ResetRun.message
                "main" "store.json" {["main" := Sample.entry0]}
                eq_refl eq_refl eq_refl eq_refl eq_refl) as H.
  cbn zeta in H. destruct H as (Hr & _ & _ & Hf & _).
  split; [exact Hr|]. apply (Hf "sid-1"). reflexivity.
Defined.

(** ** Silent blocks and the heartbeat token *)

Section StreamFacts.
Context `{C : Collaborators}.
Variable P : Params.

(** C10.  A streamed block whose text, after the heartbeat guard, reply
    tagging and audio-tag extraction, is the silent-reply token (compared
    after trimming, as the code does) and which carries no media is dropped
    before any dedup bookkeeping: the block-reply callback is not called,
    the typing controller is not signalled, and neither the streamed keys,
    the keys in flight, the tasks in flight, the streamed flag nor the
    settled deliveries change. *)
Theorem silent_block_suppressed (p : StreamPayload) (st : RunState) :
  let tagged := tagBlock P (guardedText P p) p in
  JsString.trim (cleaned (extractAudioTag (text tagged))) = SILENT_REPLY_TOKEN ->
  hasMedia tagged = false ->
  let st' := onEvent P st (EvBlock p) in
  outbox st'.2 = outbox st.2
  /\ typingLog st'.2 = typingLog st.2
  /\ dedupView st' = dedupView st.
Proof.
  intros tagged Hsil Hmed st'. subst st'. simpl.
  assert (Hq : forall s0 : RunState,
             signalView s0 = signalView st -> dedupView s0 = dedupView st ->
             outbox s0.2 = outbox st.2 /\ typingLog s0.2 = typingLog st.2
             /\ dedupView s0 = dedupView st).
  { intros s0 Hsv Hdv. unfold signalView in Hsv. injection Hsv as Ho Ht.
    repeat split; assumption. }
  destruct (blockStreamingEnabled P && optFlag onBlockReply P);
    [|apply Hq; reflexivity].
  unfold onBlockReplyCb.
  pose proof (stripStreamed_views P p st) as (Hd & Hs & _).
  pose proof (stripStreamed_result P p st) as Hres.
  destruct (stripStreamed P p st) as [st1 [t|]]; simpl in *.
  - destruct Hres as [Hres|Hres]; [discriminate Hres|].
    injection Hres as ->. fold tagged.
    rewrite (streamBlock_silent P _ p st1 Hsil Hmed). apply Hq; assumption.
  - apply Hq; assumption.
Qed.

(** The heartbeat guard, path by path.  Outside a heartbeat run, a partial
    reply, a tool result, a streamed block or a final payload whose text
    contains the heartbeat token goes through [stripHeartbeatToken]: when
    the stripper says to skip and the payload has no media, nothing is
    handed on (no callback, no typing signal, no payload); otherwise what
    is handed on carries the stripped text in place of the original.  The
    reasoning callback does not consult the stripper: it hands the text on
    as it came. *)
Lemma heartbeat_guard_paths (p : StreamPayload) (s : string)
  (st : RunState) :
  isHeartbeat P = false ->
  spText p = Some s ->
  JsString.includes HEARTBEAT_OK s = true ->
  let r := stripHeartbeatToken s in
  let st1 := noteStrip r st in
  let skip := shouldSkip r && negb (hasItems (spMediaUrls p)) in
  let t := Some (strippedText r) in
  signalView st1 = signalView st /\ dedupView st1 = dedupView st
  /\ onPartialReplyCb P p st
     = (if skip then st1
        else (st1.1,
              deliver (DPartial (mkStreamPayload t (spMediaUrls p)))
                (typingCalls (Typing.signalTextDelta (typingSignals P) t)
                   st1.2)))
  /\ onToolResultCb P p st
     = (if skip then st1
        else (st1.1,
              deliver (DToolResult (mkStreamPayload t (spMediaUrls p)))
                (typingCalls (Typing.signalTextDelta (typingSignals P) t)
                   st1.2)))
  /\ onBlockReplyCb P p st = (if skip then st1 else streamBlock P t p st1)
  /\ (forall (q : ReplyPayload) (out : list ReplyPayload),
        finalText q = Some s ->
        sanitizePayload (st, out) q
        = (st1,
           if shouldSkip r && negb (hasMedia q) then out
           else (out ++ [withText t q])%list))
  /\ outbox (onReasoningStreamCb P p st).2
     = ((if optFlag onReasoningStream P
         then [DReasoning (mkStreamPayload (Some s) (spMediaUrls p))]
         else []) ++ outbox st.2)%list.
Proof.
  intros Hhb Ht Hinc r st1 skip t.
  pose proof (noteStrip_views r st) as (Hd & Hs & _).
  assert (Hstrip : stripStreamed P p st
                   = (st1, if skip then None else Some t)).
  { unfold stripStreamed, mentionsHeartbeat. rewrite Hhb, Ht, Hinc. simpl.
    fold r. fold st1. fold skip. destruct skip; reflexivity. }
  repeat split; try assumption.
  - unfold onPartialReplyCb. rewrite Hstrip. destruct skip; reflexivity.
  - unfold onToolResultCb. rewrite Hstrip. destruct skip; reflexivity.
  - unfold onBlockReplyCb. rewrite Hstrip. destruct skip; reflexivity.
  - intros q out Hq. unfold sanitizePayload. rewrite Hq.
    assert (Htr : truthyStr (Some s) = Some s).
    { destruct s; [discriminate Hinc|reflexivity]. }
    rewrite Htr, Hinc. fold r. fold st1.
    destruct (shouldSkip r && negb (hasMedia q)); reflexivity.
  - unfold onReasoningStreamCb. rewrite Ht.
    destruct (optFlag onReasoningStream P); reflexivity.
Qed.

(** A reasoning event is forwarded as it came. *)
Lemma reasoning_forwarded (p : StreamPayload) (st : RunState) :
  optFlag onReasoningStream P = true ->
  outbox (onEvent P st (EvReasoning p)).2
  = DReasoning (mkStreamPayload (spText p) (spMediaUrls p)) :: outbox st.2.
Proof.
  intros Hr. simpl. rewrite Hr, orb_true_r.
  unfold onReasoningStreamCb. rewrite Hr. reflexivity.
Qed.

End StreamFacts.

Lemma silent_block_suppressed_witness :
  (JsString.trim " NO_REPLY " = SILENT_REPLY_TOKEN (Collaborators := Sample.collaborators)
   /\ hasMedia
        (tagBlock (C := Sample.collaborators) Sample.params0
           (Some " NO_REPLY ") StreamRun.silentBlock) = false)
  /\ outbox StreamRun.afterSilentBlock.2 = []
  /\ dedupView StreamRun.afterSilentBlock = dedupView StreamRun.start.
Proof.
  split; [split; reflexivity|].
  pose proof (silent_block_suppressed (C := Sample.collaborators)
                Sample.params0 StreamRun.silentBlock StreamRun.start
                eq_refl eq_refl) as H.
  cbn zeta in H. destruct H as (Ho & _ & Hd). split; [exact Ho | exact Hd].
Defined.

(** C7 on the code.  Outside a heartbeat run, with every caller callback
    registered, the agent emits a payload without media whose text is the
    heartbeat token, or ends in it.  As a partial reply, a streamed block,
    a tool result or the final payload, the token alone is suppressed (no
    callback is called, the call returns [undefined]), and a text that
    ends in the token is delivered without it.  As a reasoning delta the
    same payloads reach the caller's reasoning callback as they came, the
    token in them: that path misses the guard the four others apply. *)
Theorem reasoning_event_keeps_token :
  isHeartbeat Sample.params0 = false
  /\ optFlag onReasoningStream Sample.params0 = true
  /\ mentionsHeartbeat (spText StreamRun.tokenOnly) = true
  /\ mentionsHeartbeat (spText StreamRun.tokenInText) = true
  /\ (outbox (StreamRun.onPath (EvPartial StreamRun.tokenOnly)).2 = []
      /\ outbox (StreamRun.onPath (EvBlock StreamRun.tokenOnly)).2 = []
      /\ outbox (StreamRun.onPath (EvToolResult StreamRun.tokenOnly)).2 = []
      /\ StreamRun.afterTokenFinal.2 = Returned RUndefined)
  /\ (outbox (StreamRun.onPath (EvPartial StreamRun.tokenInText)).2
      = [DPartial (mkStreamPayload (Some "All quiet.") None)]
      /\ outbox (StreamRun.onPath (EvToolResult StreamRun.tokenInText)).2
         = [DToolResult (mkStreamPayload (Some "All quiet.") None)])
  /\ outbox (StreamRun.onPath (EvReasoning StreamRun.tokenOnly)).2
     = [DReasoning (mkStreamPayload (Some "HEARTBEAT_OK") None)]
  /\ outbox (StreamRun.onPath (EvReasoning StreamRun.tokenInText)).2
     = [DReasoning (mkStreamPayload (Some "All quiet. HEARTBEAT_OK") None)].
Proof. repeat split; vm_compute; reflexivity. Qed.

(** ** The end of the turn: what it leaves alone *)

Section FinishFacts.
Context `{C : Collaborators}.
Variable P : Params.
Variable env : Env.

Lemma sanitizePayload_views (acc : RunState * list ReplyPayload)
  (q : ReplyPayload) :
  dedupView (sanitizePayload acc q).1 = dedupView acc.1
  /\ signalView (sanitizePayload acc q).1 = signalView acc.1
  /\ sessionView (sanitizePayload acc q).1.2 = sessionView acc.1.2
  /\ replyToHistory (sanitizePayload acc q).1.1 = replyToHistory acc.1.1
  /\ autoCompactionCompleted (sanitizePayload acc q).1.1
     = autoCompactionCompleted acc.1.1.
Proof.
  destruct acc as [st out]. unfold sanitizePayload.
  destruct (truthyStr (finalText q)) as [s|]; [|repeat split].
  destruct (JsString.includes HEARTBEAT_OK s); [|repeat split].
  destruct (shouldSkip _ && negb (hasMedia q)); simpl; apply noteStrip_views.
Qed.

Lemma sanitizeFold_views (l : list ReplyPayload)
  (acc : RunState * list ReplyPayload) :
  dedupView (fold_left sanitizePayload l acc).1 = dedupView acc.1
  /\ signalView (fold_left sanitizePayload l acc).1 = signalView acc.1
  /\ sessionView (fold_left sanitizePayload l acc).1.2 = sessionView acc.1.2
  /\ replyToHistory (fold_left sanitizePayload l acc).1.1
     = replyToHistory acc.1.1
  /\ autoCompactionCompleted (fold_left sanitizePayload l acc).1.1
     = autoCompactionCompleted acc.1.1.
Proof.
  revert acc. induction l as [|q l IH]; intros acc; [repeat split|].
  simpl. destruct (IH (sanitizePayload acc q)) as (I1 & I2 & I3 & I4 & I5).
  destruct (sanitizePayload_views acc q) as (H1 & H2 & H3 & H4 & H5).
  rewrite I1, I2, I3, I4, I5. repeat split; assumption.
Qed.

Lemma sanitizePayloads_views (l : list ReplyPayload) (st : RunState) :
  dedupView (sanitizePayloads P l st).1 = dedupView st
  /\ signalView (sanitizePayloads P l st).1 = signalView st
  /\ sessionView (sanitizePayloads P l st).1.2 = sessionView st.2
  /\ replyToHistory (sanitizePayloads P l st).1.1 = replyToHistory st.1
  /\ autoCompactionCompleted (sanitizePayloads P l st).1.1
     = autoCompactionCompleted st.1.
Proof.
  unfold sanitizePayloads. destruct (isHeartbeat P); [repeat split|].
  apply (sanitizeFold_views l (st, [])).
Qed.

Lemma updateSessionUsage_outer (r : RunResult) (fp fm : option string)
  (w : World) :
  outerView (updateSessionUsage P env r fp fm w).1 = outerView w.
Proof.
  unfold updateSessionUsage.
  destruct (sessionStore w) as [s|]; [|reflexivity].
  destruct (truthyStr (sessionKey P)) as [k|]; [|reflexivity].
  destruct (hasNonzeroUsage _).
  - destruct (match sessionEntry w with Some e => Some e | None => s !! k end)
      as [e|]; [|reflexivity].
    destruct (agentMeta r ≫= amUsage) as [u|]; [|reflexivity].
    unfold writeEntry, dateNow, saveSessionStore. simpl.
    destruct (truthyStr (storePath P)); simpl; [destruct (saveOk env _)|];
      reflexivity.
  - destruct (_ || _); [|reflexivity].
    destruct (match sessionEntry w with Some e => Some e | None => s !! k end)
      as [e|]; [|reflexivity].
    unfold writeEntry, saveSessionStore. simpl.
    destruct (truthyStr (storePath P)); simpl; [destruct (saveOk env _)|];
      reflexivity.
Qed.

Lemma decorate_outer (L : Locals) (l : list ReplyPayload) (w : World) :
  outerView (decorate P env L l w).1.1 = outerView w.
Proof.
  unfold decorate.
  destruct (autoCompactionCompleted L); [|reflexivity].
  simpl.
  destruct (incrementCompactionCount _ _ _ _ _) as [[[e' s'] saves] count].
  destruct saves, s' as [s'|], (truthyStr (storePath P)); reflexivity.
Qed.

Lemma conclude_settled (r : RunResult) (fp fm : option string) (L : Locals)
  (filtered : list ReplyPayload) (w : World) :
  settledBlocks (conclude P env r fp fm L filtered w).1 = settledBlocks w
  /\ outbox (conclude P env r fp fm L filtered w).1 = outbox w.
Proof.
  unfold conclude.
  set (w4 := if shouldSignalTyping filtered then _ else w).
  assert (H4 : settledBlocks w4 = settledBlocks w /\ outbox w4 = outbox w).
  { subst w4. destruct (shouldSignalTyping filtered); split; reflexivity. }
  destruct H4 as [H4s H4o].
  pose proof (updateSessionUsage_outer r fp fm w4) as Hu.
  destruct (updateSessionUsage P env r fp fm w4) as [w5 [exn|]]; simpl in *.
  - unfold outerView in Hu. injection Hu; intros. split; congruence.
  - pose proof (decorate_outer L filtered w5) as Hd.
    destruct (decorate P env L filtered w5) as [[w6 fin] ok]. simpl in *.
    unfold outerView in Hu, Hd. injection Hu; intros. injection Hd; intros.
    destruct ok; simpl; split; congruence.
Qed.

Lemma handleFailure_settled (m : string) (w : World) :
  settledBlocks (handleFailure P env m w).1 = settledBlocks w
  /\ outbox (handleFailure P env m w).1 = outbox w.
Proof.
  unfold handleFailure.
  destruct (isSessionCorruption m); [|split; reflexivity].
  destruct (truthyStr (sessionKey P)); [|split; reflexivity].
  destruct (sessionStore w); [|split; reflexivity].
  destruct (truthyStr (storePath P)); [|split; reflexivity].
  simpl. destruct (truthyStr (sessionId <$> sessionEntry w)); simpl;
    destruct (saveOk env _); split; reflexivity.
Qed.

Lemma injectGroupIntro_frame (w : World) :
  let w' := (injectGroupIntro P env w).1 in
  backlog w' = backlog w /\ turns w' = turns w /\ outbox w' = outbox w
  /\ drains w' = drains w /\ files w' = files w /\ injected w' = injected w
  /\ typingLog w' = typingLog w /\ settledBlocks w' = settledBlocks w
  /\ logs w' = logs w.
Proof.
  unfold injectGroupIntro. destruct (shouldInjectGroupIntro P);
    [|repeat split].
  destruct (sessionEntry w ≫= groupActivationNeedsSystemIntro) as [[|]|];
    try (repeat split; reflexivity).
  apply (touchSession_frame P env withIntroDone w).
Qed.

Lemma reconcile_inv (base : list ReplyPayload) (r : RunResult) (st : RunState) :
  DedupInv P base st ->
  match reconcile P env r st with
  | Ready L3 w3 _ => DedupInv P base (L3, w3)
  | x => exists L', DedupInv P base (L', reconciledWorld x)
  end.
Proof.
  intros Hinv. unfold reconcile. destruct st as [L w].
  pose proof (injectGroupIntro_frame w) as (_ & _ & _ & _ & _ & _ & _ & Hintro & _).
  destruct (injectGroupIntro P env w) as [w1 ok1]. simpl in Hintro.
  assert (Hinv1 : DedupInv P base (L, w1)).
  { eapply DedupInv_view; [|exact Hinv]. unfold dedupView. simpl.
    rewrite Hintro. reflexivity. }
  destruct ok1; simpl; [|exists L; exact Hinv1].
  pose proof (drainBlocks_inv P base (lateSettle env) (L, w1) Hinv1) as Hd.
  destruct (drainBlocks (lateSettle env) (L, w1)) as [L2 w2].
  destruct (default [] (payloads r)) as [|q l]; [exists L2; exact Hd|].
  pose proof (sanitizePayloads_views (q :: l) (L2, w2)) as (Hv & _).
  destruct (sanitizePayloads P (q :: l) (L2, w2)) as [[L3 w3] sanitized].
  simpl in Hv. eapply DedupInv_view; [exact Hv | exact Hd].
Qed.

End FinishFacts.

(** ** Block streaming and the final payloads *)

Section DedupTheorems.
Context `{C : Collaborators}.
Variable P : Params.
Variable env : Env.

Lemma app_ne_self {A} (new base : list A) :
  new ≠ [] -> (new ++ base)%list ≠ base.
Proof.
  intros Hne Heq. apply (f_equal length) in Heq. rewrite length_app in Heq.
  destruct new; [contradiction|]. simpl in Heq. lia.
Qed.

Lemma filteredPayloads_dropped (L : Locals) (r : RunResult)
  (tagged : list ReplyPayload) :
  blockStreamingEnabled P && didStreamBlockReply L = true ->
  filteredPayloads P L r tagged = [].
Proof. intros H. unfold filteredPayloads. rewrite H. reflexivity. Qed.

Lemma filter_none_streamed (streamed : gset PayloadKey)
  (l : list ReplyPayload) :
  streamed = ∅ ->
  List.filter (fun p => negb (bool_decide (buildPayloadKey p ∈ streamed))) l = l.
Proof.
  intros ->. induction l as [|p l IH]; [reflexivity|]. simpl.
  rewrite bool_decide_eq_false_2 by set_solver. simpl. rewrite IH. reflexivity.
Qed.


(** The round trip on a sample: one call of the block callback, one
    resolved delivery, no final payload. *)
Example dedup_round_trip_sample :
  length (outbox BlockRun.afterRepeated.1) = 1%nat
  /\ keysOf (settledBlocks BlockRun.afterRepeated.1) = [BlockRun.keyA]
  /\ returned BlockRun.afterRepeated.2 = [].
Proof. repeat split; vm_compute; reflexivity. Qed.

End DedupTheorems.

(** C2 as stated fails: block streaming is enabled and one block (text
    [a]) was streamed; the final payload (text [b]) has a key that matches
    no streamed block, and still it is not delivered: the call returns
    [undefined]. *)
Lemma unmatched_final_payload_dropped :
  blockStreamingEnabled Sample.params0 = true
  /\ keysOf (settledBlocks BlockRun.after.1) = [BlockRun.keyA]
  /\ (buildPayloadKey BlockRun.finalB ∉ keysOf (settledBlocks BlockRun.after.1))
  /\ BlockRun.after.2 = Returned RUndefined
  /\ returned BlockRun.after.2 = [].
Proof.
  assert (Hk : keysOf (settledBlocks BlockRun.after.1) = [BlockRun.keyA])
    by (vm_compute; reflexivity).
  split; [reflexivity|]. split; [exact Hk|]. split.
  - rewrite Hk. intros Hin. apply list_elem_of_singleton in Hin.
    vm_compute in Hin. discriminate Hin.
  - split; vm_compute; reflexivity.
Qed.

(** ** The session update after a run *)

Section UsageFacts.
Context `{C : Collaborators}.
Variable P : Params.
Variable env : Env.

Lemma totalOf_prompt (u : Usage) :
  let promptTokens :=
    default 0 (input u) + default 0 (cacheRead u) + default 0 (cacheWrite u) in
  (0 < promptTokens -> totalOf u = promptTokens)
  /\ (promptTokens <= 0 -> totalOf u = default (default 0 (input u)) (total u)).
Proof.
  cbn zeta. unfold totalOf. split; intros H.
  - rewrite (proj2 (Z.ltb_lt _ _) H). reflexivity.
  - rewrite (proj2 (Z.ltb_ge _ _) H). reflexivity.
Qed.

(** A turn that has nothing to send ends before the session update. *)
Lemma reconcile_session (r : RunResult) (st : RunState) :
  shouldInjectGroupIntro P = false ->
  sessionView (reconciledWorld (reconcile P env r st)) = sessionView st.2.
Proof.
  intros Hi. unfold reconcile, injectGroupIntro. rewrite Hi.
  destruct st as [L w]. simpl.
  pose proof (drainBlocks_session (lateSettle env) (L, w)) as Hd.
  destruct (drainBlocks (lateSettle env) (L, w)) as [L2 w2].
  simpl in Hd.
  destruct (default [] (payloads r)) as [|q l]; [exact Hd|].
  pose proof (sanitizePayloads_views P (q :: l) (L2, w2)) as (_ & _ & Hv & _).
  destruct (sanitizePayloads P (q :: l) (L2, w2)) as [[L3 w3] sanitized].
  simpl in *. rewrite Hv. exact Hd.
Qed.

Lemma finishRun_nothing_to_send (r : RunResult) (fp fm : option string)
  (st : RunState) :
  shouldInjectGroupIntro P = false ->
  default [] (payloads r) = [] ->
  let res := finishRun P env r fp fm st in
  res.2 = Returned RUndefined
  /\ sessionStore res.1 = sessionStore st.2
  /\ sessionEntry res.1 = sessionEntry st.2
  /\ persisted res.1 = persisted st.2.
Proof.
  intros Hi Hp. cbn zeta.
  pose proof (reconcile_session r st Hi) as Hv.
  unfold finishRun.
  assert (Hn : exists w2, reconcile P env r st = NothingToSend w2).
  { unfold reconcile, injectGroupIntro. rewrite Hi, Hp. destruct st as [L w].
    simpl. destruct (drainBlocks _ _) as [L2 w2]. eexists. reflexivity. }
  destruct Hn as [w2 Hn]. rewrite Hn in *. simpl in *.
  unfold sessionView in Hv. injection Hv; intros.
  repeat split; assumption.
Qed.

End UsageFacts.

(** C4 on the code.  The run reports usage 100 in, 50 out.  When the agent
    returns no final payload, and when the reply already went out as a
    streamed block, the call returns [undefined] and the stored entry is
    the one from before the run, with no counter and no model written; no
    save is made.  The same usage with a final payload to send is written
    to the entry. *)
Theorem usage_lost_without_final_payload :
  hasNonzeroUsage (Collaborators := Sample.collaborators)
    (Some UsageRun.usage) = true
  /\ (UsageRun.afterEmpty.2 = Returned RUndefined
      /\ UsageRun.stored UsageRun.afterEmpty = Some Sample.entry0
      /\ persisted UsageRun.afterEmpty.1 = [])
  /\ (UsageRun.afterStreamed.2 = Returned RUndefined
      /\ length (settledBlocks UsageRun.afterStreamed.1) = 1%nat
      /\ UsageRun.stored UsageRun.afterStreamed = Some Sample.entry0
      /\ persisted UsageRun.afterStreamed.1 = [])
  /\ inputTokens <$> UsageRun.stored UsageRun.after = Some (Some 100).
Proof. repeat split; vm_compute; reflexivity. Qed.

(** ** Provider failures before the reply *)

Section NoticeFacts.
Context `{C : Collaborators}.
Variable P : Params.
Variable env : Env.

(** A failure that is neither a session corruption nor a context overflow
    is answered with a notice that carries the whole message, whatever its
    length; no exception leaves the turn. *)
Lemma provider_failure_notice (w : World) (m : string) :
  outcome env = RunFailed m ->
  isSessionCorruption m = false ->
  isContextOverflow m = false ->
  (runTurn P env w).2 = Returned (ROne (textPayload (agentFailedNotice m)))
  /\ JsString.includes m (agentFailedNotice m) = true
  /\ (String.length m < String.length (agentFailedNotice m))%nat.
Proof.
  intros Ho Hc Hov. unfold runTurn. rewrite Ho.
  set (st := runEvents P (script env) (initLocals, startTurn w)).
  destruct (handleFailure_notice P env m st.2 Hc) as [Hr _].
  destruct (handleFailure P env m st.2) as [w1 c]. simpl in *.
  rewrite Hov in Hr. split; [exact Hr|]. apply agentFailedNotice_carries.
Qed.

End NoticeFacts.

(** The sibling path: an assistant message that ends in an error, when it
    is neither a context overflow nor an invalid-request report, is cut
    at 600 characters, with an ellipsis after the cut. *)
Lemma formatAssistantErrorText_capped (msg : PiEmbeddedHelpers.AssistantMessage) :
  let raw := JsString.trim (default "" (PiEmbeddedHelpers.errorMessage msg)) in
  PiEmbeddedHelpers.stopReason msg = "error" ->
  JsString.truthy raw = true ->
  PiEmbeddedHelpers.isContextOverflowError (Some raw) = false ->
  PiEmbeddedHelpers.invalidRequestMessage raw = None ->
  exists t,
    PiEmbeddedHelpers.formatAssistantErrorText msg = Some t
    /\ (String.length t
        <= 600 + String.length PiEmbeddedHelpers.ELLIPSIS)%nat
    /\ ((String.length raw <= 600)%nat -> t = raw).
Proof.
  intros raw Hstop Htr Hov Hinv.
  unfold PiEmbeddedHelpers.formatAssistantErrorText. fold raw.
  rewrite Hstop, bool_decide_eq_true_2 by reflexivity. cbn [negb].
  rewrite Htr. cbn [negb]. rewrite Hov, Hinv.
  destruct (600 <? String.length raw)%nat eqn:Hlen; eexists;
    (split; [reflexivity|]).
  - split.
    + rewrite length_append. pose proof (length_take 600 raw). lia.
    + intros Hle. apply Nat.ltb_lt in Hlen. exfalso. lia.
  - apply Nat.ltb_ge in Hlen. split; [lia | reflexivity].
Qed.

(** C5 on the code.  The turn fails before the reply with a provider
    error of 700 characters that is neither a session corruption nor a
    context overflow.  The call returns one text payload and raises
    nothing, but the text carries all 700 characters of the raw error.
    The formatter of assistant errors cuts the same text at 600. *)
Theorem long_provider_error_forwarded :
  String.length FailureRun.message = 700%nat
  /\ isSessionCorruption FailureRun.message = false
  /\ isContextOverflow FailureRun.message = false
  /\ FailureRun.after.2
     = Returned (ROne (textPayload (agentFailedNotice FailureRun.message)))
  /\ JsString.includes FailureRun.message
       (agentFailedNotice FailureRun.message) = true
  /\ (600 < String.length (agentFailedNotice FailureRun.message))%nat
  /\ PiEmbeddedHelpers.formatAssistantErrorText FailureRun.assistantError
     = Some (JsString.repeat "x"%char 600 +:+ PiEmbeddedHelpers.ELLIPSIS).
Proof.
  repeat split; try (vm_compute; reflexivity).
  apply Nat.ltb_lt. vm_compute. reflexivity.
Qed.

(** * Further properties *)

(** ** Typing: modes and what a signaler may call *)

Section TypingMore.
Import Typing.

Lemma signals_nil_each (s : TypingSignaler) (es : list Signal) :
  (forall e, signal s e = []) -> signals s es = [].
Proof.
  intros H. unfold signals. induction es as [|e es IH]; [reflexivity|].
  simpl. rewrite H, IH. reflexivity.
Qed.

(** X1. A heartbeat run never touches the typing controller: the mode it
    resolves to is [never] whatever is configured, and a signaler made for
    that mode, or made with the heartbeat flag for any mode, answers every
    sequence of signals with no call at all. *)
Theorem heartbeat_never_types (c : TypingModeContext) (m : TypingMode)
  (hb : bool) (es : list Signal) :
  ctxIsHeartbeat c = true ->
  resolveTypingMode c = never
  /\ signals (createTypingSignaler (resolveTypingMode c) hb) es = []
  /\ signals (createTypingSignaler m true) es = [].
Proof.
  intros Hc. unfold resolveTypingMode. rewrite Hc.
  split; [reflexivity|]. split; apply signals_nil_each; intros e.
  - apply never_signaler_silent.
  - apply disabled_signaler_silent.
Qed.

(** X2. Which controller calls a signaler can make at all: it never cleans
    up and never marks the run complete; it calls [startTypingOnText] only
    in the modes [message] and [instant], and refreshes the TTL only in
    [thinking] mode. *)
Theorem signaler_call_repertoire (m : TypingMode) (hb : bool)
  (es : list Signal) (c : TypingCall) :
  c ∈ signals (createTypingSignaler m hb) es ->
  c <> Cleanup /\ c <> MarkRunComplete
  /\ ((exists t, c = StartTypingOnText t) -> m = message \/ m = instant)
  /\ (c = RefreshTypingTtl -> m = thinking).
Proof.
  unfold signals. induction es as [|e es IH]; simpl.
  - intros H. inversion H.
  - intros H. apply elem_of_app in H as [H|H]; [|apply IH; exact H].
    clear IH.
    destruct e, m, hb; cbv in H;
      repeat (apply elem_of_cons in H; destruct H as [->|H]);
      try (apply elem_of_nil in H; contradiction);
      (split; [discriminate|]); (split; [discriminate|]);
      (split; [intros [t' Ht]; try discriminate Ht;
                 first [left; reflexivity | right; reflexivity]
              | intros Hc; try discriminate Hc; reflexivity]).
Qed.

End TypingMore.

Lemma heartbeat_never_types_witness :
  ctxIsHeartbeat (mkTypingModeContext (Some instant) false true true) = true
  /\ Typing.signals
       (Typing.createTypingSignaler
          (resolveTypingMode (mkTypingModeContext (Some instant) false true true))
          false)
       [Typing.SigRunStart; Typing.SigTextDelta (Some "hi"); Typing.SigToolStart]
     = [].
Proof.
  split; [reflexivity|].
  apply (heartbeat_never_types
           (mkTypingModeContext (Some instant) false true true) instant false
           [Typing.SigRunStart; Typing.SigTextDelta (Some "hi");
            Typing.SigToolStart] eq_refl).
Defined.

Lemma signaler_call_repertoire_witness :
  StartTypingOnText (Some "hi")
    ∈ Typing.signals (Typing.createTypingSignaler message false)
        [Typing.SigReasoningDelta; Typing.SigTextDelta (Some "hi")]
  /\ StartTypingOnText (Some "hi") <> Cleanup.
Proof.
  assert (H : StartTypingOnText (Some "hi")
              ∈ Typing.signals (Typing.createTypingSignaler message false)
                  [Typing.SigReasoningDelta; Typing.SigTextDelta (Some "hi")])
    by (vm_compute; apply list_elem_of_here).
  split; [exact H|].
  apply (signaler_call_repertoire message false _ _ H).
Defined.

(** ** Admission and the bookkeeping around a turn *)

Section AdmissionMore.
Context `{C : Collaborators}.
Variable P : Params.
Variable env : Env.

(** X3. A request that arrives while a run is active, and is not taken by a
    successful steer injection, goes to the backlog once, under the queue
    key; no agent turn starts, nothing is delivered, no drain is scheduled;
    the request was also offered to the streaming run when steering was
    asked for; the entry's [updatedAt] is touched as on the steer path; and
    the call returns [undefined] after a typing cleanup, unless the store
    save fails. *)
Theorem active_run_enqueues (w : World) :
  isActive P = true ->
  shouldFollowup P = true \/ resolvedQueueMode P = steer ->
  shouldSteer P && isStreaming P && steerOk env && negb (shouldFollowup P)
  = false ->
  let r := runReplyAgent P env w in
  backlog r.1 = (queueKey P, followupRun P) :: backlog w
  /\ turns r.1 = turns w /\ outbox r.1 = outbox w /\ drains r.1 = drains w
  /\ injected r.1
     = ((if shouldSteer P && isStreaming P
         then [(runSessionId (followupRun P), prompt (followupRun P))]
         else []) ++ injected w)%list
  /\ (r.2 = Returned RUndefined /\ typingLog r.1 = Cleanup :: typingLog w
      \/ r.2 = Raised "saveSessionStore" /\ typingLog r.1 = typingLog w)
  /\ match sessionEntry w, sessionStore w, truthyStr (sessionKey P) with
     | Some e, Some s, Some k =>
         let e' := withUpdatedAt (clock env (nowCalls w)) e in
         sessionEntry r.1 = Some e' /\ sessionStore r.1 = Some (<[k := e']> s)
     | _, _, _ =>
         sessionEntry r.1 = sessionEntry w /\ sessionStore r.1 = sessionStore w
     end.
Proof.
  intros Ha Hq Hst. unfold runReplyAgent. rewrite Hst, Ha.
  assert (Hc : shouldFollowup P || bool_decide (resolvedQueueMode P = steer)
               = true).
  { destruct Hq as [-> | ->]; [reflexivity|].
    rewrite bool_decide_eq_true_2 by reflexivity. apply orb_true_r. }
  rewrite Hc. simpl.
  set (w0 := if shouldSteer P && isStreaming P then _ else w).
  set (w1 := pushBacklog (queueKey P) (followupRun P) w0).
  assert (H0 : backlog w1 = (queueKey P, followupRun P) :: backlog w
               /\ turns w1 = turns w /\ outbox w1 = outbox w
               /\ drains w1 = drains w /\ typingLog w1 = typingLog w
               /\ sessionEntry w1 = sessionEntry w
               /\ sessionStore w1 = sessionStore w /\ nowCalls w1 = nowCalls w
               /\ injected w1
                  = ((if shouldSteer P && isStreaming P
                      then [(runSessionId (followupRun P),
                             prompt (followupRun P))]
                      else []) ++ injected w)%list).
  { subst w1 w0. destruct (shouldSteer P && isStreaming P); repeat split. }
  destruct H0 as (Hb & Ht & Ho & Hd & Hty & Hse & Hss & Hn & Hin).
  pose proof (touchSession_frame P env withUpdatedAt w1) as Hfr.
  pose proof (touchSession_session P env withUpdatedAt w1) as Hses.
  cbn zeta in Hfr, Hses. rewrite Hse, Hss, Hn in Hses.
  destruct Hfr as (Fb & Ft & Fo & Fd & _ & Fi & Fty & _).
  destruct (touchSession P env withUpdatedAt w1) as [w2 [|]]; simpl in *.
  - repeat split; try congruence. left; split; congruence.
  - repeat split; try congruence. right; split; congruence.
Qed.

Lemma reconcile_queue (r : RunResult) (st : RunState) :
  let w' := reconciledWorld (reconcile P env r st) in
  backlog w' = backlog st.2 /\ drains w' = drains st.2
  /\ turns w' = turns st.2.
Proof.
  unfold reconcile. destruct st as [L w]. simpl.
  pose proof (injectGroupIntro_frame P env w) as (Hb & Ht & _ & Hd & _).
  destruct (injectGroupIntro P env w) as [w1 ok1]. simpl in *.
  destruct ok1; simpl; [|repeat split; assumption].
  pose proof (drainBlocks_session (lateSettle env) (L, w1)) as Hv.
  destruct (drainBlocks (lateSettle env) (L, w1)) as [L2 w2]. simpl in Hv.
  unfold sessionView in Hv. injection Hv; intros.
  destruct (default [] (payloads r)) as [|q l]; simpl.
  - repeat split; congruence.
  - pose proof (sanitizePayloads_views P (q :: l) (L2, w2)) as (_ & _ & Hs & _).
    destruct (sanitizePayloads P (q :: l) (L2, w2)) as [[L3 w3] sanitized].
    simpl in *. unfold sessionView in Hs. injection Hs; intros.
    repeat split; congruence.
Qed.

Lemma conclude_queue (r : RunResult) (fp fm : option string) (L : Locals)
  (filtered : list ReplyPayload) (w : World) :
  let res := conclude P env r fp fm L filtered w in
  backlog res.1 = backlog w /\ turns res.1 = turns w
  /\ drains res.1
     = match res.2 with
       | Returned _ => queueKey P :: drains w
       | Raised _ => drains w
       end.
Proof.
  cbn zeta. unfold conclude.
  set (w4 := if shouldSignalTyping filtered then _ else w).
  assert (H4 : backlog w4 = backlog w /\ turns w4 = turns w
               /\ drains w4 = drains w).
  { subst w4. destruct (shouldSignalTyping filtered); repeat split. }
  destruct H4 as (H4b & H4t & H4d).
  pose proof (updateSessionUsage_outer P env r fp fm w4) as Hu.
  destruct (updateSessionUsage P env r fp fm w4) as [w5 [exn|]]; simpl in *.
  - unfold outerView in Hu. injection Hu; intros. repeat split; congruence.
  - pose proof (decorate_outer P env L filtered w5) as Hd.
    destruct (decorate P env L filtered w5) as [[w6 fin] ok]. simpl in *.
    unfold outerView in Hu, Hd. injection Hu; intros. injection Hd; intros.
    destruct ok; simpl; repeat split; congruence.
Qed.

Lemma finishRun_queue (r : RunResult) (fp fm : option string) (st : RunState) :
  let res := finishRun P env r fp fm st in
  backlog res.1 = backlog st.2 /\ turns res.1 = turns st.2
  /\ drains res.1
     = match res.2 with
       | Returned _ => queueKey P :: drains st.2
       | Raised _ => drains st.2
       end.
Proof.
  cbn zeta. unfold finishRun.
  pose proof (reconcile_queue r st) as (Hb & Hd & Ht). cbn zeta in *.
  destruct (reconcile P env r st) as [w1|w2|L3 w3 sanitized]; simpl in *.
  - repeat split; assumption.
  - repeat split; congruence.
  - destruct (filteredPayloads P L3 r _) as [|q l]; simpl.
    + repeat split; congruence.
    + pose proof (conclude_queue r fp fm L3 (q :: l) w3) as (Cb & Ct & Cd).
      cbn zeta in *.
      destruct (conclude P env r fp fm L3 (q :: l) w3) as [w' c]. simpl in *.
      destruct c; repeat split; congruence.
Qed.

Lemma handleFailure_queue (m : string) (w : World) :
  let res := handleFailure P env m w in
  backlog res.1 = backlog w /\ turns res.1 = turns w
  /\ drains res.1 = queueKey P :: drains w
  /\ exists p, res.2 = Returned (ROne p).
Proof.
  cbn zeta. unfold handleFailure.
  destruct (isSessionCorruption m);
    [|repeat split; eexists; reflexivity].
  destruct (truthyStr (sessionKey P));
    [|repeat split; eexists; reflexivity].
  destruct (sessionStore w); [|repeat split; eexists; reflexivity].
  destruct (truthyStr (storePath P));
    [|repeat split; eexists; reflexivity].
  simpl. destruct (truthyStr (sessionId <$> sessionEntry w)); simpl;
    destruct (saveOk env _); repeat split; eexists; reflexivity.
Qed.

(** X4. The bookkeeping of an admitted turn, whatever the agent does and
    however the turn ends: exactly one agent turn starts; nothing is put on
    the backlog; the follow-up drain is scheduled once, for the queue key,
    when the call returns, and not at all when an exception leaves it; and
    the last call on the typing controller is [markRunComplete]. *)
Theorem turn_bookkeeping (w : World) :
  let r := runTurn P env w in
  turns r.1 = S (turns w)
  /\ backlog r.1 = backlog w
  /\ drains r.1
     = match r.2 with
       | Returned _ => queueKey P :: drains w
       | Raised _ => drains w
       end
  /\ head (typingLog r.1) = Some MarkRunComplete.
Proof.
  cbn zeta. unfold runTurn.
  set (st := runEvents P (script env) (initLocals, startTurn w)).
  pose proof (runEvents_session P (script env) (initLocals, startTurn w)) as Hv.
  fold st in Hv. unfold sessionView in Hv. simpl in Hv.
  injection Hv; intros Hsa Hno Htu Hdr Hba _ _ _ _.
  destruct (outcome env) as [res fp fm|m].
  - pose proof (finishRun_queue res fp fm st) as (Hb & Ht & Hd).
    cbn zeta in *.
    destruct (finishRun P env res fp fm st) as [w1 c]. simpl in *.
    destruct c; repeat split; congruence.
  - pose proof (handleFailure_queue m st.2) as (Hb & Ht & Hd & p & Hp).
    cbn zeta in *.
    destruct (handleFailure P env m st.2) as [w1 c]. simpl in *.
    subst c. repeat split; congruence.
Qed.

End AdmissionMore.

Lemma active_run_enqueues_witness :
  (isActive EnqueueRun.params = true
   /\ shouldFollowup EnqueueRun.params = true
   /\ shouldSteer EnqueueRun.params && isStreaming EnqueueRun.params
      && steerOk EnqueueRun.env && negb (shouldFollowup EnqueueRun.params)
      = false)
  /\ backlog EnqueueRun.after.1 = [("main", Sample.run0)]
  /\ turns EnqueueRun.after.1 = 0%nat.
Proof.
  split; [repeat split; reflexivity|].
  pose proof (active_run_enqueues (C := Sample.collaborators)
                EnqueueRun.params EnqueueRun.env Sample.world0
                eq_refl (or_introl eq_refl) eq_refl) as H.
  cbn zeta in H. destruct H as (Hb & Ht & _). split; [exact Hb | exact Ht].
Defined.

(** ** Failure of the turn, in full *)

Section FailureMore.
Context `{C : Collaborators}.
Variable P : Params.
Variable env : Env.

Lemma handleFailure_reply (m : string) (w : World) :
  let resets :=
    isSessionCorruption m && isSomeB (truthyStr (sessionKey P))
    && isSomeB (sessionStore w) && isSomeB (truthyStr (storePath P)) in
  let r := handleFailure P env m w in
  r.2 = Returned (ROne (textPayload
          (if resets then SESSION_RESET_APOLOGY
           else if isContextOverflow m then CONTEXT_OVERFLOW_NOTICE
           else agentFailedNotice m)))
  /\ sessionEntry r.1 = sessionEntry w
  /\ typingLog r.1 = typingLog w
  /\ (resets = false ->
      sessionStore r.1 = sessionStore w /\ files r.1 = files w
      /\ persisted r.1 = persisted w).
Proof.
  cbn zeta. unfold handleFailure.
  destruct (isSessionCorruption m);
    [|repeat split; simpl; try reflexivity].
  destruct (truthyStr (sessionKey P));
    [|repeat split; simpl; try reflexivity].
  destruct (sessionStore w) eqn:Hs;
    [|repeat split; simpl; try assumption; reflexivity].
  destruct (truthyStr (storePath P));
    [|repeat split; simpl; try assumption; reflexivity].
  simpl. destruct (truthyStr (sessionId <$> sessionEntry w)); simpl;
    destruct (saveOk env _); simpl; repeat split; discriminate.
Qed.

(** X5. A failed agent turn never raises to the caller and never returns
    nothing: it returns exactly one text payload, the reset apology when the
    failure is a session corruption and session key, store and store path
    are all at hand, else the overflow notice or the failure notice. The
    notice is returned, not delivered through a callback; the entry object
    is left alone; and unless the session is reset, the store, the
    transcript files and the saved stores stay as they were. *)
Theorem failed_turn_reply (w : World) (m : string) :
  outcome env = RunFailed m ->
  let resets :=
    isSessionCorruption m && isSomeB (truthyStr (sessionKey P))
    && isSomeB (sessionStore w) && isSomeB (truthyStr (storePath P)) in
  let r := runTurn P env w in
  r.2 = Returned (ROne (textPayload
          (if resets then SESSION_RESET_APOLOGY
           else if isContextOverflow m then CONTEXT_OVERFLOW_NOTICE
           else agentFailedNotice m)))
  /\ sessionEntry r.1 = sessionEntry w
  /\ outbox r.1 = outbox (runEvents P (script env) (initLocals, startTurn w)).2
  /\ (resets = false ->
      sessionStore r.1 = sessionStore w /\ files r.1 = files w
      /\ persisted r.1 = persisted w).
Proof.
  intros Hout. cbn zeta. unfold runTurn. rewrite Hout.
  set (st := runEvents P (script env) (initLocals, startTurn w)).
  pose proof (runEvents_session P (script env) (initLocals, startTurn w)) as Hv.
  fold st in Hv. unfold sessionView in Hv. simpl in Hv.
  injection Hv; intros _ _ _ _ _ Hfi Hpe Hss Hse.
  pose proof (handleFailure_reply m st.2) as (Hr & He & _ & Hq).
  pose proof (handleFailure_settled P env m st.2) as (_ & Ho).
  cbn zeta in *. rewrite Hss in Hr, Hq.
  destruct (handleFailure P env m st.2) as [w1 c]. simpl in *.
  split; [exact Hr|]. split; [congruence|]. split; [exact Ho|].
  intros Hn. destruct (Hq Hn) as (A & B & D). repeat split; congruence.
Qed.

End FailureMore.

Lemma failed_turn_reply_witness :
  outcome ResetRun.env = RunFailed ResetRun.message
  /\ KeylessRun.after.2
     = Returned (ROne (textPayload (agentFailedNotice ResetRun.message)))
  /\ sessionStore KeylessRun.after.1 = sessionStore Sample.world0.
Proof.
  split; [reflexivity|].
  pose proof (failed_turn_reply (C := Sample.collaborators) KeylessRun.params
                ResetRun.env Sample.world0 ResetRun.message eq_refl) as H.
  cbn zeta in H. destruct H as (Hr & _ & _ & Hq).
  split; [exact Hr | exact (proj1 (Hq eq_refl))].
Defined.

(** ** Typing during a whole turn *)

Section QuietMore.
Context `{C : Collaborators}.
Variable P : Params.
Variable env : Env.

Lemma typingCalls_nil (w : World) : typingCalls [] w = w.
Proof. destruct w; reflexivity. Qed.

Lemma settle_typing (k : PayloadKey) (ok : bool) (st : RunState) :
  typingLog (settle k ok st).2 = typingLog st.2.
Proof.
  unfold settle. destruct (find _ _) as [[k' p]|]; [|reflexivity].
  destruct ok; reflexivity.
Qed.

Lemma drainBlocks_typing (fate : PayloadKey -> bool) (st : RunState) :
  typingLog (drainBlocks fate st).2 = typingLog st.2.
Proof.
  unfold drainBlocks. generalize (pendingBlockTasks st.1). intros l.
  revert st. induction l as [|t l IH]; intros st; [reflexivity|].
  simpl. rewrite IH. apply settle_typing.
Qed.

Hypothesis quiet : Typing.disabled (typingSignals P) = true.

Lemma quiet_signal (e : Typing.Signal) : Typing.signal (typingSignals P) e = [].
Proof.
  destruct e; simpl; unfold Typing.signalRunStart, Typing.signalTextDelta,
    Typing.signalReasoningDelta, Typing.signalToolStart; rewrite quiet;
    reflexivity.
Qed.

Lemma quiet_text (t : option string) :
  Typing.signalTextDelta (typingSignals P) t = [].
Proof. apply (quiet_signal (Typing.SigTextDelta t)). Qed.

Lemma quiet_reasoning : Typing.signalReasoningDelta (typingSignals P) = [].
Proof. apply (quiet_signal Typing.SigReasoningDelta). Qed.

Lemma quiet_tool : Typing.signalToolStart (typingSignals P) = [].
Proof. apply (quiet_signal Typing.SigToolStart). Qed.

Lemma quiet_start : Typing.signalRunStart (typingSignals P) = [].
Proof. apply (quiet_signal Typing.SigRunStart). Qed.

Lemma streamBlock_quiet (t : option string) (p : StreamPayload)
  (st : RunState) :
  typingLog (streamBlock P t p st).2 = typingLog st.2.
Proof.
  unfold streamBlock.
  repeat (match goal with
          | |- context [if ?b then _ else _] => destruct b
          end; try reflexivity).
  simpl. rewrite quiet_text. reflexivity.
Qed.

Lemma onEvent_quiet (e : AgentEvent) (st : RunState) :
  typingLog (onEvent P st e).2 = typingLog st.2.
Proof.
  destruct e as [p|p|ph|ph wr|p|p|k ok]; simpl.
  - destruct (_ && _); [|reflexivity]. unfold onPartialReplyCb.
    pose proof (stripStreamed_views P p st) as (_ & Hv & _).
    destruct (stripStreamed P p st) as [st1 [t|]]; simpl in *;
      unfold signalView in Hv; injection Hv; intros Ht _; [|exact Ht].
    rewrite quiet_text. exact Ht.
  - destruct (_ || _); [|reflexivity]. unfold onReasoningStreamCb.
    rewrite quiet_reasoning.
    destruct (optFlag onReasoningStream P); reflexivity.
  - unfold onToolEvent. destruct (bool_decide _); [|reflexivity].
    simpl. rewrite quiet_tool. reflexivity.
  - unfold onCompactionEvent. destruct (_ && _); reflexivity.
  - destruct (_ && _); [|reflexivity]. unfold onBlockReplyCb.
    pose proof (stripStreamed_views P p st) as (_ & Hv & _).
    destruct (stripStreamed P p st) as [st1 [t|]]; simpl in *;
      unfold signalView in Hv; injection Hv; intros Ht _; [|exact Ht].
    rewrite streamBlock_quiet. exact Ht.
  - destruct (optFlag onToolResult P); [|reflexivity]. unfold onToolResultCb.
    pose proof (stripStreamed_views P p st) as (_ & Hv & _).
    destruct (stripStreamed P p st) as [st1 [t|]]; simpl in *;
      unfold signalView in Hv; injection Hv; intros Ht _; [|exact Ht].
    rewrite quiet_text. exact Ht.
  - apply settle_typing.
Qed.

Lemma runEvents_quiet (es : list AgentEvent) (st : RunState) :
  typingLog (runEvents P es st).2 = typingLog st.2.
Proof.
  revert st. induction es as [|e es IH]; intros st; [reflexivity|].
  change (runEvents P (e :: es) st) with (runEvents P es (onEvent P st e)).
  rewrite IH. apply onEvent_quiet.
Qed.

Lemma finishRun_quiet (r : RunResult) (fp fm : option string) (st : RunState) :
  typingLog (finishRun P env r fp fm st).1 = typingLog st.2.
Proof.
  unfold finishRun.
  assert (Hrec : typingLog (reconciledWorld (reconcile P env r st))
                 = typingLog st.2).
  { unfold reconcile. destruct st as [L w]. simpl.
    pose proof (injectGroupIntro_frame P env w) as (_ & _ & _ & _ & _ & _ & Ht & _).
    destruct (injectGroupIntro P env w) as [w1 ok1]. simpl in *.
    destruct ok1; simpl; [|exact Ht].
    pose proof (drainBlocks_typing (lateSettle env) (L, w1)) as Hd.
    destruct (drainBlocks (lateSettle env) (L, w1)) as [L2 w2]. simpl in Hd.
    destruct (default [] (payloads r)) as [|q l]; simpl; [congruence|].
    pose proof (sanitizePayloads_views P (q :: l) (L2, w2)) as (_ & Hs & _).
    destruct (sanitizePayloads P (q :: l) (L2, w2)) as [[L3 w3] sanitized].
    simpl in *. unfold signalView in Hs. injection Hs; intros. congruence. }
  destruct (reconcile P env r st) as [w1|w2|L3 w3 sanitized]; simpl in *;
    try exact Hrec.
  destruct (filteredPayloads P L3 r _) as [|q l]; simpl; [exact Hrec|].
  unfold conclude. rewrite quiet_start.
  rewrite typingCalls_nil.
  assert (E : (if shouldSignalTyping (q :: l) then w3 else w3) = w3)
    by (destruct (shouldSignalTyping _); reflexivity).
  rewrite E.
  pose proof (updateSessionUsage_outer P env r fp fm w3) as Hu.
  destruct (updateSessionUsage P env r fp fm w3) as [w5 [exn|]]; simpl in *.
  - unfold outerView in Hu. injection Hu; intros. congruence.
  - pose proof (decorate_outer P env L3 (q :: l) w5) as Hd.
    destruct (decorate P env L3 (q :: l) w5) as [[w6 fin] ok]. simpl in *.
    unfold outerView in Hu, Hd. injection Hu; intros. injection Hd; intros.
    destruct ok; simpl; congruence.
Qed.

Lemma runTurn_quiet (w : World) :
  typingLog (runTurn P env w).1 = MarkRunComplete :: typingLog w.
Proof.
  unfold runTurn.
  set (st := runEvents P (script env) (initLocals, startTurn w)).
  assert (Hst : typingLog st.2 = typingLog w)
    by (subst st; rewrite runEvents_quiet; reflexivity).
  destruct (outcome env) as [res fp fm|m].
  - pose proof (finishRun_quiet res fp fm st) as Hf.
    destruct (finishRun P env res fp fm st) as [w1 c]. simpl in *. congruence.
  - pose proof (handleFailure_reply P env m st.2) as (_ & _ & Hh & _).
    destruct (handleFailure P env m st.2) as [w1 c]. simpl in *. congruence.
Qed.

End QuietMore.

Section QuietTurn.
Context `{C : Collaborators}.
Variable P : Params.
Variable env : Env.

(** X6. During a heartbeat run, or in typing mode [never], a whole turn
    makes exactly one call on the typing controller, the [markRunComplete]
    of its [finally] block, whatever the agent streams and however the turn
    ends. *)
Theorem quiet_turn_never_types (w : World) :
  isHeartbeat P = true \/ typingMode P = never ->
  typingLog (runTurn P env w).1 = MarkRunComplete :: typingLog w.
Proof.
  intros H. apply runTurn_quiet. unfold typingSignals. simpl.
  destruct H as [-> | ->]; [reflexivity|]. apply orb_true_r.
Qed.

End QuietTurn.

Lemma quiet_turn_never_types_witness :
  isHeartbeat HeartbeatRun.params = true
  /\ typingLog HeartbeatRun.after.1 = [MarkRunComplete].
Proof.
  split; [reflexivity|].
  apply (quiet_turn_never_types (C := Sample.collaborators)
           HeartbeatRun.params HeartbeatRun.env Sample.world0
           (or_introl eq_refl)).
Defined.

(** ** Deliveries and the callbacks handed to the agent *)

Section DeliveryMore.
Context `{C : Collaborators}.
Variable P : Params.
Variable env : Env.

Lemma deliveredBy_refl (w w' : World) : outbox w' = outbox w -> deliveredBy P w w'.
Proof. intros H d Hd. left. rewrite <- H. exact Hd. Qed.

Lemma deliveredBy_trans (w1 w2 w3 : World) :
  deliveredBy P w1 w2 -> deliveredBy P w2 w3 -> deliveredBy P w1 w3.
Proof.
  intros H12 H23 d Hd. destruct (H23 d Hd) as [H|H]; [|right; exact H].
  apply H12. exact H.
Qed.

Lemma deliveredBy_cons (w w' : World) (d : Delivery) :
  mayDeliver P d = true -> outbox w' = d :: outbox w -> deliveredBy P w w'.
Proof.
  intros Hm Ho x Hx. rewrite Ho in Hx. apply elem_of_cons in Hx.
  destruct Hx as [-> | Hx]; [right; exact Hm | left; exact Hx].
Qed.

Lemma settle_outbox (k : PayloadKey) (ok : bool) (st : RunState) :
  outbox (settle k ok st).2 = outbox st.2.
Proof.
  unfold settle. destruct (find _ _) as [[k' p]|]; [|reflexivity].
  destruct ok; reflexivity.
Qed.

Lemma drainBlocks_outbox (fate : PayloadKey -> bool) (st : RunState) :
  outbox (drainBlocks fate st).2 = outbox st.2.
Proof.
  unfold drainBlocks. generalize (pendingBlockTasks st.1). intros l.
  revert st. induction l as [|t l IH]; intros st; [reflexivity|].
  simpl. rewrite IH. apply settle_outbox.
Qed.

Lemma streamBlock_outbox (t : option string) (p : StreamPayload)
  (st : RunState) :
  outbox (streamBlock P t p st).2 = outbox st.2
  \/ exists q, outbox (streamBlock P t p st).2 = DBlock q :: outbox st.2.
Proof.
  unfold streamBlock.
  repeat (match goal with
          | |- context [if ?b then _ else _] => destruct b
          end; try (left; reflexivity)).
  right. eexists. reflexivity.
Qed.

Lemma onEvent_deliveredBy (e : AgentEvent) (st : RunState) :
  deliveredBy P st.2 (onEvent P st e).2.
Proof.
  destruct e as [p|p|ph|ph wr|p|p|k ok]; simpl.
  - destruct (_ && _) eqn:Hreg; [|apply deliveredBy_refl; reflexivity].
    unfold onPartialReplyCb.
    pose proof (stripStreamed_views P p st) as (_ & Hv & _).
    destruct (stripStreamed P p st) as [st1 [t|]]; simpl in *;
      unfold signalView in Hv; injection Hv; intros _ Ho;
      [|apply deliveredBy_refl; exact Ho].
    eapply deliveredBy_cons; [|simpl; rewrite Ho; reflexivity]. exact Hreg.
  - destruct (_ || _); [|apply deliveredBy_refl; reflexivity].
    unfold onReasoningStreamCb.
    destruct (optFlag onReasoningStream P) eqn:Hreg; simpl;
      [|apply deliveredBy_refl; reflexivity].
    eapply deliveredBy_cons; [|reflexivity]. exact Hreg.
  - unfold onToolEvent. destruct (bool_decide _); apply deliveredBy_refl; reflexivity.
  - unfold onCompactionEvent. destruct (_ && _); apply deliveredBy_refl; reflexivity.
  - destruct (_ && _) eqn:Hreg; [|apply deliveredBy_refl; reflexivity].
    unfold onBlockReplyCb.
    pose proof (stripStreamed_views P p st) as (_ & Hv & _).
    destruct (stripStreamed P p st) as [st1 [t|]]; simpl in *;
      unfold signalView in Hv; injection Hv; intros _ Ho;
      [|apply deliveredBy_refl; exact Ho].
    destruct (streamBlock_outbox t p st1) as [H | [q H]].
    + apply deliveredBy_refl. congruence.
    + eapply (deliveredBy_cons _ _ (DBlock q)); [exact Hreg | congruence].
  - destruct (optFlag onToolResult P) eqn:Hreg;
      [|apply deliveredBy_refl; reflexivity].
    unfold onToolResultCb.
    pose proof (stripStreamed_views P p st) as (_ & Hv & _).
    destruct (stripStreamed P p st) as [st1 [t|]]; simpl in *;
      unfold signalView in Hv; injection Hv; intros _ Ho;
      [|apply deliveredBy_refl; exact Ho].
    eapply deliveredBy_cons; [|simpl; rewrite Ho; reflexivity]. exact Hreg.
  - apply deliveredBy_refl. apply settle_outbox.
Qed.

Lemma runEvents_deliveredBy (es : list AgentEvent) (st : RunState) :
  deliveredBy P st.2 (runEvents P es st).2.
Proof.
  revert st. induction es as [|e es IH]; intros st;
    [apply deliveredBy_refl; reflexivity|].
  change (runEvents P (e :: es) st) with (runEvents P es (onEvent P st e)).
  eapply deliveredBy_trans; [apply onEvent_deliveredBy | apply IH].
Qed.

Lemma finishRun_outbox (r : RunResult) (fp fm : option string)
  (st : RunState) :
  outbox (finishRun P env r fp fm st).1 = outbox st.2.
Proof.
  unfold finishRun.
  assert (Hrec : outbox (reconciledWorld (reconcile P env r st))
                 = outbox st.2).
  { unfold reconcile. destruct st as [L w]. simpl.
    pose proof (injectGroupIntro_frame P env w) as (_ & _ & Ho & _).
    destruct (injectGroupIntro P env w) as [w1 ok1]. simpl in *.
    destruct ok1; simpl; [|exact Ho].
    pose proof (drainBlocks_outbox (lateSettle env) (L, w1)) as Hd.
    destruct (drainBlocks (lateSettle env) (L, w1)) as [L2 w2]. simpl in Hd.
    destruct (default [] (payloads r)) as [|q l]; simpl; [congruence|].
    pose proof (sanitizePayloads_views P (q :: l) (L2, w2)) as (_ & Hs & _).
    destruct (sanitizePayloads P (q :: l) (L2, w2)) as [[L3 w3] sanitized].
    simpl in *. unfold signalView in Hs. injection Hs; intros. congruence. }
  destruct (reconcile P env r st) as [w1|w2|L3 w3 sanitized]; simpl in *;
    try exact Hrec.
  destruct (filteredPayloads P L3 r _) as [|q l]; simpl; [exact Hrec|].
  pose proof (conclude_settled P env r fp fm L3 (q :: l) w3) as [_ Hc].
  congruence.
Qed.

(** X7. What reaches the caller's streaming callbacks during a turn. Every
    delivery a turn adds goes to a callback that was handed to the agent:
    partial replies only when [onPartialReply] is given and reasoning is not
    streamed, reasoning only when [onReasoningStream] is given, blocks only
    when block streaming is enabled and [onBlockReply] is given, tool
    results only when [onToolResult] is given. The final payloads and the
    failure notices are returned, never delivered through a callback. *)
Theorem deliveries_respect_registration (w : World) (d : Delivery) :
  d ∈ outbox (runTurn P env w).1 ->
  d ∈ outbox w
  \/ match d with
     | DPartial _ =>
         optFlag onPartialReply P = true
         /\ ~ (reasoningLevel (followupRun P) = Some "stream"
               /\ optFlag onReasoningStream P = true)
     | DReasoning _ => optFlag onReasoningStream P = true
     | DBlock _ =>
         blockStreamingEnabled P = true /\ optFlag onBlockReply P = true
     | DToolResult _ => optFlag onToolResult P = true
     end.
Proof.
  intros Hd.
  assert (G : d ∈ outbox w \/ mayDeliver P d = true).
  { revert Hd. unfold runTurn.
    set (st := runEvents P (script env) (initLocals, startTurn w)).
    pose proof (runEvents_deliveredBy (script env) (initLocals, startTurn w)) as Hg.
    fold st in Hg. simpl in Hg.
    assert (Ho : outbox (match outcome env with
                         | RunOk r provider mdl => finishRun P env r provider mdl st
                         | RunFailed msg => handleFailure P env msg st.2
                         end).1 = outbox st.2).
    { destruct (outcome env) as [res fp fm|m];
        [apply finishRun_outbox | apply handleFailure_settled]. }
    destruct (match outcome env with
              | RunOk r provider mdl => finishRun P env r provider mdl st
              | RunFailed msg => handleFailure P env msg st.2
              end) as [w1 c]. simpl in *. rewrite Ho. apply Hg. }
  destruct G as [G|G]; [left; exact G | right].
  destruct d as [p|p|q|p]; simpl in G.
  - apply andb_true_iff in G. destruct G as [G1 G2]. split; [exact G1|].
    intros [Hr Ho]. unfold allowPartialStream in G2. rewrite Hr, Ho in G2.
    rewrite bool_decide_eq_true_2 in G2 by reflexivity. discriminate G2.
  - exact G.
  - apply andb_true_iff in G. exact G.
  - exact G.
Qed.

End DeliveryMore.

Lemma deliveries_respect_registration_witness :
  DPartial PartialRun.partial ∈ outbox PartialRun.after.1
  /\ (DPartial PartialRun.partial ∈ outbox Sample.world0
      \/ optFlag onPartialReply Sample.params0 = true
         /\ ~ (reasoningLevel (followupRun Sample.params0) = Some "stream"
               /\ optFlag onReasoningStream Sample.params0 = true)).
Proof.
  assert (H : DPartial PartialRun.partial ∈ outbox PartialRun.after.1)
    by (vm_compute; apply list_elem_of_here).
  split; [exact H|].
  apply (deliveries_respect_registration (C := Sample.collaborators)
           Sample.params0 PartialRun.env Sample.world0 _ H).
Defined.

(** ** The sanitiser of final payloads *)

Section SanitizerMore.
Context `{C : Collaborators}.
Variable P : Params.

Lemma withText_same (p : ReplyPayload) : withText (text p) p = p.
Proof. destruct p; reflexivity. Qed.

Lemma hasMedia_withText (t : option string) (p : ReplyPayload) :
  hasMedia (withText t p) = hasMedia p.
Proof. reflexivity. Qed.

Lemma sanitizePayload_clean (st : RunState) (out : list ReplyPayload)
  (p : ReplyPayload) :
  mentionsHeartbeat (text p) = false ->
  isError p && isBunFetchSocketError (default "" (text p)) = false ->
  sanitizePayload (st, out) p = (st, (out ++ [p])%list).
Proof.
  intros Hm He. unfold sanitizePayload, finalText.
  destruct p as [[s|] mu mus rid av err]; simpl in *; [|reflexivity].
  destruct (JsString.truthy s) eqn:Hs; simpl.
  - rewrite He. simpl. rewrite Hs, Hm. reflexivity.
  - rewrite Hs. reflexivity.
Qed.

(** X8. On a run that is no heartbeat, final payloads that do not mention
    the heartbeat token and are no socket-error reports pass the sanitiser
    unchanged, all of them and in order, and nothing is logged. *)
Theorem clean_payloads_pass_sanitizer (l : list ReplyPayload) (st : RunState) :
  Forall (fun p =>
            mentionsHeartbeat (text p) = false
            /\ isError p && isBunFetchSocketError (default "" (text p)) = false)
         l ->
  sanitizePayloads P l st = (st, l).
Proof.
  intros H. unfold sanitizePayloads. destruct (isHeartbeat P); [reflexivity|].
  enough (G : forall out, fold_left sanitizePayload l (st, out)
                          = (st, (out ++ l)%list)) by apply (G []).
  induction H as [|p l [Hm He] _ IH]; intros out; cbn [fold_left].
  - rewrite app_nil_r. reflexivity.
  - rewrite sanitizePayload_clean by assumption. rewrite IH, <- app_assoc.
    reflexivity.
Qed.

Lemma sanitizePayload_shape (st : RunState) (out : list ReplyPayload)
  (p : ReplyPayload) :
  exists t,
    (sanitizePayload (st, out) p).2 = (out ++ [withText t p])%list
    \/ (hasMedia p = false /\ (sanitizePayload (st, out) p).2 = out).
Proof.
  unfold sanitizePayload.
  destruct (truthyStr (finalText p)) as [s|];
    [|eexists; left; reflexivity].
  destruct (JsString.includes HEARTBEAT_OK s);
    [|eexists; left; reflexivity].
  destruct (shouldSkip _) eqn:Hk; simpl.
  - destruct (hasMedia p) eqn:Hm; simpl.
    + eexists; left; reflexivity.
    + exists None. right. split; reflexivity.
  - eexists; left; reflexivity.
Qed.

Lemma sanitizeFold_shape (l : list ReplyPayload)
  (acc : RunState * list ReplyPayload) :
  exists out',
    (fold_left sanitizePayload l acc).2 = (acc.2 ++ out')%list
    /\ sublist (withText None <$> out') (withText None <$> l)
    /\ List.filter hasMedia (withText None <$> out')
       = List.filter hasMedia (withText None <$> l).
Proof.
  revert acc. induction l as [|p l IH]; intros [st out]; cbn [fold_left].
  - exists []. simpl. rewrite app_nil_r. repeat split. constructor.
  - destruct (sanitizePayload (st, out) p) as [st1 out1] eqn:Hp.
    destruct (IH (st1, out1)) as (out' & He & Hs & Hf). simpl in He.
    destruct (sanitizePayload_shape st out p) as (t & [Ht | [Hm Ht]]);
      rewrite Hp in Ht; simpl in Ht; subst out1.
    + exists (withText t p :: out'). rewrite He, <- app_assoc.
      split; [reflexivity|]. rewrite !fmap_cons.
      change (withText None (withText t p)) with (withText None p). split.
      * constructor. exact Hs.
      * cbn [List.filter]. rewrite Hf. reflexivity.
    + exists out'. split; [exact He|]. rewrite !fmap_cons. split.
      * constructor. exact Hs.
      * cbn [List.filter].
        change (hasMedia (withText None p)) with (hasMedia p). rewrite Hm.
        exact Hf.
Qed.

(** X9. The sanitiser of final payloads changes nothing but texts: what it
    returns is a subsequence of its input, text aside, and every payload
    that carries media is kept, in order. *)
Theorem sanitizer_only_rewrites_text (l : list ReplyPayload) (st : RunState) :
  let out := (sanitizePayloads P l st).2 in
  sublist (withText None <$> out) (withText None <$> l)
  /\ List.filter hasMedia (withText None <$> out)
     = List.filter hasMedia (withText None <$> l).
Proof.
  cbn zeta. unfold sanitizePayloads. destruct (isHeartbeat P); simpl.
  - split; reflexivity.
  - destruct (sanitizeFold_shape l (st, [])) as (out' & He & Hs & Hf).
    simpl in He. rewrite He. split; assumption.
Qed.

End SanitizerMore.

Lemma clean_payloads_pass_sanitizer_witness :
  Forall (fun p =>
            mentionsHeartbeat (text p) = false
            /\ isError p && isBunFetchSocketError (default "" (text p)) = false)
         PartialRun.cleanPayloads
  /\ sanitizePayloads (C := Sample.collaborators) Sample.params0
       PartialRun.cleanPayloads StreamRun.start
     = (StreamRun.start, PartialRun.cleanPayloads).
Proof.
  assert (H : Forall (fun p =>
                        mentionsHeartbeat (text p) = false
                        /\ isError p
                           && isBunFetchSocketError (default "" (text p))
                           = false)
                     PartialRun.cleanPayloads)
    by (repeat constructor).
  split; [exact H|].
  apply (clean_payloads_pass_sanitizer (C := Sample.collaborators)
           Sample.params0 _ StreamRun.start H).
Defined.

(** ** The dedup key and white space *)

Lemma append_cons (x : ascii) (a b : string) :
  String x a +:+ b = String x (a +:+ b).
Proof. reflexivity. Qed.

Lemma append_assoc (a b c : string) : (a +:+ b) +:+ c = a +:+ (b +:+ c).
Proof.
  induction a as [|x a IH]; [reflexivity|].
  rewrite !append_cons, IH. reflexivity.
Qed.

Lemma append_nil_r (a : string) : a +:+ EmptyString = a.
Proof.
  induction a as [|x a IH]; [reflexivity|]. rewrite append_cons, IH.
  reflexivity.
Qed.

Section TrimFacts.
Import JsString.

Lemma str_rev_acc_app (s acc : string) :
  rev_acc s acc = rev s +:+ acc.
Proof.
  unfold rev. revert acc. induction s as [|c s IH]; intros acc; simpl;
    [reflexivity|].
  rewrite IH, (IH (String c EmptyString)), append_assoc. reflexivity.
Qed.

Lemma str_rev_cons (c : ascii) (s : string) :
  rev (String c s) = rev s +:+ String c EmptyString.
Proof. unfold rev at 1. simpl. apply str_rev_acc_app. Qed.

Lemma str_rev_app (a b : string) : rev (a +:+ b) = rev b +:+ rev a.
Proof.
  induction a as [|c a IH].
  - change (rev (EmptyString +:+ b)) with (rev b).
    change (rev EmptyString) with EmptyString. rewrite append_nil_r.
    reflexivity.
  - rewrite append_cons, !str_rev_cons, IH, append_assoc. reflexivity.
Qed.

Lemma str_rev_involutive (s : string) : rev (rev s) = s.
Proof.
  induction s as [|c s IH]; [reflexivity|].
  rewrite str_rev_cons, str_rev_app, IH. reflexivity.
Qed.

Lemma trimStart_idem (s : string) : trimStart (trimStart s) = trimStart s.
Proof.
  induction s as [|c s IH]; simpl; [reflexivity|].
  destruct (isWhiteSpace c) eqn:Hc; [exact IH|]. simpl. rewrite Hc.
  reflexivity.
Qed.

Lemma trimEnd_idem (s : string) : trimEnd (trimEnd s) = trimEnd s.
Proof.
  unfold trimEnd. rewrite str_rev_involutive, trimStart_idem. reflexivity.
Qed.

Lemma trimStart_snoc (u : string) (c : ascii) :
  isWhiteSpace c = false ->
  trimStart (u +:+ String c EmptyString)
  = trimStart u +:+ String c EmptyString.
Proof.
  intros Hc. induction u as [|d u IH]; simpl.
  - rewrite Hc. reflexivity.
  - destruct (isWhiteSpace d); [exact IH | reflexivity].
Qed.

Lemma trimEnd_cons (c : ascii) (t : string) :
  isWhiteSpace c = false -> trimEnd (String c t) = String c (trimEnd t).
Proof.
  intros Hc. unfold trimEnd.
  rewrite str_rev_cons, trimStart_snoc by exact Hc.
  rewrite str_rev_app. reflexivity.
Qed.

Lemma trimStart_trimEnd (s : string) :
  trimStart s = s -> trimStart (trimEnd s) = trimEnd s.
Proof.
  destruct s as [|c t]; [reflexivity|]. simpl.
  destruct (isWhiteSpace c) eqn:Hc.
  - intros H. exfalso.
    assert (L : forall u, (String.length (trimStart u) <= String.length u)%nat).
    { induction u as [|d u IH]; simpl; [lia|].
      destruct (isWhiteSpace d); simpl; lia. }
    pose proof (L t) as Hl. rewrite H in Hl. simpl in Hl. lia.
  - intros _. rewrite trimEnd_cons by exact Hc. simpl. rewrite Hc.
    reflexivity.
Qed.

Lemma trim_idem (s : string) : trim (trim s) = trim s.
Proof.
  unfold trim.
  rewrite (trimStart_trimEnd (trimStart s)) by apply trimStart_idem.
  apply trimEnd_idem.
Qed.

End TrimFacts.

(** X10. The dedup key of a payload does not see the white space around its
    text, nor the voice and error flags, nor whether one media URL comes as
    [mediaUrl] or as a one-element [mediaUrls]; an absent text, an empty one
    and one of white space only give the same key. *)
Theorem payload_key_normalised (p : ReplyPayload) :
  buildPayloadKey (withText (JsString.trim <$> text p) p) = buildPayloadKey p
  /\ (forall a e,
        buildPayloadKey
          (mkReplyPayload (text p) (mediaUrl p) (mediaUrls p) (replyToId p) a e)
        = buildPayloadKey p)
  /\ (forall u,
        JsString.truthy u = true ->
        buildPayloadKey
          (mkReplyPayload (text p) (Some u) None (replyToId p) (audioAsVoice p)
             (isError p))
        = buildPayloadKey
            (mkReplyPayload (text p) None (Some [u]) (replyToId p)
               (audioAsVoice p) (isError p)))
  /\ (forall t,
        JsString.trim t = "" ->
        buildPayloadKey (withText (Some t) p) = buildPayloadKey (withText None p)).
Proof.
  unfold buildPayloadKey. repeat split.
  - destruct p as [[s|] mu mus rid av err]; simpl; [|reflexivity].
    rewrite trim_idem. reflexivity.
  - intros u Hu. simpl. rewrite Hu. reflexivity.
  - intros t Ht. simpl. rewrite Ht. reflexivity.
Qed.

(** ** The session store beyond the conversation at hand *)

Section FrameMore.
Context `{C : Collaborators}.
Variable P : Params.
Variable env : Env.

Local Abbreviation key := (truthyStr (sessionKey P)).

Lemma storeWithout_same (w w' : World) :
  sessionStore w' = sessionStore w -> storeWithout key w' = storeWithout key w.
Proof. unfold storeWithout. intros ->. reflexivity. Qed.

Lemma touchSession_without (f : Z -> SessionEntry -> SessionEntry) (w : World) :
  storeWithout key (touchSession P env f w).1 = storeWithout key w.
Proof.
  pose proof (touchSession_session P env f w) as H. cbn zeta in H.
  unfold storeWithout.
  destruct (sessionEntry w) as [e|], (sessionStore w) as [s|] eqn:Hs,
    key as [k|]; destruct H as [_ ->]; simpl; rewrite ?delete_insert_eq;
    reflexivity.
Qed.

Lemma handleFailure_without (m : string) (w : World) :
  storeWithout key (handleFailure P env m w).1 = storeWithout key w.
Proof.
  unfold handleFailure, storeWithout.
  destruct (isSessionCorruption m); [|reflexivity].
  destruct key as [k|]; [|reflexivity].
  destruct (sessionStore w) as [s|] eqn:Hs; [|simpl; rewrite ?Hs; reflexivity].
  destruct (truthyStr (storePath P)); [|simpl; rewrite ?Hs; reflexivity].
  simpl. destruct (truthyStr (sessionId <$> sessionEntry w)); simpl;
    destruct (saveOk env (saveCalls w)); simpl; rewrite delete_delete_eq;
    reflexivity.
Qed.

Lemma updateSessionUsage_without (r : RunResult) (fp fm : option string)
  (w : World) :
  storeWithout key (updateSessionUsage P env r fp fm w).1 = storeWithout key w.
Proof.
  unfold updateSessionUsage, storeWithout.
  destruct (sessionStore w) as [s|] eqn:Hs; [|simpl; rewrite ?Hs; reflexivity].
  destruct key as [k|]; [|simpl; rewrite ?Hs; reflexivity].
  destruct (hasNonzeroUsage _).
  - destruct (match sessionEntry w with Some e => Some e | None => s !! k end)
      as [e|]; [|simpl; rewrite ?Hs; reflexivity].
    destruct (agentMeta r ≫= amUsage) as [u|]; [|simpl; rewrite ?Hs; reflexivity].
    unfold writeEntry, dateNow, saveSessionStore. simpl.
    destruct (truthyStr (storePath P)); simpl; rewrite delete_insert_eq;
      reflexivity.
  - destruct (_ || _); [|simpl; rewrite ?Hs; reflexivity].
    destruct (match sessionEntry w with Some e => Some e | None => s !! k end)
      as [e|]; [|simpl; rewrite ?Hs; reflexivity].
    unfold writeEntry, saveSessionStore. simpl.
    destruct (truthyStr (storePath P)); simpl; rewrite delete_insert_eq;
      reflexivity.
Qed.

Lemma decorate_uncompacted (L : Locals) (l : list ReplyPayload) (w : World) :
  autoCompactionCompleted L = false ->
  (decorate P env L l w).1.1 = w /\ (decorate P env L l w).2 = true.
Proof. intros H. unfold decorate. rewrite H. split; reflexivity. Qed.

Lemma settle_flag (k : PayloadKey) (ok : bool) (st : RunState) :
  autoCompactionCompleted (settle k ok st).1 = autoCompactionCompleted st.1.
Proof.
  unfold settle. destruct (find _ _) as [[k' p]|]; reflexivity.
Qed.

Lemma drainBlocks_flag (fate : PayloadKey -> bool) (st : RunState) :
  autoCompactionCompleted (drainBlocks fate st).1
  = autoCompactionCompleted st.1.
Proof.
  unfold drainBlocks. generalize (pendingBlockTasks st.1). intros l.
  revert st. induction l as [|t l IH]; intros st; [reflexivity|].
  simpl. rewrite IH. apply settle_flag.
Qed.

Lemma streamBlock_flag (t : option string) (p : StreamPayload)
  (st : RunState) :
  autoCompactionCompleted (streamBlock P t p st).1
  = autoCompactionCompleted st.1.
Proof.
  unfold streamBlock.
  repeat (match goal with
          | |- context [if ?b then _ else _] => destruct b
          end; try reflexivity).
Qed.

Lemma onEvent_flag (e : AgentEvent) (st : RunState) :
  e <> EvCompaction (Some "end") false ->
  autoCompactionCompleted (onEvent P st e).1 = autoCompactionCompleted st.1.
Proof.
  intros Hne. destruct e as [p|p|ph|ph wr|p|p|k ok]; simpl.
  - destruct (_ && _); [|reflexivity]. unfold onPartialReplyCb.
    pose proof (stripStreamed_views P p st) as (_ & _ & _ & _ & Hv).
    destruct (stripStreamed P p st) as [st1 [t|]]; simpl in *; exact Hv.
  - destruct (_ || _); reflexivity.
  - unfold onToolEvent. destruct (bool_decide _); reflexivity.
  - unfold onCompactionEvent.
    destruct (bool_decide (default "" ph = "end")) eqn:Hb; [|reflexivity].
    destruct wr; [reflexivity|]. exfalso. apply Hne.
    apply bool_decide_eq_true in Hb. destruct ph as [s|]; simpl in Hb;
      [subst s; reflexivity | discriminate Hb].
  - destruct (_ && _); [|reflexivity]. unfold onBlockReplyCb.
    pose proof (stripStreamed_views P p st) as (_ & _ & _ & _ & Hv).
    destruct (stripStreamed P p st) as [st1 [t|]]; simpl in *; [|exact Hv].
    rewrite streamBlock_flag. exact Hv.
  - destruct (optFlag onToolResult P); [|reflexivity]. unfold onToolResultCb.
    pose proof (stripStreamed_views P p st) as (_ & _ & _ & _ & Hv).
    destruct (stripStreamed P p st) as [st1 [t|]]; simpl in *; exact Hv.
  - apply settle_flag.
Qed.

Lemma runEvents_flag (es : list AgentEvent) (st : RunState) :
  Forall (fun e => e <> EvCompaction (Some "end") false) es ->
  autoCompactionCompleted (runEvents P es st).1 = autoCompactionCompleted st.1.
Proof.
  intros H. revert st. induction H as [|e es He _ IH]; intros st;
    [reflexivity|].
  change (runEvents P (e :: es) st) with (runEvents P es (onEvent P st e)).
  rewrite IH. apply onEvent_flag. exact He.
Qed.

Lemma reconcile_without (r : RunResult) (st : RunState) :
  storeWithout key (reconciledWorld (reconcile P env r st))
  = storeWithout key st.2
  /\ match reconcile P env r st with
     | Ready L3 _ _ => autoCompactionCompleted L3 = autoCompactionCompleted st.1
     | _ => True
     end.
Proof.
  unfold reconcile. destruct st as [L w]. simpl.
  assert (Hi : storeWithout key (injectGroupIntro P env w).1
               = storeWithout key w).
  { unfold injectGroupIntro. destruct (shouldInjectGroupIntro P);
      [|reflexivity].
    destruct (sessionEntry w ≫= groupActivationNeedsSystemIntro) as [[|]|];
      try reflexivity.
    apply touchSession_without. }
  destruct (injectGroupIntro P env w) as [w1 ok1]. simpl in *.
  destruct ok1; simpl; [|split; [exact Hi | exact I]].
  pose proof (drainBlocks_session (lateSettle env) (L, w1)) as Hv.
  pose proof (drainBlocks_flag (lateSettle env) (L, w1)) as Hf.
  destruct (drainBlocks (lateSettle env) (L, w1)) as [L2 w2]. simpl in Hv, Hf.
  unfold sessionView in Hv. injection Hv; intros _ _ _ _ _ _ _ Hss _.
  destruct (default [] (payloads r)) as [|q l]; simpl.
  - split; [|exact I]. rewrite <- Hi. apply storeWithout_same. exact Hss.
  - pose proof (sanitizePayloads_views P (q :: l) (L2, w2))
      as (_ & _ & Hs & _ & Ha).
    destruct (sanitizePayloads P (q :: l) (L2, w2)) as [[L3 w3] sanitized].
    simpl in *. unfold sessionView in Hs.
    injection Hs; intros _ _ _ _ _ _ _ Hss3 _.
    split; [|congruence]. rewrite <- Hi. apply storeWithout_same. congruence.
Qed.

Lemma conclude_without (r : RunResult) (fp fm : option string) (L : Locals)
  (filtered : list ReplyPayload) (w : World) :
  autoCompactionCompleted L = false ->
  storeWithout key (conclude P env r fp fm L filtered w).1
  = storeWithout key w.
Proof.
  intros HL. unfold conclude.
  set (w4 := if shouldSignalTyping filtered then _ else w).
  assert (H4 : storeWithout key w4 = storeWithout key w).
  { subst w4. destruct (shouldSignalTyping filtered); reflexivity. }
  pose proof (updateSessionUsage_without r fp fm w4) as Hu.
  destruct (updateSessionUsage P env r fp fm w4) as [w5 [exn|]]; simpl in *;
    [congruence|].
  destruct (decorate_uncompacted L filtered w5 HL) as [Hd Hok].
  destruct (decorate P env L filtered w5) as [[w6 fin] ok]. simpl in *.
  subst w6 ok. simpl. unfold storeWithout in *. simpl. congruence.
Qed.

Lemma finishRun_without (r : RunResult) (fp fm : option string)
  (st : RunState) :
  autoCompactionCompleted st.1 = false ->
  storeWithout key (finishRun P env r fp fm st).1 = storeWithout key st.2.
Proof.
  intros HL. unfold finishRun.
  pose proof (reconcile_without r st) as [Hw Hf].
  destruct (reconcile P env r st) as [w1|w2|L3 w3 sanitized]; simpl in *;
    try exact Hw.
  destruct (filteredPayloads P L3 r _) as [|q l]; simpl; [exact Hw|].
  rewrite conclude_without by congruence. exact Hw.
Qed.

Lemma runTurn_without (w : World) :
  Forall (fun e => e <> EvCompaction (Some "end") false) (script env) ->
  storeWithout key (runTurn P env w).1 = storeWithout key w.
Proof.
  intros Hs. unfold runTurn.
  set (st := runEvents P (script env) (initLocals, startTurn w)).
  pose proof (runEvents_session P (script env) (initLocals, startTurn w)) as Hv.
  pose proof (runEvents_flag (script env) (initLocals, startTurn w) Hs) as Hf.
  fold st in Hv, Hf. unfold sessionView in Hv. simpl in Hv, Hf.
  injection Hv; intros _ _ _ _ _ _ _ Hss _.
  assert (H0 : storeWithout key st.2 = storeWithout key w)
    by (apply storeWithout_same; exact Hss).
  destruct (outcome env) as [res fp fm|m].
  - pose proof (finishRun_without res fp fm st Hf) as Hr.
    destruct (finishRun P env res fp fm st) as [w1 c]. simpl in *.
    unfold storeWithout in *. simpl. congruence.
  - pose proof (handleFailure_without m st.2) as Hr.
    destruct (handleFailure P env m st.2) as [w1 c]. simpl in *.
    unfold storeWithout in *. simpl. congruence.
Qed.

(** X11. One call of [runReplyAgent] leaves the entries of all other
    conversations in the session store as they were: whatever path it takes
    and however it ends, the store differs from the one it was given at most
    under its own session key, and without a session key not at all. (The
    bookkeeping of a completed auto-compaction lies outside these files,
    hence the hypothesis that none completes; the entries of the store are
    taken to be objects of their own.) *)
Theorem other_sessions_untouched (w : World) :
  Forall (fun e => e <> EvCompaction (Some "end") false) (script env) ->
  storeWithout (truthyStr (sessionKey P)) (runReplyAgent P env w).1
  = storeWithout (truthyStr (sessionKey P)) w.
Proof.
  intros Hs. unfold runReplyAgent.
  set (w0 := if shouldSteer P && isStreaming P then _ else w).
  assert (H0 : storeWithout key w0 = storeWithout key w).
  { subst w0. destruct (shouldSteer P && isStreaming P); reflexivity. }
  destruct (_ && _ && _ && _).
  - pose proof (touchSession_without withUpdatedAt w0) as Ht.
    destruct (touchSession P env withUpdatedAt w0) as [w1 [|]]; simpl in *;
      unfold storeWithout in *; simpl; congruence.
  - destruct (isActive P && _).
    + pose proof (touchSession_without withUpdatedAt
                    (pushBacklog (queueKey P) (followupRun P) w0)) as Ht.
      destruct (touchSession P env withUpdatedAt _) as [w1 [|]]; simpl in *;
        unfold storeWithout in *; simpl in *; congruence.
    + rewrite runTurn_without by exact Hs. exact H0.
Qed.

End FrameMore.

Lemma other_sessions_untouched_witness :
  Forall (fun e => e <> EvCompaction (Some "end") false) (script UsageRun.env)
  /\ storeWithout (truthyStr (sessionKey Sample.params0)) TwoSessions.after.1
     = storeWithout (truthyStr (sessionKey Sample.params0)) TwoSessions.world.
Proof.
  assert (H : Forall (fun e => e <> EvCompaction (Some "end") false)
                     (script UsageRun.env)) by constructor.
  split; [exact H|].
  apply (other_sessions_untouched (C := Sample.collaborators) Sample.params0
           UsageRun.env TwoSessions.world H).
Defined.

(** ** The session update at its edges *)

Section UpdateMore.
Context `{C : Collaborators}.
Variable P : Params.
Variable env : Env.

(** X12. The session update writes only where an entry is at hand: when the
    caller passed no entry and the store has none under the session key,
    nothing is created, nothing is saved and the clock is not read, whatever
    usage the run reports. *)
Theorem update_never_creates_entry (r : RunResult) (fp fm : option string)
  (w : World) (s : Store) (k : string) :
  sessionStore w = Some s ->
  truthyStr (sessionKey P) = Some k ->
  sessionEntry w = None ->
  s !! k = None ->
  updateSessionUsage P env r fp fm w = (w, None).
Proof.
  intros Hs Hk He Hl. unfold updateSessionUsage. rewrite Hs, Hk, He, Hl.
  destruct (hasNonzeroUsage _); [reflexivity|].
  destruct (_ || _); reflexivity.
Qed.

(** X13. When the run reports no usage, or only zero counters, the session
    update leaves the token counters and [updatedAt] of the entry as they
    were and does not read the clock: at most the model, the provider and
    the context window are recorded. *)
Theorem usage_free_update_keeps_counters (r : RunResult)
  (fp fm : option string) (w : World) (s : Store) (k : string)
  (e : SessionEntry) :
  sessionStore w = Some s ->
  truthyStr (sessionKey P) = Some k ->
  match sessionEntry w with Some e0 => Some e0 | None => s !! k end = Some e ->
  hasNonzeroUsage (agentMeta r ≫= amUsage) = false ->
  let w' := (updateSessionUsage P env r fp fm w).1 in
  let mdl := modelUsed P r fm in
  let ctx := contextTokensUsed P mdl w in
  nowCalls w' = nowCalls w
  /\ sessionEntry w' = sessionEntry w
  /\ (if JsString.truthy mdl || negb (ctx =? 0)
      then exists e',
          sessionStore w' = Some (<[k := e']> s)
          /\ model e' = Some mdl
          /\ modelProvider e' = Some (providerUsed P r fp)
          /\ contextTokens e' = Some ctx
          /\ updatedAt e' = updatedAt e
          /\ inputTokens e' = inputTokens e
          /\ outputTokens e' = outputTokens e
          /\ totalTokens e' = totalTokens e
          /\ sessionId e' = sessionId e
      else w' = w).
Proof.
  intros Hs Hk He Hu. cbn zeta. unfold updateSessionUsage.
  rewrite Hs, Hk, He, Hu.
  destruct (_ || _); [|repeat split].
  unfold writeEntry, saveSessionStore.
  destruct (truthyStr (storePath P)); simpl;
    (split; [reflexivity|]); (split; [reflexivity|]);
    eexists; (split; [reflexivity|]); repeat split.
Qed.

End UpdateMore.

Lemma update_never_creates_entry_witness :
  (sessionStore TwoSessions.strangerWorld = Some {["other" := TwoSessions.other]}
   /\ truthyStr (sessionKey Sample.params0) = Some "main"
   /\ sessionEntry TwoSessions.strangerWorld = None
   /\ ({["other" := TwoSessions.other]} : Store) !! "main" = None)
  /\ updateSessionUsage (C := Sample.collaborators) Sample.params0 UsageRun.env
       UsageRun.result None None TwoSessions.strangerWorld
     = (TwoSessions.strangerWorld, None).
Proof.
  assert (Hl : ({["other" := TwoSessions.other]} : Store) !! "main" = None)
    by (apply lookup_singleton_ne; discriminate).
  split; [repeat split; try reflexivity; exact Hl|].
  apply (update_never_creates_entry (C := Sample.collaborators) Sample.params0
           UsageRun.env UsageRun.result None None TwoSessions.strangerWorld
           {["other" := TwoSessions.other]} "main" eq_refl eq_refl eq_refl Hl).
Defined.

Lemma usage_free_update_keeps_counters_witness :
  (sessionStore Sample.world0 = Some {["main" := Sample.entry0]}
   /\ truthyStr (sessionKey Sample.params0) = Some "main"
   /\ sessionEntry Sample.world0 = Some Sample.entry0
   /\ hasNonzeroUsage (Collaborators := Sample.collaborators)
        (agentMeta TwoSessions.quietResult ≫= amUsage) = false)
  /\ nowCalls
       (updateSessionUsage (C := Sample.collaborators) Sample.params0
          UsageRun.env TwoSessions.quietResult None None Sample.world0).1
     = nowCalls Sample.world0.
Proof.
  split; [repeat split; reflexivity|].
  pose proof (usage_free_update_keeps_counters (C := Sample.collaborators)
                Sample.params0 UsageRun.env TwoSessions.quietResult None None
                Sample.world0 {["main" := Sample.entry0]} "main" Sample.entry0
                eq_refl eq_refl eq_refl eq_refl) as H.
  cbn zeta in H. exact (proj1 H).
Defined.

(** ** The group intro *)

Section IntroMore.
Context `{C : Collaborators}.
Variable P : Params.
Variable env : Env.
Variable k : string.
Hypothesis Hk : truthyStr (sessionKey P) = Some k.

Lemma introDone_same (w w' : World) :
  sessionEntry w' = sessionEntry w -> sessionStore w' = sessionStore w ->
  introDone k w -> introDone k w'.
Proof. unfold introDone. intros -> ->. trivial. Qed.

Lemma updateSessionUsage_intro (r : RunResult) (fp fm : option string)
  (w : World) :
  introDone k w -> introDone k (updateSessionUsage P env r fp fm w).1.
Proof.
  intros [He Hl]. unfold updateSessionUsage.
  destruct (sessionStore w) as [s|] eqn:Hs; [|discriminate Hl].
  rewrite Hk.
  destruct (sessionEntry w) as [e|] eqn:Hse; [|discriminate He].
  simpl in He. injection He as He.
  assert (Hw : introDone k w).
  { split; [rewrite Hse; simpl; congruence | rewrite Hs; exact Hl]. }
  destruct (hasNonzeroUsage _).
  - destruct (agentMeta r ≫= amUsage) as [u|]; [|exact Hw].
    unfold writeEntry, dateNow, saveSessionStore.
    destruct (truthyStr (storePath P)); simpl; split; simpl;
      rewrite ?Hse, ?lookup_insert_eq; simpl; congruence.
  - destruct (_ || _); [|exact Hw].
    unfold writeEntry, saveSessionStore.
    destruct (truthyStr (storePath P)); simpl; split; simpl;
      rewrite ?Hse, ?lookup_insert_eq; simpl; congruence.
Qed.

Lemma injectGroupIntro_done (w : World) (e : SessionEntry) (s : Store) :
  shouldInjectGroupIntro P = true ->
  sessionEntry w = Some e -> sessionStore w = Some s ->
  groupActivationNeedsSystemIntro e = Some true ->
  introDone k (injectGroupIntro P env w).1.
Proof.
  intros Hi He Hs Hf. unfold injectGroupIntro. rewrite Hi, He. simpl.
  rewrite Hf.
  pose proof (touchSession_session P env withIntroDone w) as H.
  cbn zeta in H. rewrite He, Hs, Hk in H. destruct H as [H1 H2].
  split; [rewrite H1; reflexivity|].
  rewrite H2. simpl. rewrite lookup_insert_eq. reflexivity.
Qed.

End IntroMore.

Section IntroTurn.
Context `{C : Collaborators}.
Variable P : Params.
Variable env : Env.

(** X14. The group intro is injected at most once. When the turn was to
    inject it and the agent returned, the flag
    [groupActivationNeedsSystemIntro] is cleared both on the entry object
    and on the entry stored under the session key when the call ends, even
    when a save of the store fails, and whether or not a reply remains to be
    sent. *)
Theorem group_intro_cleared (w : World) (r : RunResult)
  (fp fm : option string) (e : SessionEntry) (s : Store) (k : string) :
  outcome env = RunOk r fp fm ->
  Forall (fun ev => ev <> EvCompaction (Some "end") false) (script env) ->
  shouldInjectGroupIntro P = true ->
  truthyStr (sessionKey P) = Some k ->
  sessionEntry w = Some e -> sessionStore w = Some s ->
  groupActivationNeedsSystemIntro e = Some true ->
  let res := runTurn P env w in
  groupActivationNeedsSystemIntro <$> sessionEntry res.1 = Some (Some false)
  /\ groupActivationNeedsSystemIntro <$> (sessionStore res.1 ≫= (.!! k))
     = Some (Some false).
Proof.
  intros Hout Hsc Hi Hk He Hs Hf. cbn zeta.
  change (introDone k (runTurn P env w).1).
  unfold runTurn. rewrite Hout.
  set (st := runEvents P (script env) (initLocals, startTurn w)).
  pose proof (runEvents_session P (script env) (initLocals, startTurn w)) as Hv.
  pose proof (runEvents_flag P (script env) (initLocals, startTurn w) Hsc) as Hfl.
  fold st in Hv, Hfl. unfold sessionView in Hv. simpl in Hv, Hfl.
  injection Hv; intros _ _ _ _ _ _ _ Hss Hse.
  enough (G : introDone k (finishRun P env r fp fm st).1).
  { destruct (finishRun P env r fp fm st) as [w1 c]. exact G. }
  unfold finishRun.
  assert (Hrec : introDone k (reconciledWorld (reconcile P env r st))
                 /\ match reconcile P env r st with
                    | Ready L3 _ _ => autoCompactionCompleted L3 = false
                    | _ => True
                    end).
  { unfold reconcile. destruct st as [L w0]. simpl in *.
    pose proof (injectGroupIntro_done P env k Hk w0 e s Hi
                  ltac:(congruence) ltac:(congruence) Hf) as Hd.
    destruct (injectGroupIntro P env w0) as [w1 ok1]. simpl in *.
    destruct ok1; simpl; [|split; [exact Hd | exact I]].
    pose proof (drainBlocks_session (lateSettle env) (L, w1)) as Hv1.
    pose proof (drainBlocks_flag (lateSettle env) (L, w1)) as Hf1.
    destruct (drainBlocks (lateSettle env) (L, w1)) as [L2 w2].
    simpl in Hv1, Hf1. unfold sessionView in Hv1.
    injection Hv1; intros _ _ _ _ _ _ _ Hss1 Hse1.
    destruct (default [] (payloads r)) as [|q l]; simpl.
    - split; [|exact I]. eapply introDone_same; eauto.
    - pose proof (sanitizePayloads_views P (q :: l) (L2, w2))
        as (_ & _ & Hsv & _ & Ha).
      destruct (sanitizePayloads P (q :: l) (L2, w2)) as [[L3 w3] sanitized].
      simpl in *. unfold sessionView in Hsv.
      injection Hsv; intros _ _ _ _ _ _ _ Hss3 Hse3.
      split; [|congruence].
      eapply introDone_same; [| |exact Hd]; congruence. }
  destruct Hrec as [Hd HL].
  destruct (reconcile P env r st) as [w1|w2|L3 w3 sanitized]; simpl in *;
    try exact Hd.
  destruct (filteredPayloads P L3 r _) as [|q l]; simpl; [exact Hd|].
  unfold conclude.
  set (w4 := if shouldSignalTyping (q :: l) then _ else w3).
  assert (H4 : introDone k w4).
  { subst w4. destruct (shouldSignalTyping _); exact Hd. }
  pose proof (updateSessionUsage_intro P env k Hk r fp fm w4 H4) as Hu.
  destruct (updateSessionUsage P env r fp fm w4) as [w5 [exn|]]; simpl in *;
    [exact Hu|].
  destruct (decorate_uncompacted P env L3 (q :: l) w5 HL) as [Hdec Hok].
  destruct (decorate P env L3 (q :: l) w5) as [[w6 fin] ok]. simpl in *.
  subst w6 ok. exact Hu.
Qed.

End IntroTurn.

Lemma group_intro_cleared_witness :
  (outcome UsageRun.env = RunOk UsageRun.result None None
   /\ Forall (fun ev => ev <> EvCompaction (Some "end") false)
        (script UsageRun.env)
   /\ shouldInjectGroupIntro IntroRun.params = true
   /\ truthyStr (sessionKey IntroRun.params) = Some "main"
   /\ sessionEntry IntroRun.world = Some IntroRun.entry
   /\ sessionStore IntroRun.world = Some {["main" := IntroRun.entry]}
   /\ groupActivationNeedsSystemIntro IntroRun.entry = Some true)
  /\ groupActivationNeedsSystemIntro <$> sessionEntry IntroRun.after.1
     = Some (Some false)
  /\ groupActivationNeedsSystemIntro
       <$> (sessionStore IntroRun.after.1 ≫= (.!! "main"))
     = Some (Some false).
Proof.
  assert (H : Forall (fun ev => ev <> EvCompaction (Some "end") false)
                     (script UsageRun.env)) by constructor.
  split; [repeat split; try reflexivity; exact H|].
  apply (group_intro_cleared (C := Sample.collaborators) IntroRun.params
           UsageRun.env IntroRun.world UsageRun.result None None
           IntroRun.entry {["main" := IntroRun.entry]} "main"
           eq_refl H eq_refl eq_refl eq_refl eq_refl eq_refl).
Defined.

(** ** The notices before the replies *)

Section NoticesMore.
Context `{C : Collaborators}.
Variable P : Params.
Variable env : Env.

Lemma returned_asReturn (l : list ReplyPayload) :
  returned (Returned (asReturn l)) = l.
Proof. destruct l as [|a [|b l]]; reflexivity. Qed.

(** X23. What a turn with replies to send hands back. When the call returns,
    it returns the final payloads that were left after filtering, all of
    them, unchanged and in order, behind at most two notices: the hint of a
    new session first, then the notice of a completed auto-compaction. Both
    notices need verbose mode: with verbose off the call returns the
    filtered payloads and nothing else. *)
Theorem verbose_notices_precede_replies (r : RunResult)
  (fp fm : option string) (L : Locals) (filtered : list ReplyPayload)
  (w : World) :
  match (conclude P env r fp fm L filtered w).2 with
  | Raised _ => True
  | Returned v =>
      exists count,
        returned (Returned v)
        = ((match resolvedVerboseLevel P with
            | verboseOn =>
                (if isNewSession P then [textPayload (NEW_SESSION_NOTICE P)]
                 else [])
                ++ (if autoCompactionCompleted L
                    then [textPayload (COMPACTION_NOTICE count)] else [])
            | verboseOff => []
            end) ++ filtered)%list
  end.
Proof.
  unfold conclude.
  destruct (updateSessionUsage P env r fp fm _) as [w5 [exn|]]; [exact I|].
  unfold decorate.
  destruct (autoCompactionCompleted L).
  - destruct (dateNow env w5) as [w0 t].
    destruct (incrementCompactionCount _ _ _ _ _) as [[[e' s'] saves] count].
    destruct (match saves, s', truthyStr (storePath P) with
              | true, Some st, Some path => saveSessionStore env path st _
              | _, _, _ => _
              end) as [wb ok].
    destruct ok; [|exact I]. unfold finalizeWithFollowup. cbn [snd].
    exists count.
    rewrite returned_asReturn.
    destruct (resolvedVerboseLevel P); [reflexivity|].
    destruct (isNewSession P); reflexivity.
  - unfold finalizeWithFollowup. cbn [snd]. exists None.
    rewrite returned_asReturn.
    destruct (resolvedVerboseLevel P); [reflexivity|].
    destruct (isNewSession P); reflexivity.
Qed.

End NoticesMore.

(** * Whole turns: the session update, block dedup and the final payloads *)

(** ** The turn up to the final payloads *)

Section TurnShape.
Context `{C : Collaborators}.
Variable P : Params.
Variable env : Env.


Lemma reconcile_intro_failed (r : RunResult) (st : RunState) (w1 : World) :
  reconcile P env r st = IntroSaveFailed w1 ->
  (injectGroupIntro P env st.2).2 = false.
Proof.
  unfold reconcile. destruct st as [L w]. simpl.
  destruct (injectGroupIntro P env w) as [w1' ok1]. simpl.
  destruct ok1; simpl; [|reflexivity].
  destruct (drainBlocks (lateSettle env) (L, w1')) as [L2 w2].
  destruct (default [] (payloads r)) as [|q l]; [discriminate|].
  destruct (sanitizePayloads P (q :: l) (L2, w2)) as [[L3 w3] sanitized].
  discriminate.
Qed.


Lemma finishRun_world (r : RunResult) (fp fm : option string)
  (st : RunState) :
  outbox (finishRun P env r fp fm st).1
  = outbox (reconciledWorld (reconcile P env r st))
  /\ settledBlocks (finishRun P env r fp fm st).1
     = settledBlocks (reconciledWorld (reconcile P env r st)).
Proof.
  unfold finishRun.
  destruct (reconcile P env r st) as [w1|w2|L3 w3 sanitized]; simpl;
    try (split; reflexivity).
  destruct (filteredPayloads P L3 r _) as [|q l]; simpl;
    [split; reflexivity|].
  destruct (conclude_settled P env r fp fm L3 (q :: l) w3) as [Hs Ho].
  split; assumption.
Qed.

(** What the call hands back when the last part of the turn returns. *)
Lemma conclude_returned (r : RunResult) (fp fm : option string) (L : Locals)
  (filtered : list ReplyPayload) (w : World) (v : ReplyReturn) :
  (conclude P env r fp fm L filtered w).2 = Returned v ->
  exists notices,
    returned (Returned v) = (notices ++ filtered)%list
    /\ (resolvedVerboseLevel P = verboseOff -> notices = []).
Proof.
  unfold conclude.
  destruct (updateSessionUsage P env r fp fm _) as [w5 [exn|]];
    [discriminate|].
  destruct (decorate P env L filtered w5) as [[w6 fin] ok] eqn:Hd.
  assert (Hfin : exists notices,
             fin = (notices ++ filtered)%list
             /\ (resolvedVerboseLevel P = verboseOff -> notices = [])).
  { revert Hd. unfold decorate.
    destruct (autoCompactionCompleted L).
    - destruct (dateNow env w5) as [w0 t].
      destruct (incrementCompactionCount _ _ _ _ _) as [[[e' s'] saves] count].
      destruct (match saves, s', truthyStr (storePath P) with
                | true, Some st, Some path => saveSessionStore env path st _
                | _, _, _ => _
                end) as [wb ok'].
      intros H. injection H as _ <- _.
      destruct (resolvedVerboseLevel P).
      + exists []. split; reflexivity.
      + destruct (isNewSession P).
        * eexists [_; _]. split; [reflexivity | discriminate].
        * eexists [_]. split; [reflexivity | discriminate].
    - intros H. injection H as _ <- _.
      destruct (resolvedVerboseLevel P).
      + exists []. split; reflexivity.
      + destruct (isNewSession P).
        * eexists [_]. split; [reflexivity | discriminate].
        * exists []. split; [reflexivity | discriminate]. }
  destruct Hfin as (notices & -> & Hoff).
  destruct ok; unfold finalizeWithFollowup; cbn [snd]; [|discriminate].
  intros H. injection H as <-. exists notices.
  rewrite returned_asReturn. split; [reflexivity | exact Hoff].
Qed.

(** Nothing but a failing save, or usage that is reported as nonzero and
    is not there, makes the turn raise once the agent has returned. *)
Section SavesSucceed.
Hypothesis saves : forall n, saveOk env n = true.

Lemma injectGroupIntro_ok (w : World) : (injectGroupIntro P env w).2 = true.
Proof.
  unfold injectGroupIntro. destruct (shouldInjectGroupIntro P); [|reflexivity].
  destruct (sessionEntry w ≫= groupActivationNeedsSystemIntro) as [[|]|];
    try reflexivity.
  unfold touchSession.
  destruct (sessionEntry w), (sessionStore w), (truthyStr (sessionKey P));
    try reflexivity.
  simpl. destruct (truthyStr (storePath P)); [|reflexivity].
  simpl. apply saves.
Qed.

Lemma updateSessionUsage_ok (r : RunResult) (fp fm : option string)
  (w : World) :
  (hasNonzeroUsage (agentMeta r ≫= amUsage) = true ->
   agentMeta r ≫= amUsage <> None) ->
  (updateSessionUsage P env r fp fm w).2 = None.
Proof.
  intros Hu. unfold updateSessionUsage.
  destruct (sessionStore w) as [s|]; [|reflexivity].
  destruct (truthyStr (sessionKey P)) as [k|]; [|reflexivity].
  destruct (hasNonzeroUsage _) eqn:Hnz.
  - destruct (match sessionEntry w with Some e => Some e | None => s !! k end)
      as [e|]; [|reflexivity].
    destruct (agentMeta r ≫= amUsage) as [u|];
      [|exfalso; apply Hu; reflexivity].
    unfold writeEntry, dateNow, saveSessionStore. simpl.
    destruct (truthyStr (storePath P)); simpl; [rewrite saves|]; reflexivity.
  - destruct (_ || _); [|reflexivity].
    destruct (match sessionEntry w with Some e => Some e | None => s !! k end)
      as [e|]; [|reflexivity].
    unfold writeEntry, saveSessionStore. simpl.
    destruct (truthyStr (storePath P)); simpl; [rewrite saves|]; reflexivity.
Qed.

Lemma decorate_ok (L : Locals) (l : list ReplyPayload) (w : World) :
  (decorate P env L l w).2 = true.
Proof.
  unfold decorate. destruct (autoCompactionCompleted L); [|reflexivity].
  simpl.
  destruct (incrementCompactionCount _ _ _ _ _) as [[[e' s'] saves'] count].
  destruct saves', s' as [st|], (truthyStr (storePath P)); simpl;
    try reflexivity.
  apply saves.
Qed.

Lemma conclude_total (r : RunResult) (fp fm : option string) (L : Locals)
  (filtered : list ReplyPayload) (w : World) :
  (hasNonzeroUsage (agentMeta r ≫= amUsage) = true ->
   agentMeta r ≫= amUsage <> None) ->
  exists v, (conclude P env r fp fm L filtered w).2 = Returned v.
Proof.
  intros Hu. unfold conclude.
  set (w4 := if shouldSignalTyping filtered then _ else w).
  pose proof (updateSessionUsage_ok r fp fm w4 Hu) as Hok.
  destruct (updateSessionUsage P env r fp fm w4) as [w5 [exn|]];
    [discriminate Hok|].
  pose proof (decorate_ok L filtered w5) as Hd.
  destruct (decorate P env L filtered w5) as [[w6 fin] ok]. simpl in Hd.
  subst ok. eexists. reflexivity.
Qed.

End SavesSucceed.

End TurnShape.

(** ** The session update of a turn that hands payloads back *)

Section UsageTurn.
Context `{C : Collaborators}.
Variable P : Params.
Variable env : Env.





End UsageTurn.



(** ** The calls of the block callback and the settled deliveries *)

Section SentFacts.
Context `{C : Collaborators}.
Variable P : Params.
Variable strict : bool.
Variable baseOut : list Delivery.
Variable base : list ReplyPayload.

Lemma blocksOf_elem (l : list Delivery) (p : ReplyPayload) :
  p ∈ blocksOf l <-> DBlock p ∈ l.
Proof.
  unfold blocksOf. rewrite list_elem_of_omap. split.
  - intros (d & Hd & Hb). destruct d; try discriminate Hb.
    injection Hb as ->. exact Hd.
  - intros Hd. exists (DBlock p). split; [exact Hd | reflexivity].
Qed.

Lemma blocksOf_cons_other (d : Delivery) (l : list Delivery) :
  blockOf d = None -> blocksOf (d :: l) = blocksOf l.
Proof. intros H. unfold blocksOf. simpl. rewrite H. reflexivity. Qed.

Lemma task_key_unique (l : list (PayloadKey * ReplyPayload))
  (k : PayloadKey) (p p' : ReplyPayload) :
  NoDup (l.*1) -> (k, p) ∈ l -> (k, p') ∈ l -> p = p'.
Proof.
  induction l as [|[k0 p0] l IH]; intros Hnd H1 H2.
  - apply elem_of_nil in H1. contradiction.
  - rewrite fmap_cons in Hnd. simpl in Hnd. apply NoDup_cons in Hnd.
    destruct Hnd as [Hnot Hnd].
    apply elem_of_cons in H1. apply elem_of_cons in H2.
    destruct H1 as [H1|H1], H2 as [H2|H2].
    + congruence.
    + injection H1 as -> ->. exfalso. apply Hnot.
      apply list_elem_of_fmap. exists (k0, p'). split; [reflexivity | exact H2].
    + injection H2 as -> ->. exfalso. apply Hnot.
      apply list_elem_of_fmap. exists (k0, p). split; [reflexivity | exact H1].
    + apply IH; assumption.
Qed.

Lemma SentInv_init (w : World) :
  outbox w = baseOut -> settledBlocks w = base ->
  SentInv strict baseOut base (initLocals, w).
Proof.
  intros Ho Hs. exists [], []. simpl. rewrite Ho, Hs.
  split; [reflexivity|]. split; [reflexivity|].
  split; [intros p Hp; apply elem_of_nil in Hp; contradiction|].
  split; [intros k p Hp; apply elem_of_nil in Hp; contradiction|].
  intros _. split; [|constructor].
  intros p Hp. apply elem_of_nil in Hp. contradiction.
Qed.

(** Steps that leave the blocks alone. *)
Lemma SentInv_other (st st' : RunState) :
  pendingBlockTasks st'.1 = pendingBlockTasks st.1 ->
  settledBlocks st'.2 = settledBlocks st.2 ->
  (outbox st'.2 = outbox st.2
   \/ exists d, blockOf d = None /\ outbox st'.2 = d :: outbox st.2) ->
  SentInv strict baseOut base st -> SentInv strict baseOut base st'.
Proof.
  intros Ht Hs Ho (sent & new & Hout & Hnew & Hres & Hfl & Hstrict).
  destruct Ho as [Ho | (d & Hd & Ho)].
  - exists sent, new. rewrite Ho, Hs, Ht. repeat split; try assumption;
      apply Hstrict; assumption.
  - exists (d :: sent), new. rewrite Ho, Hs, Ht, Hout.
    split; [reflexivity|]. split; [exact Hnew|].
    split; [intros p Hp; right; apply Hres; exact Hp|].
    split; [intros k p Hp; right; eapply Hfl; exact Hp|].
    intros Hst. destruct (Hstrict Hst) as [Hall Hnd]. split.
    + intros p Hp. apply elem_of_cons in Hp. destruct Hp as [Hp|Hp].
      * subst d. discriminate Hd.
      * apply Hall. exact Hp.
    + rewrite blocksOf_cons_other by exact Hd. exact Hnd.
Qed.

(** A delivery settles: resolved, it joins the settled ones; rejected, it
    leaves those in flight. *)
Lemma settle_sent (k : PayloadKey) (ok : bool) (st : RunState) :
  (strict = true -> ok = true) ->
  DedupInv P base st ->
  SentInv strict baseOut base st ->
  SentInv strict baseOut base (settle k ok st).
Proof.
  intros Hok Hinv Hsent. unfold settle.
  destruct (find (keyIs k) (pendingBlockTasks st.1)) as [[k' payload]|] eqn:Hf;
    [|exact Hsent].
  apply find_keyIs in Hf as [-> Hin].
  destruct Hsent as (sent & new & Hout & Hnew & Hres & Hfl & Hstrict).
  unfold DedupInv, dedupView, DedupInvOn in Hinv.
  destruct Hinv as (new' & Hnew' & _ & _ & _ & _ & Hndt & _).
  destruct st as [L w]. simpl in *.
  assert (Hsub : forall k0 p0,
             (k0, p0) ∈ filter (fun t => t.1 ≠ k) (pendingBlockTasks L) ->
             (k0, p0) ∈ pendingBlockTasks L).
  { intros k0 p0 H0. apply list_elem_of_filter in H0 as [_ H1]. exact H1. }
  destruct ok; simpl.
  - exists sent, (payload :: new). simpl. rewrite Hnew.
    split; [exact Hout|]. split; [reflexivity|]. split.
    { intros p Hp. apply elem_of_cons in Hp. destruct Hp as [-> | Hp];
        [eapply Hfl; exact Hin | apply Hres; exact Hp]. }
    split.
    { intros k0 p0 H0. eapply Hfl. apply Hsub. exact H0. }
    intros Hst. destruct (Hstrict Hst) as [Hall Hnd]. split; [|exact Hnd].
    intros p Hp. destruct (Hall p Hp) as [Hp'|[k0 Hp']].
    + left. apply elem_of_cons. right. exact Hp'.
    + destruct (decide (k0 = k)) as [-> | Hne].
      * left. apply elem_of_cons. left.
        exact (task_key_unique _ k p payload Hndt Hp' Hin).
      * right. exists k0. apply list_elem_of_filter.
        split; [exact Hne | exact Hp'].
  - exists sent, new. simpl.
    split; [exact Hout|]. split; [exact Hnew|]. split; [exact Hres|].
    split.
    { intros k0 p0 H0. eapply Hfl. apply Hsub. exact H0. }
    intros Hst. specialize (Hok Hst). discriminate Hok.
Qed.

(** A block is offered: it is dropped, or handed to the callback under a
    key that is neither streamed nor in flight. *)
Lemma streamBlock_sent (t : option string) (p : StreamPayload)
  (st : RunState) :
  DedupInv P base st ->
  SentInv strict baseOut base st ->
  SentInv strict baseOut base (streamBlock P t p st).
Proof.
  intros Hinv Hsent. unfold streamBlock.
  destruct (negb (isRenderablePayload _)); [exact Hsent|].
  destruct (negb (isSomeB _) && negb (hasMedia _)); [exact Hsent|].
  destruct (isSilent _ && negb (hasMedia _)); [exact Hsent|].
  cbn zeta.
  set (bp := blockPayloadOf P t p st.1).
  set (k := buildPayloadKey bp).
  destruct (bool_decide (k ∈ streamedPayloadKeys _)) eqn:Hs; simpl;
    [eapply SentInv_other; [| |left|exact Hsent]; reflexivity|].
  destruct (bool_decide (k ∈ pendingStreamedPayloadKeys _)) eqn:Hp; simpl;
    [eapply SentInv_other; [| |left|exact Hsent]; reflexivity|].
  apply bool_decide_eq_false in Hs, Hp. simpl in Hs, Hp.
  destruct Hsent as (sent & new & Hout & Hnew & Hres & Hfl & Hstrict).
  unfold DedupInv, dedupView, DedupInvOn in Hinv.
  destruct Hinv as (new' & Hnew' & _ & Hset & Htask & _ & _ & _ & _).
  destruct st as [L w]. simpl in *.
  assert (new' = new) as ->.
  { apply (app_inv_tail base). congruence. }
  exists (DBlock bp :: sent), new. simpl. rewrite Hout.
  split; [reflexivity|]. split; [exact Hnew|].
  split; [intros q Hq; right; apply Hres; exact Hq|].
  split.
  { intros k0 p0 H0. apply elem_of_app in H0. destruct H0 as [H0|H0].
    - right. eapply Hfl. exact H0.
    - apply list_elem_of_singleton in H0. injection H0 as -> ->. left. }
  intros Hst. destruct (Hstrict Hst) as [Hall Hnd]. split.
  - intros q Hq. apply elem_of_cons in Hq. destruct Hq as [Hq|Hq].
    + injection Hq as ->. right. exists k. apply elem_of_app. right.
      apply list_elem_of_singleton. reflexivity.
    + destruct (Hall q Hq) as [H1|[k0 H1]]; [left; exact H1|].
      right. exists k0. apply elem_of_app. left. exact H1.
  - unfold blocksOf. simpl. fold (blocksOf sent). rewrite keysOf_cons.
    apply NoDup_cons. split; [|exact Hnd].
    intros Hin. unfold keysOf in Hin. apply list_elem_of_fmap in Hin.
    destruct Hin as (q & Hk & Hq). apply blocksOf_elem in Hq.
    destruct (Hall q Hq) as [H1|[k0 H1]].
    + apply Hs. apply Hset. unfold keysOf. apply list_elem_of_fmap.
      exists q. split; [exact Hk | exact H1].
    + destruct (Htask _ _ H1) as (Hkey & _ & Hpend).
      apply Hp. fold k in Hk. rewrite Hk, Hkey. exact Hpend.
Qed.

Lemma onEvent_sent (e : AgentEvent) (st : RunState) :
  (strict = true -> forall k, e <> EvBlockSettled k false) ->
  DedupInv P base st ->
  SentInv strict baseOut base st ->
  SentInv strict baseOut base (onEvent P st e).
Proof.
  intros Hrej Hinv Hsent.
  assert (Hview : forall st1 : RunState,
             dedupView st1 = dedupView st -> signalView st1 = signalView st ->
             SentInv strict baseOut base st1).
  { intros st1 Hd Hs. unfold dedupView in Hd. unfold signalView in Hs.
    injection Hd; intros Hset _ Htask _ _. injection Hs; intros _ Hout.
    eapply SentInv_other; [exact Htask | exact Hset | left; exact Hout
                          | exact Hsent]. }
  destruct e as [p|p|ph|ph wr|p|p|k ok]; simpl.
  - destruct (optFlag onPartialReply P && allowPartialStream P);
      [|exact Hsent].
    unfold onPartialReplyCb.
    pose proof (stripStreamed_views P p st) as (Hd & Hs & _).
    destruct (stripStreamed P p st) as [st1 [t|]]; simpl in *;
      [|apply Hview; assumption].
    eapply SentInv_other; [| | |apply (Hview st1 Hd Hs)]; try reflexivity.
    right. eexists. split; [|reflexivity]. reflexivity.
  - destruct (_ || _); [|exact Hsent]. unfold onReasoningStreamCb.
    destruct (optFlag onReasoningStream P).
    + eapply SentInv_other; [| | |exact Hsent]; try reflexivity.
      right. eexists. split; [|reflexivity]. reflexivity.
    + eapply SentInv_other; [| | |exact Hsent]; try reflexivity.
      left. reflexivity.
  - unfold onToolEvent. destruct (bool_decide _); [|exact Hsent].
    eapply SentInv_other; [| | |exact Hsent]; try reflexivity.
    left. reflexivity.
  - unfold onCompactionEvent. destruct (_ && _); [|exact Hsent].
    eapply SentInv_other; [| | |exact Hsent]; try reflexivity.
    left. reflexivity.
  - destruct (blockStreamingEnabled P && optFlag onBlockReply P);
      [|exact Hsent].
    unfold onBlockReplyCb.
    pose proof (stripStreamed_views P p st) as (Hd & Hs & _).
    destruct (stripStreamed P p st) as [st1 [t|]]; simpl in *;
      [|apply Hview; assumption].
    apply streamBlock_sent.
    + eapply DedupInv_view; [exact Hd | exact Hinv].
    + apply Hview; assumption.
  - destruct (optFlag onToolResult P); [|exact Hsent].
    unfold onToolResultCb.
    pose proof (stripStreamed_views P p st) as (Hd & Hs & _).
    destruct (stripStreamed P p st) as [st1 [t|]]; simpl in *;
      [|apply Hview; assumption].
    eapply SentInv_other; [| | |apply (Hview st1 Hd Hs)]; try reflexivity.
    right. eexists. split; [|reflexivity]. reflexivity.
  - apply settle_sent; [|exact Hinv|exact Hsent].
    intros Hst. destruct ok; [reflexivity|].
    exfalso. apply (Hrej Hst k). reflexivity.
Qed.

Lemma runEvents_sent (es : list AgentEvent) (st : RunState) :
  (strict = true ->
   Forall (fun e => forall k, e <> EvBlockSettled k false) es) ->
  DedupInv P base st ->
  SentInv strict baseOut base st ->
  SentInv strict baseOut base (runEvents P es st).
Proof.
  revert st. induction es as [|e es IH]; intros st Hrej Hinv Hsent;
    [exact Hsent|].
  change (runEvents P (e :: es) st) with (runEvents P es (onEvent P st e)).
  apply IH.
  - intros Hst. specialize (Hrej Hst). inversion Hrej; assumption.
  - apply onEvent_inv. exact Hinv.
  - apply onEvent_sent; [|exact Hinv|exact Hsent].
    intros Hst. specialize (Hrej Hst). inversion Hrej; assumption.
Qed.

Lemma settleAll_sent (fate : PayloadKey -> bool)
  (l : list (PayloadKey * ReplyPayload)) (st : RunState) :
  (strict = true -> forall k, fate k = true) ->
  DedupInv P base st ->
  SentInv strict baseOut base st ->
  SentInv strict baseOut base
    (fold_left (fun s t => settle t.1 (fate t.1) s) l st).
Proof.
  intros Hfate. revert st.
  induction l as [|t l IH]; intros st Hinv Hsent; [exact Hsent|].
  simpl. apply IH.
  - apply settle_inv. exact Hinv.
  - apply settle_sent; [|exact Hinv|exact Hsent].
    intros Hst. apply Hfate. exact Hst.
Qed.

(** Once the deliveries in flight have been awaited, none is in flight. *)
Lemma settleAll_empties (fate : PayloadKey -> bool)
  (l : list (PayloadKey * ReplyPayload)) (st : RunState) :
  (forall t, t ∈ pendingBlockTasks st.1 -> t.1 ∈ l.*1) ->
  pendingBlockTasks (fold_left (fun s t => settle t.1 (fate t.1) s) l st).1
  = [].
Proof.
  revert st. induction l as [|t l IH]; intros st Hsub.
  - simpl. destruct (pendingBlockTasks st.1) as [|x xs]; [reflexivity|].
    exfalso. specialize (Hsub x (list_elem_of_here _ _)).
    apply elem_of_nil in Hsub. exact Hsub.
  - simpl. apply IH. intros x Hx.
    assert (Hx' : x ∈ pendingBlockTasks st.1 /\ x.1 ≠ t.1).
    { revert Hx. unfold settle.
      destruct (find (keyIs t.1) (pendingBlockTasks st.1)) as [[k' p']|] eqn:Hf.
      - simpl. intros Hx. apply list_elem_of_filter in Hx. destruct Hx.
        split; assumption.
      - intros Hx. split; [exact Hx|]. intros Heq.
        apply list_elem_of_In in Hx.
        pose proof (find_none _ _ Hf x Hx) as Hn.
        unfold keyIs in Hn. apply bool_decide_eq_false in Hn. contradiction. }
    destruct Hx' as [Hin Hne]. specialize (Hsub x Hin).
    rewrite fmap_cons in Hsub. apply elem_of_cons in Hsub.
    destruct Hsub as [Heq|Hl]; [contradiction | exact Hl].
Qed.

Lemma drainBlocks_empties (fate : PayloadKey -> bool) (st : RunState) :
  pendingBlockTasks (drainBlocks fate st).1 = [].
Proof.
  apply settleAll_empties. intros t Ht.
  apply list_elem_of_fmap. exists t. split; [reflexivity | exact Ht].
Qed.

End SentFacts.

(** ** Block dedup over a whole turn *)

Section DedupTurn.
Context `{C : Collaborators}.
Variable P : Params.
Variable env : Env.

Lemma reconcile_sent (strict : bool) (baseOut : list Delivery)
  (base : list ReplyPayload) (r : RunResult) (st : RunState) :
  (strict = true -> forall k, lateSettle env k = true) ->
  DedupInv P base st ->
  SentInv strict baseOut base st ->
  exists L',
    SentInv strict baseOut base (L', reconciledWorld (reconcile P env r st))
    /\ match reconcile P env r st with
       | IntroSaveFailed _ => True
       | _ => pendingBlockTasks L' = []
       end.
Proof.
  intros Hfate Hinv Hsent. unfold reconcile. destruct st as [L w].
  pose proof (injectGroupIntro_frame P env w)
    as (_ & _ & Ho & _ & _ & _ & _ & Hs & _).
  destruct (injectGroupIntro P env w) as [w1 ok1]. simpl in Ho, Hs.
  assert (Hsent1 : SentInv strict baseOut base (L, w1)).
  { eapply SentInv_other; [| |left|exact Hsent]; simpl;
      [reflexivity | exact Hs | exact Ho]. }
  assert (Hinv1 : DedupInv P base (L, w1)).
  { eapply DedupInv_view; [|exact Hinv]. unfold dedupView. simpl.
    rewrite Hs. reflexivity. }
  destruct ok1; simpl; [|exists L; split; [exact Hsent1 | exact I]].
  pose proof (settleAll_sent P strict baseOut base (lateSettle env)
                (pendingBlockTasks L) (L, w1) Hfate Hinv1 Hsent1) as Hd.
  pose proof (drainBlocks_empties (lateSettle env) (L, w1)) as He.
  change (fold_left _ (pendingBlockTasks L) (L, w1))
    with (drainBlocks (lateSettle env) (L, w1)) in Hd.
  destruct (drainBlocks (lateSettle env) (L, w1)) as [L2 w2]. simpl in He.
  destruct (default [] (payloads r)) as [|q l]; simpl;
    [exists L2; split; assumption|].
  pose proof (sanitizePayloads_views P (q :: l) (L2, w2)) as (Hv & Hsv & _).
  destruct (sanitizePayloads P (q :: l) (L2, w2)) as [[L3 w3] sanitized].
  simpl in *. unfold dedupView in Hv. unfold signalView in Hsv. simpl in *.
  injection Hv; intros Hset _ Htask _ _. injection Hsv; intros _ Hout.
  exists L3. split; [|congruence].
  eapply SentInv_other; [| |left|exact Hd]; simpl; assumption.
Qed.

(** The calls of the block callback of a whole turn: the invariant holds
    when the turn ends, and when the call returns after the agent did,
    nothing is in flight any more. *)
Lemma runTurn_sent (strict : bool) (w : World) :
  (strict = true -> neverRejects env) ->
  exists L',
    SentInv strict (outbox w) (settledBlocks w) (L', (runTurn P env w).1)
    /\ (forall res fp fm v,
          outcome env = RunOk res fp fm ->
          (runTurn P env w).2 = Returned v ->
          pendingBlockTasks L' = []).
Proof.
  intros Hnr. unfold runTurn.
  set (st := runEvents P (script env) (initLocals, startTurn w)).
  assert (Hinv : DedupInv P (settledBlocks w) st).
  { apply runEvents_inv. apply DedupInv_init. reflexivity. }
  assert (Hsent : SentInv strict (outbox w) (settledBlocks w) st).
  { apply runEvents_sent.
    - intros Hst. apply (Hnr Hst).
    - apply DedupInv_init. reflexivity.
    - apply SentInv_init; reflexivity. }
  destruct (outcome env) as [res fp fm|m].
  - destruct (reconcile_sent strict (outbox w) (settledBlocks w) res st
                ltac:(intros Hst; apply (Hnr Hst)) Hinv Hsent)
      as (L' & HL & Hempty).
    destruct (finishRun_world P env res fp fm st) as [Wo Ws].
    assert (Hdr : forall v, (finishRun P env res fp fm st).2 = Returned v ->
                            pendingBlockTasks L' = []).
    { intros v. unfold finishRun.
      destruct (reconcile P env res st) as [w1|w2|L3 w3 sanitized]; simpl;
        [discriminate | intros _; exact Hempty | intros _; exact Hempty]. }
    destruct (finishRun P env res fp fm st) as [w1 c]. simpl in *.
    exists L'. split.
    + eapply SentInv_other; [| |left|exact HL]; simpl;
        [reflexivity | exact Ws | exact Wo].
    + intros res' fp' fm' v _ Hv. apply (Hdr v Hv).
  - destruct (handleFailure_settled P env m st.2) as [Hh Ho].
    destruct (handleFailure P env m st.2) as [w1 c]. simpl in *.
    exists st.1. split.
    + eapply SentInv_other; [| |left|exact Hsent]; simpl;
        [reflexivity | exact Hh | exact Ho].
    + intros res fp fm v Hout. discriminate Hout.
Qed.




End DedupTurn.

(** The two sides on samples.  No delivery is rejected: the block is handed
    over once, resolves, and the final payload that repeats it is not
    handed back.  The delivery is rejected: nothing resolved, and the final
    payload with the same key is handed back. *)
Example dedup_samples :
  neverRejects BlockRun.repeatedEnv
  /\ keysOf (blocksOf (outbox BlockRun.afterRepeated.1)) = [BlockRun.keyA]
  /\ blocksOf (outbox BlockRun.afterRepeated.1)
     = settledBlocks BlockRun.afterRepeated.1
  /\ returned BlockRun.afterRepeated.2 = []
  /\ keysOf (blocksOf (outbox RejectedRun.after.1)) = [BlockRun.keyA]
  /\ settledBlocks RejectedRun.after.1 = []
  /\ keysOf (returned RejectedRun.after.2) = [BlockRun.keyA].
Proof.
  split.
  { split; [intros k; reflexivity|].
    repeat constructor; intros k; discriminate. }
  repeat split; vm_compute; reflexivity.
Qed.


(** ** The final payloads after block streaming *)

Section FinalPayloads.
Context `{C : Collaborators}.
Variable P : Params.
Variable env : Env.

Lemma DedupInv_none (base : list ReplyPayload) (st : RunState) :
  DedupInv P base st -> settledBlocks st.2 = base ->
  didStreamBlockReply st.1 = false /\ streamedPayloadKeys st.1 = ∅.
Proof.
  unfold DedupInv, dedupView, DedupInvOn.
  intros (new & Hnew & _ & Hset & _ & _ & _ & Hdid & _) Hb.
  assert (Hn : new = []).
  { rewrite Hb in Hnew. destruct new as [|p new]; [reflexivity|].
    apply (f_equal length) in Hnew. rewrite length_app in Hnew. simpl in Hnew.
    lia. }
  subst new.
  assert (He : streamedPayloadKeys st.1 = ∅).
  { apply elem_of_equiv_empty_L. intros k Hk. apply Hset in Hk.
    apply elem_of_nil in Hk. exact Hk. }
  split; [|exact He].
  destruct (didStreamBlockReply st.1); [|reflexivity].
  exfalso. apply Hdid; [reflexivity | exact He].
Qed.

Lemma filteredPayloads_none (L : Locals) (r : RunResult)
  (tagged : list ReplyPayload) :
  didStreamBlockReply L = false -> streamedPayloadKeys L = ∅ ->
  filteredPayloads P L r tagged
  = filterMessagingToolDuplicates tagged
      (default [] (messagingToolSentTexts r)).
Proof.
  intros Hd He. unfold filteredPayloads. rewrite Hd, andb_false_r.
  destruct (blockStreamingEnabled P); [|reflexivity].
  apply filter_none_streamed. exact He.
Qed.

Lemma finishRun_final_payloads (base : list ReplyPayload) (r : RunResult)
  (fp fm : option string) (st : RunState) :
  DedupInv P base st ->
  let res := finishRun P env r fp fm st in
  let deduped := toolFilteredPayloads P env r st in
  exists new,
    settledBlocks res.1 = (new ++ base)%list
    /\ (new <> [] ->
          blockStreamingEnabled P = true
          /\ returned res.2 = []
          /\ (res.2 = Returned RUndefined \/ res.2 = Raised "saveSessionStore")
          /\ ((forall n, saveOk env n = true) -> res.2 = Returned RUndefined))
    /\ (new = [] ->
          (forall v, res.2 = Returned v ->
             exists notices,
               returned res.2 = (notices ++ deduped)%list
               /\ (resolvedVerboseLevel P = verboseOff -> notices = [])
               /\ (deduped = [] -> notices = []))
          /\ ((forall n, saveOk env n = true) ->
              (hasNonzeroUsage (agentMeta r ≫= amUsage) = true ->
               agentMeta r ≫= amUsage <> None) ->
              exists v, res.2 = Returned v)).
Proof.
  intros Hinv. cbn zeta. unfold finishRun, toolFilteredPayloads.
  pose proof (reconcile_inv P env base r st Hinv) as Hrec.
  assert (Hen : forall (L : Locals) (w0 : World) (new : list ReplyPayload),
             DedupInv P base (L, w0) ->
             settledBlocks w0 = (new ++ base)%list -> new <> [] ->
             blockStreamingEnabled P && didStreamBlockReply L = true).
  { intros L w0 new HL Hs Hne.
    destruct (DedupInv_streamed P base _ HL) as (_ & Hen & _).
    apply Hen. simpl. rewrite Hs. apply app_ne_self. exact Hne. }
  destruct (reconcile P env r st) as [w1|w2|L3 w3 sanitized] eqn:Hr;
    simpl in *.
  - destruct Hrec as [L' HL].
    destruct (DedupInv_streamed P base _ HL) as (_ & _ & new & Hs & _).
    simpl in *. exists new. split; [exact Hs|]. split.
    + intros Hne. pose proof (Hen L' w1 new HL Hs Hne) as Hb.
      apply andb_true_iff in Hb.
      split; [apply Hb|]. split; [reflexivity|]. split; [right; reflexivity|].
      intros Hsave. pose proof (reconcile_intro_failed P env r st w1 Hr) as Hf.
      rewrite (injectGroupIntro_ok P env Hsave) in Hf. discriminate Hf.
    + intros _. split; [intros v Hv; discriminate Hv|].
      intros Hsave _.
      pose proof (reconcile_intro_failed P env r st w1 Hr) as Hf.
      rewrite (injectGroupIntro_ok P env Hsave) in Hf. discriminate Hf.
  - destruct Hrec as [L' HL].
    destruct (DedupInv_streamed P base _ HL) as (_ & _ & new & Hs & _).
    simpl in *. exists new. split; [exact Hs|]. split.
    + intros Hne. pose proof (Hen L' w2 new HL Hs Hne) as Hb.
      apply andb_true_iff in Hb.
      split; [apply Hb|]. split; [reflexivity|]. split; [left; reflexivity|].
      intros _. reflexivity.
    + intros _. split.
      * intros v _. exists []. repeat split.
      * intros _ _. eexists. reflexivity.
  - destruct (DedupInv_streamed P base _ Hrec) as (_ & _ & new & Hs & _).
    simpl in *. exists new.
    set (tagged := replyTaggedPayloads P (replyToHistory L3) sanitized).
    assert (Hsettled :
              settledBlocks
                (match filteredPayloads P L3 r tagged with
                 | [] => finalizeWithFollowup P RUndefined w3
                 | _ :: _ =>
                     conclude P env r fp fm L3 (filteredPayloads P L3 r tagged) w3
                 end).1 = settledBlocks w3).
    { destruct (filteredPayloads P L3 r tagged) as [|q l]; [reflexivity|].
      apply conclude_settled. }
    split.
    { destruct (filteredPayloads P L3 r tagged) as [|q l];
        rewrite <- Hs; exact Hsettled. }
    split.
    + intros Hne. pose proof (Hen L3 w3 new Hrec Hs Hne) as Hb.
      rewrite (filteredPayloads_dropped P L3 r tagged Hb). simpl.
      apply andb_true_iff in Hb.
      split; [apply Hb|]. split; [reflexivity|]. split; [left; reflexivity|].
      intros _. reflexivity.
    + intros Hnil. subst new. simpl in Hs.
      destruct (DedupInv_none base (L3, w3) Hrec Hs) as [Hd He].
      simpl in Hd, He.
      rewrite (filteredPayloads_none L3 r tagged Hd He).
      destruct (filterMessagingToolDuplicates tagged _) as [|q l] eqn:Hded;
        simpl.
      * split.
        -- intros v _. exists []. repeat split.
        -- intros _ _. eexists. reflexivity.
      * split.
        -- intros v Hv.
           destruct (conclude_returned P env r fp fm L3 (q :: l) w3 v Hv)
             as (notices & Hn & Hoff).
           exists notices. rewrite Hv. split; [exact Hn|].
           split; [exact Hoff | discriminate].
        -- intros Hsave Hu. apply conclude_total; assumption.
Qed.

(** C2, as the code has it.  The block deliveries that resolve during a
    turn, each of them a call of the block callback, decide what becomes of
    the final payloads when the agent returns.  Once one resolved (which
    needs block streaming enabled), every final payload is dropped,
    whatever its key: the call hands nothing back, and returns [undefined]
    unless the save of the group intro flag raised.  While none resolved,
    no key is streamed and the key filter removes nothing: when the call
    returns, it returns the payloads the messaging-tool filter left, behind
    the verbose notices if there are any; and it does return, whenever no
    session save fails and usage reported as nonzero is at hand. *)
Theorem final_payloads_after_streaming (w : World) (r : RunResult)
  (fp fm : option string) :
  outcome env = RunOk r fp fm ->
  let res := runTurn P env w in
  let deduped :=
    toolFilteredPayloads P env r
      (runEvents P (script env) (initLocals, startTurn w)) in
  exists new,
    settledBlocks res.1 = (new ++ settledBlocks w)%list
    /\ (forall p, p ∈ new -> DBlock p ∈ outbox res.1)
    /\ (new <> [] ->
          blockStreamingEnabled P = true
          /\ returned res.2 = []
          /\ (res.2 = Returned RUndefined \/ res.2 = Raised "saveSessionStore")
          /\ ((forall n, saveOk env n = true) -> res.2 = Returned RUndefined))
    /\ (new = [] ->
          (forall v, res.2 = Returned v ->
             exists notices,
               returned res.2 = (notices ++ deduped)%list
               /\ (resolvedVerboseLevel P = verboseOff -> notices = [])
               /\ (deduped = [] -> notices = []))
          /\ ((forall n, saveOk env n = true) ->
              (hasNonzeroUsage (agentMeta r ≫= amUsage) = true ->
               agentMeta r ≫= amUsage <> None) ->
              exists v, res.2 = Returned v)).
Proof.
  intros Hout. cbn zeta.
  destruct (runTurn_sent P env false w ltac:(discriminate))
    as (Lg & (sent & new1 & Go & Gs & Gres & _ & _) & _).
  simpl in Go, Gs. revert Go Gs.
  unfold runTurn. rewrite Hout.
  set (st := runEvents P (script env) (initLocals, startTurn w)).
  assert (Hinv : DedupInv P (settledBlocks w) st).
  { apply runEvents_inv. apply DedupInv_init. reflexivity. }
  pose proof (finishRun_final_payloads (settledBlocks w) r fp fm st Hinv) as H.
  cbn zeta in H.
  destruct (finishRun P env r fp fm st) as [w1 c]. simpl in *.
  intros Go Gs.
  destruct H as (new & Hs & Hdrop & Hkeep). exists new.
  split; [exact Hs|]. split; [|split; assumption].
  assert (new1 = new) as ->.
  { apply (app_inv_tail (settledBlocks w)). congruence. }
  intros p Hp. rewrite Go. apply elem_of_app. left. apply Gres. exact Hp.
Qed.

End FinalPayloads.

Lemma final_payloads_after_streaming_witness :
  (outcome BlockRun.env
   = RunOk (Sample.resultOf [BlockRun.finalB] (Some BlockRun.usage)) None None
   /\ outcome UsageRun.env = RunOk UsageRun.result None None)
  /\ (keysOf (settledBlocks (runTurn (C := Sample.collaborators)
                               Sample.params0 BlockRun.env Sample.world0).1)
      = [BlockRun.keyA]
      /\ (runTurn (C := Sample.collaborators) Sample.params0 BlockRun.env
            Sample.world0).2 = Returned RUndefined)
  /\ (settledBlocks (runTurn (C := Sample.collaborators) Sample.params0
                       UsageRun.env Sample.world0).1 = []
      /\ returned (runTurn (C := Sample.collaborators) Sample.params0
                     UsageRun.env Sample.world0).2
         = toolFilteredPayloads (C := Sample.collaborators) Sample.params0
             UsageRun.env UsageRun.result UsageRun.turnState
      /\ returned (runTurn (C := Sample.collaborators) Sample.params0
                     UsageRun.env Sample.world0).2
         = [cleanAudio (C := Sample.collaborators) UsageRun.reply]).
Proof.
  split; [split; reflexivity|].
  split.
  - destruct (final_payloads_after_streaming (C := Sample.collaborators)
                Sample.params0 BlockRun.env Sample.world0
                (Sample.resultOf [BlockRun.finalB] (Some BlockRun.usage))
                None None eq_refl)
      as (new & Hs & _ & Hdrop & _).
    assert (Hk : keysOf (settledBlocks
                           (runTurn (C := Sample.collaborators) Sample.params0
                              BlockRun.env Sample.world0).1)
                 = [BlockRun.keyA]) by (vm_compute; reflexivity).
    split; [exact Hk|].
    assert (Hne : new <> []).
    { intros ->. rewrite Hs in Hk. vm_compute in Hk. discriminate Hk. }
    destruct (Hdrop Hne) as (_ & _ & _ & Hret).
    apply Hret. intros n. reflexivity.
  - destruct (final_payloads_after_streaming (C := Sample.collaborators)
                Sample.params0 UsageRun.env Sample.world0 UsageRun.result
                None None eq_refl)
      as (new & Hs & _ & _ & Hkeep).
    assert (Hb : settledBlocks
                   (runTurn (C := Sample.collaborators) Sample.params0
                      UsageRun.env Sample.world0).1 = [])
      by (vm_compute; reflexivity).
    split; [exact Hb|].
    assert (Hnil : new = []).
    { rewrite Hb in Hs. destruct new; [reflexivity | discriminate Hs]. }
    destruct (Hkeep Hnil) as (Hret & Htot).
    destruct Htot as [v Hv]; [intros n; reflexivity | discriminate|].
    destruct (Hret v Hv) as (notices & Hn & Hoff & _).
    rewrite (Hoff eq_refl) in Hn. simpl in Hn.
    split; [exact Hn|]. vm_compute. reflexivity.
Defined.

(** * Properties of the helper modules *)

(** ** Bootstrap context files *)

Section BootstrapFacts.
Import JsString PiEmbeddedContext.

Lemma str_length_take_exact (n : nat) (s : string) :
  (n <= String.length s)%nat -> String.length (take n s) = n.
Proof.
  revert s. induction n as [|n IH]; intros s H; [reflexivity|].
  destruct s as [|c t]; simpl in *; [lia|]. rewrite IH; [reflexivity | lia].
Qed.

Lemma str_length_drop (n : nat) (s : string) :
  String.length (drop n s) = (String.length s - n)%nat.
Proof.
  revert s. induction n as [|n IH]; intros s; simpl.
  - destruct s; simpl; lia.
  - destruct s as [|c t]; simpl; [reflexivity | apply IH].
Qed.

Lemma str_take_append (n : nat) (a b : string) :
  (n <= String.length a)%nat -> take n (a +:+ b) = take n a.
Proof.
  revert a. induction n as [|n IH]; intros a H; [reflexivity|].
  destruct a as [|c a]; simpl in *; [lia|]. rewrite IH; [reflexivity | lia].
Qed.

Lemma str_take_all (s : string) : take (String.length s) s = s.
Proof.
  induction s as [|c s IH]; simpl; [reflexivity|]. rewrite IH. reflexivity.
Qed.

Lemma str_drop_append (a b : string) : drop (String.length a) (a +:+ b) = b.
Proof.
  induction a as [|c a IH]; simpl; [destruct b; reflexivity | exact IH].
Qed.

Lemma trimStart_suffix (s : string) : exists ws, s = ws +:+ trimStart s.
Proof.
  induction s as [|c s [ws IH]]; [exists EmptyString; reflexivity|].
  simpl. destruct (isWhiteSpace c).
  - exists (String c ws). rewrite append_cons, <- IH. reflexivity.
  - exists EmptyString. reflexivity.
Qed.

Lemma trimEnd_prefix (s : string) : exists ws, s = trimEnd s +:+ ws.
Proof.
  unfold trimEnd. destruct (trimStart_suffix (rev s)) as [ws H].
  exists (rev ws). rewrite <- str_rev_app, <- H, str_rev_involutive.
  reflexivity.
Qed.

Lemma sliceLast_append (n : nat) (a b : string) :
  String.length b = n -> sliceLast n (a +:+ b) = b.
Proof.
  intros H. unfold sliceLast. rewrite length_append, <- H.
  replace (String.length a + String.length b - String.length b)%nat
    with (String.length a) by lia.
  apply str_drop_append.
Qed.

Lemma length_truncationMarker (f : string) :
  String.length (truncationMarker f) = (41 + String.length f)%nat.
Proof.
  unfold truncationMarker. rewrite !length_append. simpl. lia.
Qed.

Lemma trimBootstrapContent_short (content fileName : string) :
  (String.length (trimEnd content) <= MAX_BOOTSTRAP_CHARS)%nat ->
  trimBootstrapContent content fileName = trimEnd content.
Proof.
  intros H. unfold trimBootstrapContent. apply Nat.leb_le in H. rewrite H.
  reflexivity.
Qed.

Lemma trimBootstrapContent_long (content fileName : string) :
  let t := trimEnd content in
  let r := trimBootstrapContent content fileName in
  (MAX_BOOTSTRAP_CHARS < String.length t)%nat ->
  String.length r
  = (BOOTSTRAP_HEAD_CHARS + BOOTSTRAP_TAIL_CHARS + 45
     + String.length fileName)%nat
  /\ take BOOTSTRAP_HEAD_CHARS r = take BOOTSTRAP_HEAD_CHARS content
  /\ sliceLast BOOTSTRAP_TAIL_CHARS r = sliceLast BOOTSTRAP_TAIL_CHARS t
  /\ includes fileName r = true.
Proof.
  cbn zeta. unfold trimBootstrapContent.
  set (t := trimEnd content). intros H.
  assert (Hb : (String.length t <=? MAX_BOOTSTRAP_CHARS)%nat = false)
    by (apply Nat.leb_gt; exact H).
  rewrite Hb. unfold joinLines. cbn [fold_left].
  set (head := take BOOTSTRAP_HEAD_CHARS t).
  set (tail := sliceLast BOOTSTRAP_TAIL_CHARS t).
  assert (Hh : String.length head = BOOTSTRAP_HEAD_CHARS).
  { apply str_length_take_exact.
    unfold MAX_BOOTSTRAP_CHARS, BOOTSTRAP_HEAD_CHARS in *. lia. }
  assert (Ht : String.length tail = BOOTSTRAP_TAIL_CHARS).
  { unfold tail, sliceLast. rewrite str_length_drop.
    unfold MAX_BOOTSTRAP_CHARS, BOOTSTRAP_TAIL_CHARS in *. lia. }
  split; [|split; [|split]].
  - repeat (rewrite length_append || cbn [String.length]).
    rewrite length_truncationMarker, Hh, Ht. lia.
  - rewrite !append_assoc, str_take_append by lia.
    rewrite <- Hh at 1. rewrite str_take_all. unfold head.
    destruct (trimEnd_prefix content) as [ws Hws]. fold t in Hws.
    rewrite Hws at 1. rewrite str_take_append; [reflexivity|].
    unfold MAX_BOOTSTRAP_CHARS, BOOTSTRAP_HEAD_CHARS in *. lia.
  - match goal with
    | |- sliceLast _ (?x +:+ String ?c tail) = _ =>
        replace (x +:+ String c tail)
          with ((x +:+ String c EmptyString) +:+ tail)
          by (rewrite append_assoc; reflexivity)
    end.
    apply sliceLast_append. exact Ht.
  - unfold truncationMarker.
    match goal with
    | |- includes _ ?x = true =>
        replace x with
          ((head +:+ String "010" (String "010" "[...truncated, read "))
           +:+ fileName +:+
           (" for full content...]" +:+ String "010" (String "010" tail)))
    end.
    + apply includesBy_app. intros c. apply Ascii.eqb_refl.
    + repeat (rewrite append_assoc || rewrite append_cons). reflexivity.
Qed.

(** X15. Bootstrap content of at most 4000 characters, trailing white space
    aside, is passed on with that white space removed. Longer content is cut
    to its first 2800 and its last 800 characters around a marker that names
    the file: 3645 characters and the file name in all, so the result stays
    within 4000 characters unless the file name is longer than 355. *)
Theorem trimBootstrapContent_bounds (content fileName : string) :
  let t := trimEnd content in
  let r := trimBootstrapContent content fileName in
  (String.length r
   <= Nat.max MAX_BOOTSTRAP_CHARS
        (BOOTSTRAP_HEAD_CHARS + BOOTSTRAP_TAIL_CHARS + 45
         + String.length fileName))%nat
  /\ if (String.length t <=? MAX_BOOTSTRAP_CHARS)%nat then r = t
     else
       String.length r
       = (BOOTSTRAP_HEAD_CHARS + BOOTSTRAP_TAIL_CHARS + 45
          + String.length fileName)%nat
       /\ take BOOTSTRAP_HEAD_CHARS r = take BOOTSTRAP_HEAD_CHARS content
       /\ sliceLast BOOTSTRAP_TAIL_CHARS r = sliceLast BOOTSTRAP_TAIL_CHARS t
       /\ includes fileName r = true.
Proof.
  cbn zeta.
  destruct (String.length (trimEnd content) <=? MAX_BOOTSTRAP_CHARS)%nat
    eqn:Hb.
  - apply Nat.leb_le in Hb.
    rewrite (trimBootstrapContent_short content fileName Hb).
    split; [lia | reflexivity].
  - apply Nat.leb_gt in Hb.
    pose proof (trimBootstrapContent_long content fileName Hb) as H.
    cbn zeta in H. split; [|exact H]. destruct H as [-> _]. lia.
Qed.

Lemma buildBootstrapContextFiles_flat (files : list WorkspaceBootstrapFile)
  (acc : list EmbeddedContextFile) :
  fold_left (fun result file => (result ++ contextFilesOf file)%list) files acc
  = (acc ++ concat (map contextFilesOf files))%list.
Proof.
  revert acc. induction files as [|f files IH]; intros acc; simpl.
  - rewrite app_nil_r. reflexivity.
  - rewrite IH, <- app_assoc. reflexivity.
Qed.

Lemma contextFilesOf_shape (f : WorkspaceBootstrapFile) :
  contextFilesOf f = []
  \/ exists c, contextFilesOf f = [mkContextFile (bfName f) c]
               /\ truthy c = true.
Proof.
  unfold contextFilesOf. destruct (bfMissing f).
  - right. eexists. split; reflexivity.
  - destruct (truthy _) eqn:Ht; simpl; [|left; reflexivity].
    right. eexists. split; [reflexivity | exact Ht].
Qed.

Lemma trimBootstrapContent_truthy (content fileName : string) :
  truthy (trimEnd content) = true ->
  truthy (trimBootstrapContent content fileName) = true.
Proof.
  intros Ht.
  destruct (String.length (trimEnd content) <=? MAX_BOOTSTRAP_CHARS)%nat
    eqn:Hb.
  - apply Nat.leb_le in Hb.
    rewrite (trimBootstrapContent_short content fileName Hb). exact Ht.
  - apply Nat.leb_gt in Hb.
    pose proof (trimBootstrapContent_long content fileName Hb) as [Hl _].
    destruct (trimBootstrapContent content fileName); [|reflexivity].
    simpl in Hl. unfold BOOTSTRAP_HEAD_CHARS in Hl. lia.
Qed.

(** X16. The context files handed to the agent: one entry at most per
    bootstrap file, in the order of the files and under the name of the
    file; no entry has empty content; a missing file is always listed, with
    the path it was expected at; a file that is present is listed unless it
    is blank. *)
Theorem bootstrap_context_files_shape (files : list WorkspaceBootstrapFile) :
  let out := buildBootstrapContextFiles files in
  sublist (cfPath <$> out) (bfName <$> files)
  /\ Forall (fun c => truthy (cfContent c) = true) out
  /\ (forall f, f ∈ files ->
        if bfMissing f
        then mkContextFile (bfName f) ("[MISSING] Expected at: " +:+ bfPath f)
             ∈ out
        else truthy (trimEnd (default EmptyString (bfContent f))) = true ->
             exists c, mkContextFile (bfName f) c ∈ out).
Proof.
  cbn zeta. unfold buildBootstrapContextFiles.
  rewrite buildBootstrapContextFiles_flat. simpl. split; [|split].
  - induction files as [|f files IH]; simpl; [constructor|].
    rewrite fmap_app.
    destruct (contextFilesOf_shape f) as [-> | (c & -> & _)]; simpl.
    + constructor. exact IH.
    + constructor. exact IH.
  - induction files as [|f files IH]; simpl; [constructor|].
    apply Forall_app. split; [|exact IH].
    destruct (contextFilesOf_shape f) as [-> | (c & -> & Hc)];
      repeat constructor. exact Hc.
  - intros f Hf.
    assert (Hin : forall c, c ∈ contextFilesOf f ->
                            c ∈ concat (map contextFilesOf files)).
    { intros c Hc. apply list_elem_of_In, in_concat.
      exists (contextFilesOf f). split.
      - apply in_map, list_elem_of_In. exact Hf.
      - apply list_elem_of_In. exact Hc. }
    destruct (bfMissing f) eqn:Hm.
    + apply Hin. unfold contextFilesOf. rewrite Hm. constructor.
    + intros Ht. unfold contextFilesOf in Hin. rewrite Hm in Hin.
      rewrite (trimBootstrapContent_truthy _ (bfName f) Ht) in Hin.
      simpl in Hin. eexists. apply Hin. constructor.
Qed.

End BootstrapFacts.

(** ** The formatter of assistant errors, in full *)

Section FormatterFacts.
Import JsString PiEmbeddedHelpers.

Lemma includes_quote_cons (c : ascii) (a : string) :
  includes (String quote EmptyString) (String c a)
  = Ascii.eqb quote c || includes (String quote EmptyString) a.
Proof.
  unfold includes. cbn [includesBy startsWithBy].
  destruct a; rewrite andb_true_r; reflexivity.
Qed.

Lemma spanNonQuote_fst (s : string) :
  includes (String quote EmptyString) (spanNonQuote s).1 = false.
Proof.
  induction s as [|c t IH]; [reflexivity|]. cbn [spanNonQuote].
  destruct (Ascii.eqb c quote) eqn:Hc; [reflexivity|].
  destruct (spanNonQuote t) as [a b]. cbn [fst] in *.
  rewrite includes_quote_cons, Ascii.eqb_sym, Hc. exact IH.
Qed.

Lemma messageAt_group (s g : string) :
  messageAt s = Some g ->
  truthy g = true /\ includes (String quote EmptyString) g = false.
Proof.
  unfold messageAt. destruct (startsWithBy _ _ s); [|discriminate].
  match goal with
  | |- context [spanNonQuote ?x] =>
      pose proof (spanNonQuote_fst x) as Hq;
      destruct (spanNonQuote x) as [run rest]
  end.
  cbn [fst] in Hq.
  destruct (truthy run && _) eqn:Hb; [|discriminate].
  apply andb_true_iff in Hb. destruct Hb as [Ht _].
  intros [= <-]. split; [exact Ht | exact Hq].
Qed.

Lemma lazyThenMessage_group (s g : string) :
  lazyThenMessage s = Some g ->
  truthy g = true /\ includes (String quote EmptyString) g = false.
Proof.
  induction s as [|c t IH]; intros H.
  - cbn in H. discriminate H.
  - cbn [lazyThenMessage] in H.
    destruct (messageAt (String c t)) eqn:Hm.
    + injection H as <-. eapply messageAt_group. exact Hm.
    + destruct (isLineTerminator c); [discriminate H | apply IH; exact H].
Qed.

Lemma invalidRequestMessage_group (s g : string) :
  invalidRequestMessage s = Some g ->
  truthy g = true /\ includes (String quote EmptyString) g = false.
Proof.
  induction s as [|c t IH]; intros H.
  - cbn in H. discriminate H.
  - cbn [invalidRequestMessage] in H.
    destruct (if startsWithBy Ascii.eqb _ (String c t) then _ else None)
      as [g'|] eqn:Hg.
    + injection H as <-.
      destruct (startsWithBy Ascii.eqb _ (String c t)); [|discriminate Hg].
      eapply lazyThenMessage_group. exact Hg.
    + apply IH. exact H.
Qed.

Lemma truthy_take_append (n : nat) (s x : string) :
  truthy s = true -> (0 < n)%nat -> truthy (take n s +:+ x) = true.
Proof.
  destruct s as [|c t]; [discriminate|]. destruct n; [lia|]. reflexivity.
Qed.

(** X17. What the formatter of assistant errors returns. It answers exactly
    for the messages whose stop reason is [error], and never with an empty
    text. The answer either has at most 600 characters and the ellipsis, or
    it is the rejection notice followed by the provider's own message, which
    is not empty and holds no double quote. *)
Theorem formatAssistantErrorText_shape (msg : AssistantMessage) :
  match formatAssistantErrorText msg with
  | None => stopReason msg <> "error"
  | Some t =>
      stopReason msg = "error"
      /\ truthy t = true
      /\ ((String.length t <= 600 + String.length ELLIPSIS)%nat
          \/ exists g,
               t = "LLM request rejected: " +:+ g
               /\ truthy g = true
               /\ includes (String quote EmptyString) g = false)
  end.
Proof.
  unfold formatAssistantErrorText.
  destruct (bool_decide (stopReason msg = "error")) eqn:Hs; cbn [negb].
  2: { apply bool_decide_eq_false in Hs. exact Hs. }
  apply bool_decide_eq_true in Hs.
  set (raw := trim (default EmptyString (errorMessage msg))).
  destruct (truthy raw) eqn:Hr; cbn [negb].
  2: { split; [exact Hs|]. split; [reflexivity|]. left.
       apply Nat.leb_le. reflexivity. }
  destruct (isContextOverflowError (Some raw)).
  { split; [exact Hs|]. split; [reflexivity|]. left.
    apply Nat.leb_le. reflexivity. }
  destruct (invalidRequestMessage raw) as [g|] eqn:Hg.
  { split; [exact Hs|]. split; [reflexivity|]. right. exists g.
    split; [reflexivity|]. eapply invalidRequestMessage_group. exact Hg. }
  split; [exact Hs|].
  destruct (600 <? String.length raw)%nat eqn:Hl.
  - split; [apply truthy_take_append; [exact Hr | lia]|]. left.
    rewrite length_append. pose proof (length_take 600 raw). lia.
  - apply Nat.ltb_ge in Hl. split; [exact Hr|]. left. lia.
Qed.

End FormatterFacts.

(** ** The error classifiers *)

Section ClassifierFacts.
Import JsString PiEmbeddedHelpers PiEmbeddedContext.

Lemma lowerChar_idem (c : ascii) : lowerChar (lowerChar c) = lowerChar c.
Proof.
  destruct c as [[] [] [] [] [] [] [] []]; reflexivity.
Qed.

Lemma toLowerCase_idem (s : string) :
  toLowerCase (toLowerCase s) = toLowerCase s.
Proof.
  induction s as [|c s IH]; simpl; [reflexivity|].
  rewrite lowerChar_idem, IH. reflexivity.
Qed.

Lemma truthy_toLowerCase (s : string) : truthy (toLowerCase s) = truthy s.
Proof. destruct s; reflexivity. Qed.

(** X18. The error classifiers do not see letter case: a message and its
    lower-case form are classified alike, as rate limit, as authentication
    failure and as context overflow. An assistant message counts as a
    rate-limit or authentication error exactly when its stop reason is
    [error] and its error message is classified so; an absent or empty
    message is never classified. *)
Theorem error_classifiers_case_blind :
  (forall s,
      isRateLimitErrorMessage (toLowerCase s) = isRateLimitErrorMessage s
      /\ isAuthErrorMessage (toLowerCase s) = isAuthErrorMessage s
      /\ isContextOverflowError (Some (toLowerCase s))
         = isContextOverflowError (Some s))
  /\ (forall m,
        isRateLimitAssistantError (Some m)
        = bool_decide (stopReason m = "error")
          && isRateLimitErrorMessage (default EmptyString (errorMessage m)))
  /\ (forall m,
        isAuthAssistantError (Some m)
        = bool_decide (stopReason m = "error")
          && isAuthErrorMessage (default EmptyString (errorMessage m)))
  /\ (isRateLimitErrorMessage EmptyString = false
      /\ isAuthErrorMessage EmptyString = false
      /\ isContextOverflowError (Some EmptyString) = false
      /\ isContextOverflowError None = false
      /\ isRateLimitAssistantError None = false
      /\ isAuthAssistantError None = false).
Proof.
  split; [|split; [|split]].
  - intros s. unfold isRateLimitErrorMessage, isAuthErrorMessage,
      isContextOverflowError. cbn zeta.
    rewrite toLowerCase_idem. split; [reflexivity|]. split; [reflexivity|].
    unfold truthyStr. rewrite truthy_toLowerCase.
    destruct (truthy s); [|reflexivity]. rewrite toLowerCase_idem.
    reflexivity.
  - intros m. unfold isRateLimitAssistantError.
    destruct (bool_decide (stopReason m = "error")); [|reflexivity].
    cbn [negb andb]. set (e := default EmptyString (errorMessage m)).
    rewrite truthy_toLowerCase.
    destruct (truthy e) eqn:He; cbn [negb].
    + unfold isRateLimitErrorMessage. cbn zeta. rewrite toLowerCase_idem.
      reflexivity.
    + destruct e; [reflexivity | discriminate He].
  - intros m. unfold isAuthAssistantError.
    destruct (bool_decide (stopReason m = "error")); reflexivity.
  - repeat split; reflexivity.
Qed.

End ClassifierFacts.

Example classifier_samples :
  PiEmbeddedContext.isRateLimitErrorMessage "HTTP 429: Rate_Limit reached" = true
  /\ PiEmbeddedContext.isAuthErrorMessage "Invalid API key" = true
  /\ PiEmbeddedContext.isAuthErrorMessage "invalidapikey" = true
  /\ PiEmbeddedContext.isAuthErrorMessage "status 401." = true
  /\ PiEmbeddedContext.isAuthErrorMessage "code 14010" = false
  /\ PiEmbeddedContext.isAuthErrorMessage "x_401" = false
  /\ PiEmbeddedContext.isAuthErrorMessage "" = false.
Proof. repeat split; reflexivity. Qed.

(** ** The fallback thinking level *)

Section FallbackFacts.
Import ThinkingFallback.
Context {ThinkLevel : Type}.
Variable normalizeThinkLevel : string -> option ThinkLevel.
Variable attempted : ThinkLevel -> bool.

Lemma firstUntried_spec (supported : list string) :
  match firstUntried normalizeThinkLevel attempted supported with
  | Some lvl =>
      attempted lvl = false
      /\ exists entry, entry ∈ supported
                       /\ normalizeThinkLevel entry = Some lvl
  | None =>
      forall entry lvl,
        entry ∈ supported -> normalizeThinkLevel entry = Some lvl ->
        attempted lvl = true
  end.
Proof.
  induction supported as [|e l IH]; simpl.
  - intros entry lvl H. apply elem_of_nil in H. contradiction.
  - destruct (normalizeThinkLevel e) as [n|] eqn:Hn.
    + destruct (attempted n) eqn:Ha.
      * destruct (firstUntried normalizeThinkLevel attempted l) as [lvl|].
        -- destruct IH as (H1 & entry & H2 & H3). split; [exact H1|].
           exists entry. split; [right; exact H2 | exact H3].
        -- intros entry lvl H Hl. apply elem_of_cons in H as [-> | H].
           ++ congruence.
           ++ eapply IH; eassumption.
      * split; [exact Ha|]. exists e. split; [left | exact Hn].
    + destruct (firstUntried normalizeThinkLevel attempted l) as [lvl|].
      * destruct IH as (H1 & entry & H2 & H3). split; [exact H1|].
        exists entry. split; [right; exact H2 | exact H3].
      * intros entry lvl H Hl. apply elem_of_cons in H as [-> | H].
        -- congruence.
        -- eapply IH; eassumption.
Qed.

Lemma extractSupportedValues_truthy (raw entry : string) :
  entry ∈ extractSupportedValues raw -> JsString.truthy entry = true.
Proof.
  unfold extractSupportedValues.
  destruct (match firstValues "supported values are:" raw with
            | Some g => Some g
            | None => firstValues "supported values:" raw
            end) as [fragment|]; [|intros H; inversion H].
  destruct (map JsString.trim (quotedFrom 0 fragment)) as [|q l];
    intros H; apply list_elem_of_In, filter_In in H; apply H.
Qed.

(** X22. The thinking level proposed after a provider rejected one is never
    a level that was tried already, and it is the normal form of one of the
    values the provider's message lists as supported. No level is proposed
    only when every listed value that has a normal form was tried already
    (or the message is blank or lists none). *)
Theorem fallback_level_is_untried (message : option string) :
  let supported :=
    extractSupportedValues (JsString.trim (default EmptyString message)) in
  match pickFallbackThinkingLevel normalizeThinkLevel message attempted with
  | Some lvl =>
      attempted lvl = false
      /\ exists entry, entry ∈ supported
                       /\ JsString.truthy entry = true
                       /\ normalizeThinkLevel entry = Some lvl
  | None =>
      forall entry lvl,
        entry ∈ supported -> normalizeThinkLevel entry = Some lvl ->
        attempted lvl = true
  end.
Proof.
  cbn zeta. unfold pickFallbackThinkingLevel.
  assert (E : extractSupportedValues EmptyString = [])
    by (vm_compute; reflexivity).
  destruct message as [m|]; simpl.
  2: { change (JsString.trim EmptyString) with EmptyString. rewrite E.
       intros entry lvl H. apply elem_of_nil in H. contradiction. }
  destruct (JsString.truthy (JsString.trim m)) eqn:Ht.
  2: { destruct (JsString.trim m); [|discriminate Ht]. rewrite E.
       intros entry lvl H. apply elem_of_nil in H. contradiction. }
  pose proof (firstUntried_spec (extractSupportedValues (JsString.trim m)))
    as Hs.
  pose proof (extractSupportedValues_truthy (JsString.trim m)) as Htr.
  destruct (extractSupportedValues (JsString.trim m)) as [|e l] eqn:He.
  - intros entry lvl H. apply elem_of_nil in H. contradiction.
  - simpl in Hs.
    match goal with
    | |- match ?x with _ => _ end => destruct x as [lvl|]
    end.
    + destruct Hs as (H1 & entry & H2 & H3). split; [exact H1|].
      exists entry. split; [exact H2|]. split; [apply Htr; exact H2 | exact H3].
    + exact Hs.
Qed.

End FallbackFacts.

Example supported_values_samples :
  ThinkingFallback.extractSupportedValues
    "Invalid value for thinking. Supported values are: 'low', 'medium' and 'high'."
  = ["low"; "medium"; "high"]
  /\ ThinkingFallback.extractSupportedValues
       "supported values: minimal, low and high. Try again"
     = ["minimal"; "low"; "high"]
  /\ ThinkingFallback.extractSupportedValues "supported values are: ." = [].
Proof. repeat split; vm_compute; reflexivity. Qed.

Example fallback_sample :
  ThinkingFallback.pickFallbackThinkingLevel FallbackSample.normalize
    (Some FallbackSample.rejection) FallbackSample.triedLow
  = Some FallbackSample.thinkMedium
  /\ ThinkingFallback.pickFallbackThinkingLevel FallbackSample.normalize
       (Some FallbackSample.rejection) (fun _ => true)
     = None.
Proof. split; vm_compute; reflexivity. Qed.

(** ** Images in the session history *)

Section SessionImagesFacts.
Import SessionImages.
Context {Block Scalar Fields Opaque : Type}.
Variable sanitizeBlocks : list Block -> string -> list Block.

Local Abbreviation Message := (AgentMessage Block Scalar Fields Opaque).

Lemma sanitizeSessionMessagesImages_map (messages : list Message)
  (label : string) (acc : list Message) :
  fold_left
    (fun out msg => (out ++ [sanitizeMessage sanitizeBlocks label msg])%list)
    messages acc
  = (acc ++ map (sanitizeMessage sanitizeBlocks label) messages)%list.
Proof.
  revert acc. induction messages as [|m l IH]; intros acc; simpl.
  - rewrite app_nil_r. reflexivity.
  - rewrite IH, <- app_assoc. reflexivity.
Qed.

(** X21. Sanitising the images of a session history keeps the transcript in
    shape: as many messages as before, in the same order, each with its role
    and its other fields; only tool results and user messages with an array
    content are given a new content, every other message is passed on as it
    is. *)
Theorem session_images_keep_transcript (messages : list Message)
  (label : string) :
  let out := sanitizeSessionMessagesImages sanitizeBlocks messages label in
  length out = length messages
  /\ roleOf <$> out = roleOf <$> messages
  /\ restOf <$> out = restOf <$> messages
  /\ forall i msg,
       messages !! i = Some msg ->
       hasSanitizedContent msg = false ->
       out !! i = Some msg.
Proof.
  cbn zeta. unfold sanitizeSessionMessagesImages.
  rewrite sanitizeSessionMessagesImages_map. simpl.
  split; [apply length_map|]. split; [|split].
  - induction messages as [|m l IH]; [reflexivity|]. simpl.
    f_equal; [|exact IH].
    destruct m as [v|role content rest]; [reflexivity|]. simpl.
    destruct (bool_decide (role = Some "toolResult")); [reflexivity|].
    destruct (bool_decide (role = Some "user")); [|reflexivity].
    destruct content; reflexivity.
  - induction messages as [|m l IH]; [reflexivity|]. simpl.
    f_equal; [|exact IH].
    destruct m as [v|role content rest]; [reflexivity|]. simpl.
    destruct (bool_decide (role = Some "toolResult")); [reflexivity|].
    destruct (bool_decide (role = Some "user")); [|reflexivity].
    destruct content; reflexivity.
  - intros i msg Hi Hs.
    change (map ?f ?l) with (f <$> l). rewrite list_lookup_fmap, Hi. simpl.
    f_equal. destruct msg as [v|role content rest]; [reflexivity|].
    simpl in *.
    destruct (bool_decide (role = Some "toolResult")); [discriminate Hs|].
    destruct (bool_decide (role = Some "user")); [|reflexivity].
    destruct content; [discriminate Hs | reflexivity].
Qed.

End SessionImagesFacts.

(** ** The command line of a CLI backend *)

Section CliFacts.
Import CliRunner.

(** X19. The prompt reaches the CLI exactly once: either as the last
    argument of the command line or on standard input, never both and never
    neither. It goes to standard input exactly when the backend reads its
    input there, or has a nonzero limit on the length of a prompt argument
    that the prompt exceeds. The rest of the command line does not depend on
    the prompt and begins with the base arguments. *)
Theorem prompt_passed_once (fill : string -> string -> string)
  (b : CliBackendConfig) (prompt : string) :
  let i := resolvePromptInput b prompt in
  (argsPrompt i = Some prompt /\ stdin i = None
   \/ argsPrompt i = None /\ stdin i = Some prompt)
  /\ (stdin i = Some prompt <->
      cbInput b = Some inputStdin
      \/ exists n, cbMaxPromptArgChars b = Some n /\ n <> 0
                   /\ n < Z.of_nat (String.length prompt))
  /\ forall bk base mid sid sp imgs res,
       exists rest,
         buildCliArgs fill
           (mkCliArgsParams bk base mid sid sp imgs None res)
         = (base ++ rest)%list
         /\ buildCliArgs fill
              (mkCliArgsParams bk base mid sid sp imgs (argsPrompt i) res)
            = (base ++ rest
               ++ match stdin i with Some _ => [] | None => [prompt] end)%list.
Proof.
  cbn zeta. split; [|split].
  - unfold resolvePromptInput.
    destruct (default inputArg (cbInput b)); [|right; split; reflexivity].
    destruct (truthyNum _); [|left; split; reflexivity].
    destruct (_ <? _); [right | left]; split; reflexivity.
  - unfold resolvePromptInput, truthyNum.
    destruct (cbInput b) as [[|]|]; simpl.
    2: { split; [intros _; left; reflexivity | reflexivity]. }
    all: destruct (cbMaxPromptArgChars b) as [n|]; simpl.
    all: try (split; [discriminate | intros [H | (n0 & H & _)]; discriminate H]).
    all: destruct (n =? 0) eqn:Hz; simpl.
    all: try (apply Z.eqb_eq in Hz; split;
              [discriminate
              | intros [H | (n0 & H & Hn & _)];
                [discriminate H | injection H as <-; contradiction]]).
    all: apply Z.eqb_neq in Hz;
      destruct (n <? Z.of_nat (String.length prompt)) eqn:Hl; simpl.
    all: try (apply Z.ltb_lt in Hl; split;
              [intros _; right; exists n; repeat split; assumption
              | reflexivity]).
    all: apply Z.ltb_ge in Hl; split;
      [discriminate
      | intros [H | (n0 & H & _ & Hlt)];
        [discriminate H | injection H as <-; lia]].
  - intros bk base mid sid sp imgs res.
    set (X := mkCliArgsParams bk base mid sid sp imgs None res).
    exists (modelPart X ++ systemPromptPart X ++ sessionPart fill X
            ++ imagePart X)%list.
    unfold buildCliArgs, promptPart. cbn [baseArgs promptArg]. split.
    + subst X. cbn [baseArgs]. rewrite app_nil_r, <- !app_assoc. reflexivity.
    + assert (E : match argsPrompt (resolvePromptInput b prompt) with
                  | Some a => [a]
                  | None => []
                  end
                  = match stdin (resolvePromptInput b prompt) with
                    | Some _ => []
                    | None => [prompt]
                    end).
      { unfold resolvePromptInput.
        destruct (default inputArg (cbInput b)); [|reflexivity].
        destruct (truthyNum _); [|reflexivity].
        destruct (_ <? _); reflexivity. }
      rewrite E, <- !app_assoc. reflexivity.
Qed.

(** X20. Whether a CLI session is new does not depend on the session mode:
    it is new exactly when no session id is known, white space aside. A
    known id is passed on as it is, or withheld in mode [none], and never
    replaced; a fresh id is made up only for a new session in mode [always].
    With the default rule for the system prompt, [first], the prompt is
    therefore passed only when no session id is known; when it is passed, it
    is the trimmed prompt, and not empty. *)
Theorem new_session_and_system_prompt (uuid : string) (b : CliBackendConfig)
  (cliSessionId systemPrompt : option string) :
  let existing := truthyStr (JsString.trim <$> cliSessionId) in
  let s := resolveSessionIdToSend uuid b cliSessionId in
  stsIsNew s = negb (isSomeB existing)
  /\ match existing with
     | Some e =>
         stsSessionId s
         = match cbSessionMode b with
           | Some sessionNone => None
           | _ => Some e
           end
     | None =>
         match default sessionAlways (cbSessionMode b) with
         | sessionAlways => stsSessionId s = Some uuid
         | sessionExisting => truthyStr (stsSessionId s) = None
         | sessionNone => stsSessionId s = None
         end
     end
  /\ forall sp,
       resolveSystemPromptUsage b (stsIsNew s) systemPrompt = Some sp ->
       truthyStr (JsString.trim <$> systemPrompt) = Some sp
       /\ cbSystemPromptWhen b <> Some whenNever
       /\ (cbSystemPromptWhen b <> Some whenAlways -> existing = None).
Proof.
  cbn zeta. unfold resolveSessionIdToSend.
  set (ex := JsString.trim <$> cliSessionId).
  split; [|split].
  - destruct (cbSessionMode b) as [[| |]|]; simpl; try reflexivity;
      destruct (isSomeB (truthyStr ex)); reflexivity.
  - destruct (truthyStr ex) as [e|] eqn:He.
    + assert (Hex : ex = Some e).
      { unfold truthyStr in He. destruct ex as [x|]; [|discriminate He].
        destruct (JsString.truthy x); [|discriminate He]. exact He. }
      destruct (cbSessionMode b) as [[| |]|]; simpl; try reflexivity;
        try exact Hex; rewrite ?He; simpl; exact Hex.
    + destruct (cbSessionMode b) as [[| |]|]; simpl; rewrite ?He; simpl;
        try reflexivity; exact He.
  - intros sp. unfold resolveSystemPromptUsage.
    destruct (truthyStr (JsString.trim <$> systemPrompt)) as [x|];
      [|discriminate].
    assert (Hn : stsIsNew
                   (match default sessionAlways (cbSessionMode b) with
                    | sessionAlways =>
                        if isSomeB (truthyStr ex)
                        then mkSessionToSend ex false
                        else mkSessionToSend (Some uuid) true
                    | sessionExisting =>
                        mkSessionToSend ex (negb (isSomeB (truthyStr ex)))
                    | sessionNone =>
                        mkSessionToSend None (negb (isSomeB (truthyStr ex)))
                    end) = negb (isSomeB (truthyStr ex))).
    { destruct (cbSessionMode b) as [[| |]|]; simpl; try reflexivity;
        destruct (isSomeB (truthyStr ex)); reflexivity. }
    rewrite Hn.
    destruct (cbSystemPromptWhen b) as [[| |]|]; simpl; try discriminate.
    + destruct (truthyStr ex); simpl; [discriminate|].
      destruct (isSomeB (truthyStr (JsString.trim <$> cbSystemPromptArg b))); simpl; [|discriminate].
      intros H. split; [exact H|]. split; [discriminate|]. reflexivity.
    + destruct (isSomeB (truthyStr (JsString.trim <$> cbSystemPromptArg b))); simpl; [|discriminate].
      intros H. split; [exact H|]. split; [discriminate|].
      intros Hc. contradiction.
    + destruct (truthyStr ex); simpl; [discriminate|].
      destruct (isSomeB (truthyStr (JsString.trim <$> cbSystemPromptArg b))); simpl; [|discriminate].
      intros H. split; [exact H|]. split; [discriminate|]. reflexivity.
Qed.

End CliFacts.
